(** * weather-app: the services layer, embedded and verified

    A shallow embedding of [app/services/validators.py], [app/services/geo.py]
    and [app/services/weather.py].

    Conventions of the embedding.
    - A Python [float] is an IEEE-754 binary64 value: Rocq's primitive [float].
    - A Python [int] is a [Z]; a loop index is a [nat].
    - A Python [str] is a [string] (the bytes of its UTF-8 encoding); the
      character classes of [re], [strptime] and [float] are those of ASCII
      text ([\d] is 0-9, and so on).
    - [None] in an [Optional[T]] position is [None] of [option T].
    - A raised exception is the [Raise] case of [outcome]; an upstream HTTP
      call goes through the monad [M], which records every request made.
      [date.today()] and the answers of the three upstream services are the
      fields of a [world].
    - Upstream JSON documents are read at the shape the services document
      (an object of arrays for [daily], with numbers or [null] in them; a
      list of result objects for the geocoders); the values found in the
      geocoders' result objects are arbitrary JSON values. *)

From Stdlib Require Import ZArith Floats String Ascii List Bool Lia.
From Stdlib Require Import DecimalString PeanoNat Sorted.
Import ListNotations.

#[local] Set Warnings "-inexact-float".

Open Scope string_scope.
Open Scope list_scope.

(* ================================================================== *)
(** * The Python runtime, as far as the services use it               *)
(* ================================================================== *)

(** JSON values as [r.json()] produces them. *)
#[local] Unset Elimination Schemes.
Inductive json : Type :=
| JNull
| JBool (b : bool)
| JInt (z : Z)
| JFloat (f : float)
| JStr (s : string)
| JList (l : list json)
| JDict (d : list (string * json)).
#[local] Set Elimination Schemes.

(** The exceptions the services can meet. *)
Inductive exn : Type :=
| TypeError
| ValueError (msg : string)
| IndexError
| OverflowError.

Inductive outcome (A : Type) : Type :=
| Return (a : A)
| Raise (e : exn).
Arguments Return {A} a.
Arguments Raise {A} e.

Definition obind {A B} (c : outcome A) (k : A -> outcome B) : outcome B :=
  match c with
  | Return a => k a
  | Raise e => Raise e
  end.

Declare Scope outcome_scope.
Delimit Scope outcome_scope with outcome.
Notation "x <~ c ;; k" := (obind c (fun x => k))
  (at level 100, c at next level, right associativity) : outcome_scope.

(** [str(n)] of an [int]. *)
Definition str_int (z : Z) : string := NilZero.string_of_int (Z.to_int z).

(** [str(code)] of an [Optional[int]], as an f-string renders it. *)
Definition str_opt_int (code : option Z) : string :=
  match code with
  | Some z => str_int z
  | None => "None"
  end.

(** A dict with string keys, in insertion order. *)
Definition dict := list (string * json).

(** [d.get(k)]: the value, or [None] (here [JNull]) when the key is absent. *)
Fixpoint dict_get (d : dict) (k : string) : json :=
  match d with
  | [] => JNull
  | (k', v) :: rest => if String.eqb k' k then v else dict_get rest k
  end.

(** [k in d]. *)
Fixpoint dict_has (d : dict) (k : string) : bool :=
  match d with
  | [] => false
  | (k', _) :: rest => String.eqb k' k || dict_has rest k
  end.

(** Truthiness of a JSON value ([if v:], [v or w]). *)
Definition truthy (v : json) : bool :=
  match v with
  | JNull => false
  | JBool b => b
  | JInt z => negb (Z.eqb z 0)
  | JFloat f => negb (PrimFloat.eqb f 0%float)
  | JStr s => negb (String.eqb s "")
  | JList l => match l with [] => false | _ => true end
  | JDict d => match d with [] => false | _ => true end
  end.

(** [xs[i]] for a list and a non-negative index. *)
Definition py_getitem {A} (xs : list A) (i : nat) : outcome A :=
  match nth_error xs i with
  | Some x => Return x
  | None => Raise IndexError
  end.

(* ================================================================== *)
(** * weather.py: conversions and the code table                       *)
(* ================================================================== *)

(** Minimal mapping for Open-Meteo weather codes. *)
Definition WEATHER_CODE_DESC : list (Z * string) :=
  [ (0, "Clear sky");
    (1, "Mainly clear");
    (2, "Partly cloudy");
    (3, "Overcast");
    (45, "Fog");
    (48, "Depositing rime fog");
    (51, "Light drizzle");
    (53, "Moderate drizzle");
    (55, "Dense drizzle");
    (61, "Slight rain");
    (63, "Moderate rain");
    (65, "Heavy rain");
    (71, "Slight snow");
    (73, "Moderate snow");
    (75, "Heavy snow");
    (80, "Rain showers");
    (81, "Moderate rain showers");
    (82, "Violent rain showers");
    (95, "Thunderstorm");
    (96, "Thunderstorm w/ slight hail");
    (99, "Thunderstorm w/ heavy hail") ]%Z.

(** [table.get(key)] on an int-keyed dict. *)
Fixpoint code_lookup (table : list (Z * string)) (key : Z) : option string :=
  match table with
  | [] => None
  | (k, v) :: rest => if Z.eqb k key then Some v else code_lookup rest key
  end.

(** [table.get(code, default)] where [code] may be [None]: [None] is
    hashable and is no key of an int-keyed table. *)
Definition code_get (table : list (Z * string)) (code : option Z)
    (default : string) : string :=
  match code with
  | Some k => match code_lookup table k with
              | Some v => v
              | None => default
              end
  | None => default
  end.

Definition _c_to_f (c : option float) : option float :=
  match c with
  | None => None
  | Some c => Some (c * 9 / 5 + 32)%float
  end.

Definition _mm_to_in (mm : option float) : option float :=
  match mm with
  | None => None
  | Some mm => Some (mm / 25.4)%float
  end.

(* ================================================================== *)
(** * datetime.date                                                    *)
(* ================================================================== *)

Record date : Type := mkdate { year : Z; month : Z; day : Z }.

(** [a < b] on dates: Python compares (year, month, day) lexicographically. *)
Definition date_ltb (a b : date) : bool :=
  (year a <? year b)%Z
  || ((year a =? year b)%Z
      && ((month a <? month b)%Z
          || ((month a =? month b)%Z && (day a <? day b)%Z))).

(** [a > b]. *)
Definition date_gtb (a b : date) : bool := date_ltb b a.

Definition date_lt (a b : date) : Prop := date_ltb a b = true.
Definition date_le (a b : date) : Prop := date_ltb b a = false.

(** [s.zfill(width)] for the digits of a non-negative number. *)
Definition zfill (width : nat) (s : string) : string :=
  String.concat "" (repeat "0" (width - String.length s)) ++ s.

(** [d.isoformat()]: "%04d-%02d-%02d". *)
Definition isoformat (d : date) : string :=
  zfill 4 (str_int (year d)) ++ "-" ++ zfill 2 (str_int (month d))
  ++ "-" ++ zfill 2 (str_int (day d)).

(* ================================================================== *)
(** * Upstream services and the request monad                          *)
(* ================================================================== *)

(** One [client.get(url, params=params)] of a client built with [headers]. *)
Record request : Type := mkreq {
  url : string;
  params : dict;
  headers : list (string * string) }.

(** The weather service's documents, at the shape the fetchers read:
    a missing or [null] member is [None]. *)
Module Payload.

Record current : Type := mkcurrent {
  temperature_2m : option float;
  apparent_temperature : option float;
  precipitation : option float;
  weather_code : option Z;
  wind_speed_10m : option float }.

Record daily : Type := mkdaily {
  time : option (list string);
  temperature_2m_max : option (list (option float));
  temperature_2m_min : option (list (option float));
  precipitation_sum : option (list (option float));
  weather_codes : option (list (option Z)) (* the array [weather_code] *) }.

Record weather : Type := mkweather {
  w_current : option current;
  w_daily : option daily }.

(** [{}] *)
Definition no_current : current := mkcurrent None None None None None.
Definition no_daily : daily := mkdaily None None None None None.

(** Open-Meteo geocoding: [{"results": [ {...}, ... ]}]. *)
Record geocoding : Type := mkgeocoding { results : option (list dict) }.

End Payload.

(** The world outside: today's date and the three upstream services.  A
    service answers a request after the requests made so far; [None] is
    any exception of the guarded block (transport error, non-2xx status,
    body that is not JSON). *)
Record world : Type := mkworld {
  date_today : date;
  weather_api : list request -> request -> option Payload.weather;
  geocoding_api : list request -> request -> option Payload.geocoding;
  nominatim_api : list request -> request -> option (list dict) }.

(** A computation that may raise and that records the requests it makes. *)
Definition M (A : Type) : Type := list request -> outcome A * list request.

Definition ret {A} (a : A) : M A := fun log => (Return a, log).

Definition bind {A B} (c : M A) (k : A -> M B) : M B :=
  fun log =>
    match c log with
    | (Return a, log') => k a log'
    | (Raise e, log') => (Raise e, log')
    end.

Definition lift {A} (c : outcome A) : M A := fun log => (c, log).

Declare Scope M_scope.
Delimit Scope M_scope with M.
Notation "x <- c ;; k" := (bind c (fun x => k))
  (at level 100, c at next level, right associativity) : M_scope.

(** [try: r = await client.get(url, params=params); r.raise_for_status();
    data = r.json()  except Exception: ...]: the document, or [None] when the
    guarded block raised. *)
Definition http_get {B} (api : list request -> request -> option B)
    (u : string) (p : dict) (h : list (string * string)) : M (option B) :=
  fun log => (Return (api log (mkreq u p h)), log ++ [mkreq u p h]).

(** [xs or []] *)
Definition or_nil {A} (xs : option (list A)) : list A :=
  match xs with
  | Some l => l
  | None => []
  end.

(* ================================================================== *)
(** * weather.py: the fetchers                                         *)
(* ================================================================== *)

(** The dict built for one day ([DailyRecord] of the specification). *)
Module DayRow.
Record t : Type := mk {
  date : string;
  tmax_c : option float;
  tmax_f : option float;
  tmin_c : option float;
  tmin_f : option float;
  precip_mm : option float;
  precip_in : option float;
  weather_code : option Z;
  weather_desc : string }.
End DayRow.

(** The dict [get_current_weather] returns. *)
Module Current.
Record t : Type := mk {
  temperature_c : option float;
  temperature_f : option float;
  apparent_c : option float;
  apparent_f : option float;
  wind_speed : option float;
  precipitation : option float;
  weather_code : option Z;
  weather_desc : string }.
End Current.

(** [xs[i] if i < len(xs) else None] *)
Definition get_or_none {A} (xs : list (option A)) (i : nat)
    : outcome (option A) :=
  if (i <? length xs)%nat then py_getitem xs i else Return None.

(** The body of the [for i in range(...)] loop, the same in
    [get_forecast_5d] and [_daily_rows_from_open_meteo]. *)
Definition daily_row (times : list string) (tmax tmin precip : list (option float))
    (codes : list (option Z)) (i : nat) : outcome DayRow.t :=
  (code <~ get_or_none codes i ;;
   let desc := match code with
               | Some _ => code_get WEATHER_CODE_DESC code ("Code " ++ str_opt_int code)
               | None => "—"
               end in
   tmax_c <~ get_or_none tmax i ;;
   tmin_c <~ get_or_none tmin i ;;
   prec_mm <~ get_or_none precip i ;;
   d <~ py_getitem times i ;;
   Return (DayRow.mk d tmax_c (_c_to_f tmax_c) tmin_c (_c_to_f tmin_c)
                  prec_mm (_mm_to_in prec_mm) code desc))%outcome.

(** [for i in idx: out.append(body(i))], returning [out]. *)
Fixpoint rows_loop (body : nat -> outcome DayRow.t) (idx : list nat)
    (out : list DayRow.t) : outcome (list DayRow.t) :=
  match idx with
  | [] => Return out
  | i :: rest => (r <~ body i ;; rows_loop body rest (out ++ [r]))%outcome
  end.

(** [range(n)] *)
Definition range (n : nat) : list nat := seq 0 n.

(** The part of [get_forecast_5d] after the guarded request. *)
Definition forecast_rows (data : Payload.weather) : outcome (list DayRow.t) :=
  let daily := match Payload.w_daily data with
               | Some d => d
               | None => Payload.no_daily
               end in
  let times := or_nil (Payload.time daily) in
  let tmax := or_nil (Payload.temperature_2m_max daily) in
  let tmin := or_nil (Payload.temperature_2m_min daily) in
  let precip := or_nil (Payload.precipitation_sum daily) in
  let codes := or_nil (Payload.weather_codes daily) in
  rows_loop (daily_row times tmax tmin precip codes)
            (range (Nat.min 5 (length times))) [].

(** The part of [_daily_rows_from_open_meteo] after the guarded request. *)
Definition range_rows (data : Payload.weather) : outcome (list DayRow.t) :=
  let daily := match Payload.w_daily data with
               | Some d => d
               | None => Payload.no_daily
               end in
  let times := or_nil (Payload.time daily) in
  let tmax := or_nil (Payload.temperature_2m_max daily) in
  let tmin := or_nil (Payload.temperature_2m_min daily) in
  let precip := or_nil (Payload.precipitation_sum daily) in
  let codes := or_nil (Payload.weather_codes daily) in
  let n := length times in
  rows_loop (daily_row times tmax tmin precip codes) (range n) [].

(** The part of [get_current_weather] after the guarded request. *)
Definition current_of (data : Payload.weather) : Current.t :=
  let cur := match Payload.w_current data with
             | Some c => c
             | None => Payload.no_current
             end in
  let code := Payload.weather_code cur in
  let desc := code_get WEATHER_CODE_DESC code ("Code " ++ str_opt_int code) in
  let temp_c := Payload.temperature_2m cur in
  let feels_c := Payload.apparent_temperature cur in
  Current.mk temp_c (_c_to_f temp_c) feels_c (_c_to_f feels_c)
             (Payload.wind_speed_10m cur) (Payload.precipitation cur) code desc.

Definition FORECAST_URL : string := "https://api.open-meteo.com/v1/forecast".
Definition ARCHIVE_URL : string := "https://archive-api.open-meteo.com/v1/era5".
Definition DAILY_FIELDS : string :=
  "temperature_2m_max,temperature_2m_min,precipitation_sum,weather_code".

Section Fetchers.

Variable w : world.

Definition get_current_weather (lat lon : float) : M (option Current.t) :=
  (data <- http_get (weather_api w) FORECAST_URL
     [ ("latitude", JFloat lat);
       ("longitude", JFloat lon);
       ("current", JStr "temperature_2m,apparent_temperature,precipitation,weather_code,wind_speed_10m");
       ("timezone", JStr "auto") ] [] ;;
   match data with
   | None => ret None
   | Some data => ret (Some (current_of data))
   end)%M.

Definition get_forecast_5d (lat lon : float) : M (option (list DayRow.t)) :=
  (data <- http_get (weather_api w) FORECAST_URL
     [ ("latitude", JFloat lat);
       ("longitude", JFloat lon);
       ("daily", JStr DAILY_FIELDS);
       ("forecast_days", JInt 5);
       ("timezone", JStr "auto") ] [] ;;
   match data with
   | None => ret None
   | Some data => out <- lift (forecast_rows data) ;; ret (Some out)
   end)%M.

Definition _daily_rows_from_open_meteo (u : string) (p : dict)
    : M (option (list DayRow.t)) :=
  (data <- http_get (weather_api w) u p [] ;;
   match data with
   | None => ret None
   | Some data => out <- lift (range_rows data) ;; ret (Some out)
   end)%M.

(** The params dict of a range request; the source writes this literal
    out at each of its four calls. *)
Definition range_params (lat lon : float) (first last : date) : dict :=
  [ ("latitude", JFloat lat);
    ("longitude", JFloat lon);
    ("start_date", JStr (isoformat first));
    ("end_date", JStr (isoformat last));
    ("daily", JStr DAILY_FIELDS);
    ("timezone", JStr "auto") ].

Definition get_daily_range (lat lon : float) (start end_ : date)
    : M (option (list DayRow.t)) :=
  let today := date_today w in
  if date_ltb end_ today then
    _daily_rows_from_open_meteo ARCHIVE_URL (range_params lat lon start end_)
  else if date_gtb start today then
    _daily_rows_from_open_meteo FORECAST_URL (range_params lat lon start end_)
  else
    (past <- _daily_rows_from_open_meteo ARCHIVE_URL
               (range_params lat lon start today) ;;
     future <- _daily_rows_from_open_meteo FORECAST_URL
                 (range_params lat lon today end_) ;;
     match past, future with
     | None, None => ret None
     | _, _ => ret (Some (or_nil past ++ or_nil future))
     end)%M.

End Fetchers.

(* ================================================================== *)
(** * validators.py                                                    *)
(* ================================================================== *)

Definition is_digit (c : ascii) : bool :=
  (48 <=? nat_of_ascii c)%nat && (nat_of_ascii c <=? 57)%nat.

Definition digit_val (c : ascii) : Z := Z.of_nat (nat_of_ascii c - 48).

Definition in_range (lo hi c : ascii) : bool :=
  (nat_of_ascii lo <=? nat_of_ascii c)%nat
  && (nat_of_ascii c <=? nat_of_ascii hi)%nat.

(** [calendar]: the days of a month, as [date(y, m, d)] checks them. *)
Definition is_leap (y : Z) : bool :=
  ((y mod 4 =? 0) && (negb (y mod 100 =? 0) || (y mod 400 =? 0)))%Z.

Definition days_in_month (y m : Z) : Z :=
  (if m =? 2 then (if is_leap y then 29 else 28)
   else if (m =? 4) || (m =? 6) || (m =? 9) || (m =? 11) then 30
   else 31)%Z.

(** [date(y, m, d)]: [None] stands for its [ValueError]. *)
Definition make_date (y m d : Z) : option date :=
  if ((1 <=? y) && (y <=? 9999) && (1 <=? m) && (m <=? 12)
      && (1 <=? d) && (d <=? days_in_month y m))%Z
  then Some (mkdate y m d)
  else None.

(** The alternatives of [%m], [(?P<m>1[0-2]|0[1-9]|[1-9])], that match a
    prefix of [s], in the order the regex tries them, each with the rest of
    the input. *)
Definition month_alts (s : string) : list (Z * string) :=
  match s with
  | String a rest =>
      (match rest with
       | String b rest' =>
           (if Ascii.eqb a "1" && in_range "0" "2" b
            then [(10 + digit_val b, rest')%Z] else [])
           ++ (if Ascii.eqb a "0" && in_range "1" "9" b
               then [(digit_val b, rest')] else [])
       | EmptyString => []
       end)
      ++ (if in_range "1" "9" a then [(digit_val a, rest)] else [])
  | EmptyString => []
  end.

(** The alternatives of [%d], [(?P<d>3[0-1]|[1-2]\d|0[1-9]|[1-9]| [1-9])]. *)
Definition day_alts (s : string) : list (Z * string) :=
  match s with
  | String a rest =>
      (match rest with
       | String b rest' =>
           (if Ascii.eqb a "3" && in_range "0" "1" b
            then [(30 + digit_val b, rest')%Z] else [])
           ++ (if in_range "1" "2" a && is_digit b
               then [(10 * digit_val a + digit_val b, rest')%Z] else [])
           ++ (if Ascii.eqb a "0" && in_range "1" "9" b
               then [(digit_val b, rest')] else [])
       | EmptyString => []
       end)
      ++ (if in_range "1" "9" a then [(digit_val a, rest)] else [])
      ++ (match rest with
          | String b rest' =>
              if Ascii.eqb a " " && in_range "1" "9" b
              then [(digit_val b, rest')] else []
          | EmptyString => []
          end)
  | EmptyString => []
  end.

(** After the year and its dash: the first month alternative that is
    followed by a dash and a day; the match is the first day alternative
    there, and unconverted data after it is a [ValueError]. *)
Fixpoint month_day (ms : list (Z * string)) : option (Z * Z) :=
  match ms with
  | [] => None
  | (m, String "-" r) :: ms' =>
      match day_alts r with
      | (d, EmptyString) :: _ => Some (m, d)
      | (_, String _ _) :: _ => None
      | [] => month_day ms'
      end
  | _ :: ms' => month_day ms'
  end.

(** [datetime.strptime(s, "%Y-%m-%d").date()] on ASCII input; [None] stands
    for its [ValueError]. *)
Definition strptime_ymd (s : string) : option date :=
  match s with
  | String y1 (String y2 (String y3 (String y4 (String "-" rest)))) =>
      if is_digit y1 && is_digit y2 && is_digit y3 && is_digit y4 then
        match month_day (month_alts rest) with
        | Some (m, d) =>
            make_date (1000 * digit_val y1 + 100 * digit_val y2
                       + 10 * digit_val y3 + digit_val y4)%Z m d
        | None => None
        end
      else None
  | _ => None
  end.

(** [d.toordinal()] *)
Definition days_before_year (y : Z) : Z :=
  ((y - 1) * 365 + (y - 1) / 4 - (y - 1) / 100 + (y - 1) / 400)%Z.

Fixpoint days_before_month_aux (y : Z) (m : nat) : Z :=
  match m with
  | O => 0
  | S k => (days_before_month_aux y k + days_in_month y (Z.of_nat (S k)))%Z
  end.

Definition days_before_month (y m : Z) : Z :=
  days_before_month_aux y (Z.to_nat (m - 1)).

Definition toordinal (d : date) : Z :=
  (days_before_year (year d) + days_before_month (year d) (month d) + day d)%Z.

Record DateRange : Type := mkDateRange { start : date; end_ : date }.

(** [not s] for an [Optional[str]]. *)
Definition str_falsy (s : option string) : bool :=
  match s with
  | None => true
  | Some s => String.eqb s ""
  end.

Definition _parse_iso (d : option string) : option date :=
  match d with
  | None => None
  | Some s => if String.eqb s "" then None else strptime_ymd s
  end.

(** The three messages of [validate_date_range]; the specification names
    them InvalidFormat, InvalidOrder and RangeTooLarge. *)
Definition InvalidFormat : exn :=
  ValueError "Dates must be in YYYY-MM-DD format.".
Definition InvalidOrder : exn :=
  ValueError "Start date must be on or before end date.".
Definition RangeTooLarge (span max_days : Z) : exn :=
  ValueError ("Date range too large (" ++ str_int span ++ " days). Max "
              ++ str_int max_days ++ " days.").

(** [(end - start).days + 1] *)
Definition span_days (first last : date) : Z :=
  (toordinal last - toordinal first + 1)%Z.

Definition validate_date_range (start_s end_s : option string) (max_days : Z)
    : outcome (option DateRange) :=
  if str_falsy start_s && str_falsy end_s then Return None
  else
    match _parse_iso start_s, _parse_iso end_s with
    | Some first, Some last =>
        if date_gtb first last then Raise InvalidOrder
        else
          let span := span_days first last in
          if (span >? max_days)%Z then Raise (RangeTooLarge span max_days)
          else Return (Some (mkDateRange first last))
    | _, _ => Raise InvalidFormat
    end.

(* ================================================================== *)
(** * float(...) and format(x, ".4f")                                  *)
(* ================================================================== *)

(** The longest prefix whose elements satisfy [p], and the rest. *)
Fixpoint span {A} (p : A -> bool) (l : list A) : list A * list A :=
  match l with
  | [] => ([], [])
  | x :: r => if p x then (x :: fst (span p r), snd (span p r)) else ([], l)
  end.

(** [int(ds)] for a run of decimal digits. *)
Definition digits_val (ds : list ascii) : Z :=
  fold_left (fun acc c => (acc * 10 + digit_val c)%Z) ds 0%Z.

(** The binary64 value nearest to [num / den] (ties to even) with the sign
    [neg], for positive [num] and [den]; beyond the largest finite value it
    is an infinity. *)
Definition round_ratio (neg : bool) (num den : Z) : float :=
  let scaled (e : Z) : Z * Z :=
    if (e <? 0)%Z then (num * 2 ^ (- e), den)%Z else (num, den * 2 ^ e)%Z in
  let e0 := Z.max (Z.log2 num - Z.log2 den - 53) (-1074) in
  let e1 := if (fst (scaled e0) / snd (scaled e0) >=? 2 ^ 53)%Z
            then (e0 + 1)%Z else e0 in
  let '(n, d) := scaled e1 in
  let q := (n / d)%Z in
  let r := (n mod d)%Z in
  let up := ((2 * r >? d) || ((2 * r =? d) && Z.odd q))%Z in
  let m := if up then (q + 1)%Z else q in
  let '(m, e) := if (m =? 2 ^ 53)%Z then (2 ^ 52, e1 + 1)%Z else (m, e1) in
  match m with
  | Zpos pm =>
      if (e >? 971)%Z then SF2Prim (S754_infinity neg)
      else SF2Prim (S754_finite neg pm e)
  | _ => SF2Prim (S754_zero neg)
  end.

(** The value of the decimal [m * 10 ^ e10], correctly rounded.  Decimals
    far outside the binary64 range are settled without the division. *)
Definition decimal_to_float (neg : bool) (m e10 : Z) : float :=
  if (m =? 0)%Z then SF2Prim (S754_zero neg)
  else
    let nd := Z.of_nat (String.length (str_int m)) in
    if (nd + e10 >? 400)%Z then SF2Prim (S754_infinity neg)
    else if (nd + e10 <? -400)%Z then SF2Prim (S754_zero neg)
    else if (e10 <? 0)%Z then round_ratio neg m (10 ^ (- e10))
    else round_ratio neg (m * 10 ^ e10) 1.

(** [Py_ISSPACE]: the whitespace [float] strips from an ASCII string. *)
Definition c_space (c : ascii) : bool :=
  let n := nat_of_ascii c in
  ((9 <=? n) && (n <=? 13) || (n =? 32))%nat.

Definition to_lower (c : ascii) : ascii :=
  let n := nat_of_ascii c in
  if ((65 <=? n) && (n <=? 90))%nat then ascii_of_nat (n + 32) else c.

(** [s] starts with [word], ignoring case: the rest of [s]. *)
Fixpoint strip_word (word s : list ascii) : option (list ascii) :=
  match word, s with
  | [], _ => Some s
  | a :: word', c :: s' =>
      if Ascii.eqb a (to_lower c) then strip_word word' s' else None
  | _ :: _, [] => None
  end.

(** [_Py_string_to_number_with_underscores]: an underscore stands between
    two digits, and is dropped. *)
Fixpoint drop_underscores (prev : ascii) (s : list ascii)
    : option (list ascii) :=
  match s with
  | [] => if Ascii.eqb prev "_" then None else Some []
  | c :: s' =>
      if Ascii.eqb c "_" then
        if is_digit prev then drop_underscores c s' else None
      else if Ascii.eqb prev "_" && negb (is_digit c) then None
      else option_map (cons c) (drop_underscores c s')
  end.

(** [_Py_parse_inf_or_nan]: what follows the sign. *)
Definition parse_inf_or_nan (neg : bool) (s : list ascii)
    : option (float * list ascii) :=
  match strip_word (list_ascii_of_string "inf") s with
  | Some r =>
      let r' := match strip_word (list_ascii_of_string "inity") r with
                | Some r' => r'
                | None => r
                end in
      Some (SF2Prim (S754_infinity neg), r')
  | None =>
      match strip_word (list_ascii_of_string "nan") s with
      | Some r => Some (SF2Prim S754_nan, r)
      | None => None
      end
  end.

(** The exponent part: [e] or [E], an optional sign and at least one digit;
    without a digit nothing of it is read. *)
Definition parse_exponent (s : list ascii) : Z * list ascii :=
  match s with
  | c :: r =>
      if Ascii.eqb (to_lower c) "e" then
        let '(eneg, r1) := match r with
                           | c' :: r1 =>
                               if Ascii.eqb c' "-" then (true, r1)
                               else if Ascii.eqb c' "+" then (false, r1)
                               else (false, r)
                           | [] => (false, r)
                           end in
        match span is_digit r1 with
        | ([], _) => (0%Z, s)
        | (ds, r2) => ((if eneg then - digits_val ds else digits_val ds)%Z, r2)
        end
      else (0%Z, s)
  | [] => (0%Z, s)
  end.

(** [PyOS_string_to_double]'s reading of a number at the start of [s]: the
    value and the unread rest; [None] when no number starts there. *)
Definition parse_double (s : list ascii) : option (float * list ascii) :=
  let '(neg, r0) := match s with
                    | c :: r0 =>
                        if Ascii.eqb c "-" then (true, r0)
                        else if Ascii.eqb c "+" then (false, r0)
                        else (false, s)
                    | [] => (false, s)
                    end in
  let '(ds1, r1) := span is_digit r0 in
  let '(ds2, r2) := match r1 with
                    | c :: r =>
                        if Ascii.eqb c "." then span is_digit r else ([], r1)
                    | [] => ([], r1)
                    end in
  match ds1 ++ ds2 with
  | [] => parse_inf_or_nan neg r0
  | ds =>
      let '(e, r3) := parse_exponent r2 in
      Some (decimal_to_float neg (digits_val ds) (e - Z.of_nat (length ds2)), r3)
  end.

(** [float(s)] for an ASCII [str]; [None] stands for its [ValueError]. *)
Definition float_of_str (s : string) : option float :=
  let cs := list_ascii_of_string s in
  match (if existsb (Ascii.eqb "_") cs then drop_underscores "000" cs
         else Some cs) with
  | None => None
  | Some cs =>
      let body := rev (snd (span c_space (rev (snd (span c_space cs))))) in
      match parse_double body with
      | Some (x, []) => Some x
      | _ => None
      end
  end.

(** [float(n)] for an [int]: correctly rounded, [OverflowError] beyond the
    finite binary64 values. *)
Definition float_of_int (z : Z) : outcome float :=
  if (z =? 0)%Z then Return 0%float
  else
    let x := round_ratio (z <? 0)%Z (Z.abs z) 1 in
    if PrimFloat.eqb (abs x) infinity then Raise OverflowError else Return x.

(** [float(v)] for a JSON value. *)
Definition py_float (v : json) : outcome float :=
  match v with
  | JNull => Raise TypeError
  | JBool b => Return (if b then 1 else 0)%float
  | JInt z => float_of_int z
  | JFloat f => Return f
  | JStr s => match float_of_str s with
              | Some x => Return x
              | None => Raise (ValueError "could not convert string to float")
              end
  | JList _ => Raise TypeError
  | JDict _ => Raise TypeError
  end.

(** [f"{x:.4f}"]: the exact value of [x] rounded to four decimals, ties to
    even. *)
Definition format_4f (x : float) : string :=
  match Prim2SF x with
  | S754_nan => "nan"
  | S754_infinity s => if s then "-inf" else "inf"
  | S754_zero s => if s then "-0.0000" else "0.0000"
  | S754_finite s m e =>
      let '(n, d) := if (e <? 0)%Z then (Zpos m * 10000, 2 ^ (- e))%Z
                     else (Zpos m * 2 ^ e * 10000, 1)%Z in
      let q := (n / d)%Z in
      let r := (n mod d)%Z in
      let up := ((2 * r >? d) || ((2 * r =? d) && Z.odd q))%Z in
      let k := if up then (q + 1)%Z else q in
      (if s then "-" else "") ++ str_int (k / 10000)
      ++ "." ++ zfill 4 (str_int (k mod 10000))
  end.

(* ================================================================== *)
(** * geo.py                                                           *)
(* ================================================================== *)

(** [\s] of a [str] pattern, on ASCII input. *)
Definition re_space (c : ascii) : bool :=
  let n := nat_of_ascii c in
  ((9 <=? n) && (n <=? 13) || (28 <=? n) && (n <=? 32))%nat.

(** The language of [-?\d+(?:\.\d+)?]. *)
Definition re_number (g : list ascii) : Prop :=
  exists sign ds frac,
    g = sign ++ ds ++ frac
    /\ (sign = [] \/ sign = ["-"%char])
    /\ ds <> [] /\ forallb is_digit ds = true
    /\ (frac = []
        \/ exists ds', frac = "."%char :: ds'
                       /\ ds' <> [] /\ forallb is_digit ds' = true).

(** [LATLON_RE], read as a language with its two groups:
    [^\s*(-?\d+(?:\.\d+)?)\s*[, ]\s*(-?\d+(?:\.\d+)?)\s*$].  (A final [$]
    after [\s*] accepts what the end of the text accepts.) *)
Definition LATLON_RE (q g1 g2 : string) : Prop :=
  exists ws0 ws1 sep ws2 ws3,
    list_ascii_of_string q
    = ws0 ++ list_ascii_of_string g1 ++ ws1 ++ sep :: ws2
          ++ list_ascii_of_string g2 ++ ws3
    /\ forallb re_space ws0 = true
    /\ re_number (list_ascii_of_string g1)
    /\ forallb re_space ws1 = true
    /\ (sep = ","%char \/ sep = " "%char)
    /\ forallb re_space ws2 = true
    /\ re_number (list_ascii_of_string g2)
    /\ forallb re_space ws3 = true.

(** [\d+(?:\.\d+)?] at the start of the input, as the regex engine reads
    it: greedy digits, then a fraction when a digit follows the point. *)
Definition scan_unsigned (s : list ascii) : option (list ascii * list ascii) :=
  match span is_digit s with
  | ([], _) => None
  | (ds, r1) =>
      match r1 with
      | c :: r =>
          if Ascii.eqb c "." then
            match span is_digit r with
            | ([], _) => Some (ds, r1)
            | (ds', r2) => Some (ds ++ c :: ds', r2)
            end
          else Some (ds, r1)
      | [] => Some (ds, r1)
      end
  end.

(** [-?\d+(?:\.\d+)?] at the start of the input. *)
Definition scan_number (s : list ascii) : option (list ascii * list ascii) :=
  match s with
  | c :: r =>
      if Ascii.eqb c "-" then
        match scan_unsigned r with
        | Some (g, r') => Some (c :: g, r')
        | None => None
        end
      else scan_unsigned s
  | [] => None
  end.

(** The second number and the trailing [\s*$]. *)
Definition scan_tail (g1 r : list ascii) : option (string * string) :=
  match scan_number r with
  | Some (g2, r') =>
      match snd (span re_space r') with
      | [] => Some (string_of_list_ascii g1, string_of_list_ascii g2)
      | _ :: _ => None
      end
  | None => None
  end.

(** [LATLON_RE.match(q)]: the two groups of the match, if there is one. *)
Definition LATLON_RE_match (q : string) : option (string * string) :=
  match scan_number (snd (span re_space (list_ascii_of_string q))) with
  | Some (g1, r1) =>
      let '(ws, r2) := span re_space r1 in
      let by_space :=
        if existsb (Ascii.eqb " ") ws then scan_tail g1 r2 else None in
      match r2 with
      | c :: r =>
          if Ascii.eqb c "," then scan_tail g1 (snd (span re_space r))
          else by_space
      | [] => by_space
      end
  | None => None
  end.

(** Return dict {name, lat, lon} if q looks like coordinates. *)
Definition _try_parse_latlon (q : string) : option dict :=
  match LATLON_RE_match q with
  | None => None
  | Some (g1, g2) =>
      match float_of_str g1 with
      | None => None
      | Some lat =>
          match float_of_str g2 with
          | None => None
          | Some lon =>
              Some [ ("name", JStr (format_4f lat ++ "," ++ format_4f lon));
                     ("lat", JFloat lat);
                     ("lon", JFloat lon) ]
          end
      end
  end.

(** [sep.join(parts)]: every part must be a [str]. *)
Fixpoint py_join (sep : string) (parts : list json) : outcome string :=
  match parts with
  | [] => Return ""
  | JStr s :: rest =>
      match rest with
      | [] => Return s
      | _ :: _ => (t <~ py_join sep rest ;; Return (s ++ sep ++ t)%string)%outcome
      end
  | _ :: _ => Raise TypeError
  end.

Definition OPEN_METEO_GEOCODING_URL : string :=
  "https://geocoding-api.open-meteo.com/v1/search".
Definition NOMINATIM_URL : string :=
  "https://nominatim.openstreetmap.org/search".

Section Geocoders.

Variable w : world.

(** Primary geocoder: Open-Meteo. *)
Definition _geocode_open_meteo (query : string) : M (option dict) :=
  (data <- http_get (geocoding_api w) OPEN_METEO_GEOCODING_URL
     [ ("name", JStr query); ("count", JInt 1);
       ("language", JStr "en"); ("format", JStr "json") ] [] ;;
   match data with
   | None => ret None
   | Some data =>
       match or_nil (Payload.results data) with
       | [] => ret None
       | top :: _ =>
           let parts := [dict_get top "name"] in
           let admin1 := dict_get top "admin1" in
           let country := dict_get top "country" in
           let parts := if truthy admin1 then parts ++ [admin1] else parts in
           let parts := if truthy country then parts ++ [country] else parts in
           name <- lift (py_join ", " (filter truthy parts)) ;;
           ret (Some [ ("name", JStr name);
                       ("lat", dict_get top "latitude");
                       ("lon", dict_get top "longitude");
                       ("country_code", dict_get top "country_code");
                       ("source", JStr "open-meteo") ])
       end
   end)%M.

(** [try: lat = float(...); lon = float(...)
    except (TypeError, ValueError): return None] *)
Definition nominatim_coords (top : dict) : outcome (option (float * float)) :=
  match (lat <~ py_float (dict_get top "lat") ;;
         lon <~ py_float (dict_get top "lon") ;;
         Return (lat, lon))%outcome with
  | Return p => Return (Some p)
  | Raise TypeError => Return None
  | Raise (ValueError _) => Return None
  | Raise e => Raise e
  end.

(** Fallback geocoder: Nominatim (OpenStreetMap). Requires a User-Agent. *)
Definition _geocode_nominatim (query : string) : M (option dict) :=
  (data <- http_get (nominatim_api w) NOMINATIM_URL
     [ ("q", JStr query); ("format", JStr "jsonv2"); ("limit", JInt 1) ]
     [ ("User-Agent", "markfox-weather-app/1.0 (learning project)") ] ;;
   match data with
   | None => ret None
   | Some [] => ret None
   | Some (top :: _) =>
       let display_name :=
         if truthy (dict_get top "display_name")
         then dict_get top "display_name" else JStr query in
       coords <- lift (nominatim_coords top) ;;
       match coords with
       | None => ret None
       | Some (lat, lon) =>
           ret (Some [ ("name", display_name);
                       ("lat", JFloat lat);
                       ("lon", JFloat lon);
                       ("country_code", JNull);
                       ("source", JStr "nominatim") ])
       end
   end)%M.

(** [if result:] for an [Optional[dict]]. *)
Definition dict_truthy (r : option dict) : bool :=
  match r with
  | Some (_ :: _) => true
  | _ => false
  end.

(** Resolve free-form text to a single lat/lon: coordinates directly, else
    Open-Meteo, then Nominatim. *)
Definition geocode_one (query : string) : M (option dict) :=
  let latlon := _try_parse_latlon query in
  if dict_truthy latlon then ret latlon
  else
    (result <- _geocode_open_meteo query ;;
     if dict_truthy result then ret result
     else
       result <- _geocode_nominatim query ;;
       if dict_truthy result then ret result
       else ret None)%M.

End Geocoders.

(* ================================================================== *)
(** * Vocabulary of the statements                                     *)
(* ================================================================== *)

(** What [xs[i] if i < len(xs) else None] denotes. *)
Definition item_or_none {A} (xs : list (option A)) (i : nat) : option A :=
  match nth_error xs i with
  | Some v => v
  | None => None
  end.

(** The arrays a fetcher reads off a document, after [or {}] and [or []]. *)
Definition daily_of (data : Payload.weather) : Payload.daily :=
  match Payload.w_daily data with
  | Some d => d
  | None => Payload.no_daily
  end.
Definition times_of (data : Payload.weather) : list string :=
  or_nil (Payload.time (daily_of data)).
Definition tmax_of (data : Payload.weather) : list (option float) :=
  or_nil (Payload.temperature_2m_max (daily_of data)).
Definition tmin_of (data : Payload.weather) : list (option float) :=
  or_nil (Payload.temperature_2m_min (daily_of data)).
Definition precip_of (data : Payload.weather) : list (option float) :=
  or_nil (Payload.precipitation_sum (daily_of data)).
Definition codes_of (data : Payload.weather) : list (option Z) :=
  or_nil (Payload.weather_codes (daily_of data)).

(** The description a daily row carries for [code]. *)
Definition daily_desc (code : option Z) : string :=
  match code with
  | Some _ => code_get WEATHER_CODE_DESC code ("Code " ++ str_opt_int code)
  | None => "—"
  end.

(** The row for day [i] of a document whose [time] entry there is [d]. *)
Definition row_of (data : Payload.weather) (i : nat) (d : string) : DayRow.t :=
  DayRow.mk d
    (item_or_none (tmax_of data) i) (_c_to_f (item_or_none (tmax_of data) i))
    (item_or_none (tmin_of data) i) (_c_to_f (item_or_none (tmin_of data) i))
    (item_or_none (precip_of data) i)
    (_mm_to_in (item_or_none (precip_of data) i))
    (item_or_none (codes_of data) i)
    (daily_desc (item_or_none (codes_of data) i)).

(** The rows for the first [n] days of a document. *)
Definition rows_upto (data : Payload.weather) (n : nat) : list DayRow.t :=
  map (fun i => row_of data i (nth i (times_of data) "")) (seq 0 n).

(** The Fahrenheit and inch fields of a row are the conversions of its
    Celsius and millimetre fields. *)
Definition converted (r : DayRow.t) : Prop :=
  DayRow.tmax_f r = _c_to_f (DayRow.tmax_c r)
  /\ DayRow.tmin_f r = _c_to_f (DayRow.tmin_c r)
  /\ DayRow.precip_in r = _mm_to_in (DayRow.precip_mm r).

(** The request of a range fetch. *)
Definition range_request (u : string) (lat lon : float) (first last : date)
    : request :=
  mkreq u (range_params lat lon first last) [].

(** The request of the 5-day fetch. *)
Definition forecast_request (lat lon : float) : request :=
  mkreq FORECAST_URL
    [ ("latitude", JFloat lat);
      ("longitude", JFloat lon);
      ("daily", JStr DAILY_FIELDS);
      ("forecast_days", JInt 5);
      ("timezone", JStr "auto") ] [].

(** The request of the current-conditions fetch. *)
Definition current_request (lat lon : float) : request :=
  mkreq FORECAST_URL
    [ ("latitude", JFloat lat);
      ("longitude", JFloat lon);
      ("current", JStr "temperature_2m,apparent_temperature,precipitation,weather_code,wind_speed_10m");
      ("timezone", JStr "auto") ] [].

(** The straddling merge: [None] when both halves are [None], else
    [(past or []) + (future or [])]. *)
Definition merge_halves (past future : option (list DayRow.t))
    : option (list DayRow.t) :=
  match past, future with
  | None, None => None
  | _, _ => Some (or_nil past ++ or_nil future)
  end.

(** A world whose weather service always answers [data]. *)
Definition constant_weather (today : date) (data : option Payload.weather)
    : world :=
  mkworld today (fun _ _ => data) (fun _ _ => None) (fun _ _ => None).

(** Dates written by their ISO text in an upstream [time] array. *)
Definition daily_with_times (ds : list date) : Payload.weather :=
  Payload.mkweather None
    (Some (Payload.mkdaily (Some (map isoformat ds)) None None None None)).

(** A world on 2025-06-15 whose archive answers 14 and 15 June and whose
    forecast answers 15 and 16 June: each exactly the days it is asked for
    when the range 14 to 16 June is split at today. *)
Definition june_world : world :=
  mkworld (mkdate 2025 6 15)
    (fun _ r =>
       if String.eqb (url r) ARCHIVE_URL
       then Some (daily_with_times [mkdate 2025 6 14; mkdate 2025 6 15])
       else Some (daily_with_times [mkdate 2025 6 15; mkdate 2025 6 16]))
    (fun _ _ => None) (fun _ _ => None).

(** The requests of the two geocoders. *)
Definition primary_request (query : string) : request :=
  mkreq OPEN_METEO_GEOCODING_URL
    [ ("name", JStr query); ("count", JInt 1);
      ("language", JStr "en"); ("format", JStr "json") ] [].

Definition fallback_request (query : string) : request :=
  mkreq NOMINATIM_URL
    [ ("q", JStr query); ("format", JStr "jsonv2"); ("limit", JInt 1) ]
    [ ("User-Agent", "markfox-weather-app/1.0 (learning project)") ].


(** A location whose [lat] and [lon] are floats. *)
Definition numeric_coords (loc : dict) : Prop :=
  exists lat lon,
    dict_get loc "lat" = JFloat lat /\ dict_get loc "lon" = JFloat lon.

(** A world whose primary geocoder answers one result that has a name and
    no coordinates. *)
Definition nameless_coords_world : world :=
  mkworld (mkdate 2025 6 15) (fun _ _ => None)
    (fun _ _ => Some (Payload.mkgeocoding (Some [[("name", JStr "Atlantis")]])))
    (fun _ _ => None).


(** The input ends here or goes on with [c]: nothing a number could
    absorb. *)
Definition number_ends (rest : list ascii) : Prop :=
  match rest with
  | [] => True
  | c :: _ => is_digit c = false /\ Ascii.eqb c "." = false
  end.

(** A character at which a maximal run of [p] stops. *)
Definition run_stops (p : ascii -> bool) (rest : list ascii) : Prop :=
  match rest with
  | [] => True
  | c :: _ => p c = false
  end.

(** What the character classes have in common, checked on every
    character. *)
Definition class_facts (c : ascii) : bool :=
  implb (is_digit c)
        (negb (re_space c) && negb (c_space c) && negb (Ascii.eqb c "-")
         && negb (Ascii.eqb c "+") && negb (Ascii.eqb c ".")
         && negb (Ascii.eqb c ",") && negb (Ascii.eqb "_" c))
  && implb (re_space c)
           (negb (is_digit c) && negb (Ascii.eqb c ".")
            && negb (Ascii.eqb c ",") && negb (Ascii.eqb c "-")).

(** A JSON member that is a string, or missing. *)
Definition opt_str (s : option string) : json :=
  match s with
  | Some s => JStr s
  | None => JNull
  end.

(** The non-empty strings among optional ones, in order. *)
Definition present_strings (l : list (option string)) : list string :=
  flat_map (fun o => match o with
                     | Some s => if String.eqb s "" then [] else [s]
                     | None => []
                     end) l.

(** [display_name or query] of the fallback geocoder. *)
Definition fallback_name (top : dict) (query : string) : json :=
  if truthy (dict_get top "display_name")
  then dict_get top "display_name" else JStr query.

(** A world whose geocoders both answer one result for Paris. *)
Definition paris_world : world :=
  mkworld (mkdate 2025 6 15) (fun _ _ => None)
    (fun _ _ =>
       Some (Payload.mkgeocoding
               (Some [[("name", JStr "Paris"); ("admin1", JStr "");
                       ("country", JStr "France");
                       ("latitude", JFloat 48.85341);
                       ("longitude", JFloat 2.3488)]])))
    (fun _ _ =>
       Some [[("display_name", JStr "Paris, Ile-de-France, France");
              ("lat", JStr "48.8534951"); ("lon", JStr "2.3483915")]]).

(** A world whose primary geocoder fails and whose fallback answers. *)
Definition fallback_only_world : world :=
  mkworld (mkdate 2025 6 15) (fun _ _ => None) (fun _ _ => None)
    (fun _ _ =>
       Some [[("lat", JStr "48.8534951"); ("lon", JStr "2.3483915")]]).

(** A date [date(y, m, d)] accepts. *)
Definition valid_date (d : date) : Prop :=
  make_date (year d) (month d) (day d) = Some d.

(** The ISO text of year [y] is four digits that read [y]. *)
Definition year_text_ok (y : Z) : bool :=
  match zfill 4 (str_int y) with
  | String a (String b (String c (String e EmptyString))) =>
      is_digit a && is_digit b && is_digit c && is_digit e
      && (1000 * digit_val a + 100 * digit_val b
          + 10 * digit_val c + digit_val e =? y)%Z
  | _ => false
  end.

(** The ISO text of month [m] and day [d] is read back as [(m, d)]. *)
Definition month_day_text_ok (md : Z * Z) : bool :=
  match month_day (month_alts (zfill 2 (str_int (fst md)) ++ "-"
                               ++ zfill 2 (str_int (snd md)))%string) with
  | Some (m', d') => ((m' =? fst md) && (d' =? snd md))%Z
  | None => false
  end.

(** The integers [start, start + 1, ...], [n] of them. *)
Fixpoint zrange (start : Z) (n : nat) : list Z :=
  match n with
  | O => []
  | S k => start :: zrange (start + 1) k
  end.

(* ================================================================== *)
(** * models.py, db.py and repositories/queries.py                     *)
(* ================================================================== *)

(** What a handler can raise: an exception of the services, the
    [KeyError] of a dict subscript, or SQLAlchemy's [DBAPIError]: its
    [IntegrityError] when a NOT NULL column is given NULL, and the error
    of a value the SQLite driver cannot bind. *)
Inductive app_exn : Type :=
| PyExn (e : exn)
| KeyError (key : string)
| DBAPIError.

Inductive result (A : Type) : Type :=
| Done (a : A)
| Failed (e : app_exn).
Arguments Done {A} a.
Arguments Failed {A} e.

(** The two tables, as their rows read back from the database.
    [created_at] is a reading of the clock.  Keys are SQLite's 64-bit
    integers. *)
Module SearchQuery.
Record t : Type := mk {
  id : Z;
  input_text : string;
  resolved_name : string;
  lat : float;
  lon : float;
  date_start : option date;
  date_end : option date;
  label : option string;
  created_at : Z }.
End SearchQuery.

Module WeatherSnapshot.
Record t : Type := mk {
  id : Z;
  query_id : Z;
  current_json : string;
  forecast_json : string;
  created_at : Z }.
End WeatherSnapshot.

(** The SQLite file: each table in rowid order. *)
Record database : Type := mkdatabase {
  searchquery : list SearchQuery.t;
  weathersnapshot : list WeatherSnapshot.t }.

(** What a process runs on besides the upstream services: the clock (its
    n-th reading), [json.dumps] on the two kinds of value stored, and the
    text SQLite makes of a real number stored in a VARCHAR column. *)
Record host : Type := mkhost {
  host_world : world;
  clock : nat -> Z;
  json_dumps_current : option Current.t -> string;
  json_dumps_rows : list DayRow.t -> string;
  sqlite_real_text : float -> string }.

(** What a session works on: the database and the clock readings so far. *)
Record store : Type := mkstore { db : database; clock_reads : nat }.

Definition Session (A : Type) : Type := store -> A * store.

Definition sret {A} (a : A) : Session A := fun s => (a, s).

Definition sbind {A B} (c : Session A) (k : A -> Session B) : Session B :=
  fun s => let '(a, s') := c s in k a s'.

Declare Scope Session_scope.
Delimit Scope Session_scope with Session.
Notation "x <- c ;; k" := (sbind c (fun x => k))
  (at level 100, c at next level, right associativity) : Session_scope.

(** [datetime.utcnow()], the default of [created_at]. *)
Definition utcnow (h : host) : Session Z :=
  fun s => (clock h (clock_reads s), mkstore (db s) (S (clock_reads s))).

(** The key SQLite gives a new row of a table with an INTEGER PRIMARY KEY:
    one more than the largest in use, 1 in an empty table. *)
Definition next_id (ids : list Z) : Z := (fold_right Z.max 0 ids + 1)%Z.

(** A Python value written to [resolved_name], a VARCHAR NOT NULL column
    that no layer above the driver converts: a string is stored as it is;
    a number is stored as its text (a bool is the integer 1 or 0, an
    integer outside 64 bits is refused with [OverflowError], NaN is
    stored as NULL); [None] is NULL, which the constraint refuses; a list
    or a dict cannot be bound. *)
Definition column_text (h : host) (v : json) : result string :=
  match v with
  | JStr s => Done s
  | JBool b => Done (if b then "1" else "0")
  | JInt n =>
      if ((- 2 ^ 63 <=? n) && (n <? 2 ^ 63))%Z then Done (str_int n)
      else Failed (PyExn OverflowError)
  | JFloat f =>
      if PrimFloat.is_nan f then Failed DBAPIError
      else Done (sqlite_real_text h f)
  | JNull => Failed DBAPIError
  | JList _ => Failed DBAPIError
  | JDict _ => Failed DBAPIError
  end.

(** [session.get(SearchQuery, qid)] *)
Definition get_query (qid : Z) : Session (option SearchQuery.t) :=
  fun s => (find (fun r => (SearchQuery.id r =? qid)%Z) (searchquery (db s)), s).

(** [lat] and [lon] are FLOAT NOT NULL columns, and SQLite stores NaN as
    NULL: the flush of a row with a NaN coordinate raises, as does that of
    a name [column_text] refuses, and nothing is written.  The clock has
    then been read once, for the row that was built. *)
Definition create_query_with_snapshot (h : host)
    (input_text : string) (resolved_name : json) (lat lon : float)
    (current : Current.t) (forecast : option (list DayRow.t))
    (date_range : option (option date * option date))
    (label : option string) : Session (result SearchQuery.t) :=
  (now_q <- utcnow h ;;
   fun s =>
     match column_text h resolved_name with
     | Failed e => (Failed e, s)
     | Done name =>
         if PrimFloat.is_nan lat || PrimFloat.is_nan lon
         then (Failed DBAPIError, s)
         else
           let q := SearchQuery.mk
                      (next_id (map SearchQuery.id (searchquery (db s))))
                      input_text name lat lon
                      (match date_range with Some p => fst p | None => None end)
                      (match date_range with Some p => snd p | None => None end)
                      label now_q in
           (now_s <- utcnow h ;;
            fun s' =>
              let snap :=
                WeatherSnapshot.mk
                  (next_id (map WeatherSnapshot.id (weathersnapshot (db s'))))
                  (SearchQuery.id q)
                  (json_dumps_current h (Some current))
                  (json_dumps_rows h (or_nil forecast))
                  now_s in
              (Done q,
               mkstore (mkdatabase (searchquery (db s') ++ [q])
                                   (weathersnapshot (db s') ++ [snap]))
                       (clock_reads s')))%Session s
     end)%Session.

(** The first row with key [qid] replaced by [row']. *)
Fixpoint replace_query (qid : Z) (row' : SearchQuery.t)
    (rows : list SearchQuery.t) : list SearchQuery.t :=
  match rows with
  | [] => []
  | r :: rest =>
      if (SearchQuery.id r =? qid)%Z then row' :: rest
      else r :: replace_query qid row' rest
  end.

(** [x if x is not None else old] *)
Definition or_keep {A} (x : option A) (old : A) : A :=
  match x with
  | Some v => v
  | None => old
  end.

(** A coordinate that is given and is NaN. *)
Definition nan_given (x : option float) : bool :=
  match x with
  | Some v => PrimFloat.is_nan v
  | None => false
  end.

(** [resolved_name] is the Python value passed: [JNull] is [None], which
    keeps the stored name.  The commit raises, and writes nothing, for a
    name [column_text] refuses and for a NaN coordinate. *)
Definition update_query_core (h : host) (query_id : Z)
    (input_text : option string) (resolved_name : json)
    (lat lon : option float)
    (date_range : option (option date * option date))
    (label : option string) : Session (result (option SearchQuery.t)) :=
  fun s =>
    match find (fun r => (SearchQuery.id r =? query_id)%Z)
               (searchquery (db s)) with
    | None => (Done None, s)
    | Some row =>
        match (match resolved_name with
               | JNull => Done (SearchQuery.resolved_name row)
               | v => column_text h v
               end) with
        | Failed e => (Failed e, s)
        | Done name =>
            if nan_given lat || nan_given lon then (Failed DBAPIError, s)
            else
              let row' :=
                SearchQuery.mk
                  (SearchQuery.id row)
                  (or_keep input_text (SearchQuery.input_text row))
                  name
                  (or_keep lat (SearchQuery.lat row))
                  (or_keep lon (SearchQuery.lon row))
                  (match date_range with
                   | Some p => fst p
                   | None => SearchQuery.date_start row
                   end)
                  (match date_range with
                   | Some p => snd p
                   | None => SearchQuery.date_end row
                   end)
                  (match label with
                   | Some l => Some l
                   | None => SearchQuery.label row
                   end)
                  (SearchQuery.created_at row) in
              (Done (Some row'),
               mkstore
                 (mkdatabase
                    (replace_query query_id row' (searchquery (db s)))
                    (weathersnapshot (db s)))
                 (clock_reads s))
        end
    end.

Definition append_snapshot (h : host) (query_id : Z)
    (current : option Current.t) (forecast : list DayRow.t)
    : Session WeatherSnapshot.t :=
  (now_s <- utcnow h ;;
   fun s =>
     let snap := WeatherSnapshot.mk
                   (next_id (map WeatherSnapshot.id (weathersnapshot (db s))))
                   query_id
                   (json_dumps_current h current)
                   (json_dumps_rows h forecast)
                   now_s in
     (snap, mkstore (mkdatabase (searchquery (db s))
                                (weathersnapshot (db s) ++ [snap]))
                    (clock_reads s)))%Session.



(* ================================================================== *)
(** * main.py: the handlers that write                                 *)
(* ================================================================== *)

(** The state a handler runs on: the requests made and the store. *)
Record app_state : Type := mkapp { st_log : list request; st_store : store }.

Definition H (A : Type) : Type := app_state -> result A * app_state.

Definition hret {A} (a : A) : H A := fun st => (Done a, st).

Definition hraise {A} (e : app_exn) : H A := fun st => (Failed e, st).

Definition hbind {A B} (c : H A) (k : A -> H B) : H B :=
  fun st =>
    match c st with
    | (Done a, st') => k a st'
    | (Failed e, st') => (Failed e, st')
    end.

Declare Scope H_scope.
Delimit Scope H_scope with H.
Notation "x <- c ;; k" := (hbind c (fun x => k))
  (at level 100, c at next level, right associativity) : H_scope.

(** [await service(...)] *)
Definition lift_M {A} (c : M A) : H A :=
  fun st =>
    match c (st_log st) with
    | (Return a, log') => (Done a, mkapp log' (st_store st))
    | (Raise e, log') => (Failed (PyExn e), mkapp log' (st_store st))
    end.

(** [with get_session() as session: repository(session, ...)] *)
Definition lift_session {A} (c : Session A) : H A :=
  fun st =>
    let '(a, s') := c (st_store st) in (Done a, mkapp (st_log st) s').

(** The same around a repository function that can raise. *)
Definition lift_db {A} (c : Session (result A)) : H A :=
  fun st =>
    let '(r, s') := c (st_store st) in (r, mkapp (st_log st) s').

Definition lift_outcome {A} (c : outcome A) : H A :=
  fun st =>
    match c with
    | Return a => (Done a, st)
    | Raise e => (Failed (PyExn e), st)
    end.

(** [d[k]] *)
Definition dict_item (d : dict) (k : string) : H json :=
  if dict_has d k then hret (dict_get d k) else hraise (KeyError k).

(** What a template is rendered with, the request apart. *)
Inductive ctx_value : Type :=
| CtxStr (s : string)
| CtxRow (row : option SearchQuery.t).

Inductive response : Type :=
| TemplateResponse (name : string) (context : list (string * ctx_value))
    (status_code : Z)
| RedirectResponse (location : string) (status_code : Z).

(** [templates.TemplateResponse("index.html", {"request": request,
    "error": message}, status_code=status)] *)
Definition index_error (message : string) (status : Z) : response :=
  TemplateResponse "index.html" [("error", CtxStr message)] status.

(** [templates.TemplateResponse("edit.html", {"request": request,
    "row": row, "error": message}, status_code=status)] after
    [row = get_query(session, id)]. *)
Definition edit_error (id : Z) (message : string) (status : Z) : H response :=
  (row <- lift_session (get_query id) ;;
   hret (TemplateResponse "edit.html"
           [("row", CtxRow row); ("error", CtxStr message)] status))%H.

(** [float(resolved["lat"]); float(resolved["lon"])] *)
Definition resolved_coords (resolved : dict) : H (float * float) :=
  (lat_v <- dict_item resolved "lat" ;;
   lat <- lift_outcome (py_float lat_v) ;;
   lon_v <- dict_item resolved "lon" ;;
   lon <- lift_outcome (py_float lon_v) ;;
   hret (lat, lon))%H.

(** Step 4 and 5 of [search]: persist, then redirect to read by id. *)
Definition search_persist (h : host) (q : string) (resolved : dict)
    (lat lon : float) (current : Current.t) (forecast : list DayRow.t)
    (dr : option DateRange) : H response :=
  (name <- dict_item resolved "name" ;;
   row <- lift_db
            (create_query_with_snapshot h
               (if String.eqb q "" then "direct-latlon/geolocation" else q)
               name lat lon current (Some forecast)
               (match dr with
                | Some dr => Some (Some (start dr), Some (end_ dr))
                | None => None
                end)
               None) ;;
   hret (RedirectResponse
           ("/result?" ++ "id=" ++ str_int (SearchQuery.id row)) 303))%H.

(** [POST /search] *)
Definition search (h : host) (q : string) (start_s end_s : option string)
    : H response :=
  match validate_date_range start_s end_s 31 with
  | Raise (ValueError msg) => hret (index_error msg 400)
  | Raise e => hraise (PyExn e)
  | Return dr =>
      (resolved <- lift_M (geocode_one (host_world h) q) ;;
       match resolved with
       | None =>
           hret (index_error
                   "Could not resolve that location. Try a city, ZIP, or 'lat,lon'."
                   400)
       | Some resolved =>
           coords <- resolved_coords resolved ;;
           let '(lat, lon) := coords in
           match dr with
           | Some r =>
               range_rows <- lift_M (get_daily_range (host_world h) lat lon
                                       (start r) (end_ r)) ;;
               match range_rows with
               | None =>
                   hret (index_error "Could not fetch date-range data." 502)
               | Some range_rows =>
                   current <- lift_M (get_current_weather (host_world h) lat lon) ;;
                   match current with
                   | None =>
                       hret (index_error
                               "Weather lookup failed. Please try again." 502)
                   | Some current =>
                       search_persist h q resolved lat lon current range_rows dr
                   end
               end
           | None =>
               current <- lift_M (get_current_weather (host_world h) lat lon) ;;
               match current with
               | None =>
                   hret (index_error
                           "Weather lookup failed. Please try again." 502)
               | Some current =>
                   forecast <- lift_M (get_forecast_5d (host_world h) lat lon) ;;
                   search_persist h q resolved lat lon current
                     (or_nil forecast) dr
               end
           end
       end)%H
  end.

(** The end of [update]: update the row, append a snapshot, redirect. *)
Definition update_persist (h : host) (id : Z) (input_text : string)
    (label : option string) (resolved : dict) (lat lon : float)
    (current : option Current.t) (forecast : list DayRow.t)
    (dr : option DateRange) : H response :=
  (name <- dict_item resolved "name" ;;
   updated <- lift_db
                (update_query_core h id (Some input_text) name
                   (Some lat) (Some lon)
                   (Some (match dr with
                          | Some dr => (Some (start dr), Some (end_ dr))
                          | None => (None, None)
                          end))
                   label) ;;
   match updated with
   | None => hret (index_error "Record not found." 404)
   | Some _ =>
       _ <- lift_session (append_snapshot h id current forecast) ;;
       hret (RedirectResponse ("/result?id=" ++ str_int id) 303)
   end)%H.

(** [POST /update] *)
Definition update (h : host) (id : Z) (input_text : string)
    (label : option string) (start_s end_s : option string) : H response :=
  match validate_date_range start_s end_s 31 with
  | Raise (ValueError msg) => edit_error id msg 400
  | Raise e => hraise (PyExn e)
  | Return dr =>
      (resolved <- lift_M (geocode_one (host_world h) input_text) ;;
       match resolved with
       | None => edit_error id "Could not resolve that location." 400
       | Some resolved =>
           coords <- resolved_coords resolved ;;
           let '(lat, lon) := coords in
           match dr with
           | Some r =>
               range_rows <- lift_M (get_daily_range (host_world h) lat lon
                                       (start r) (end_ r)) ;;
               match range_rows with
               | None => edit_error id "Could not fetch date-range data." 502
               | Some range_rows =>
                   current <- lift_M (get_current_weather (host_world h) lat lon) ;;
                   update_persist h id input_text label resolved lat lon
                     current range_rows dr
               end
           | None =>
               current <- lift_M (get_current_weather (host_world h) lat lon) ;;
               match current with
               | None => edit_error id "Weather lookup failed." 502
               | Some current =>
                   forecast <- lift_M (get_forecast_5d (host_world h) lat lon) ;;
                   update_persist h id input_text label resolved lat lon
                     (Some current) (or_nil forecast) dr
               end
           end
       end)%H
  end.



(** Vocabulary for the store. *)
Definition query_ids (d : database) : list Z :=
  map SearchQuery.id (searchquery d).

Definition snapshot_ids (d : database) : list Z :=
  map WeatherSnapshot.id (weathersnapshot d).

(** The row with key [qid], as [session.get] finds it. *)
Definition lookup_query (d : database) (qid : Z) : option SearchQuery.t :=
  find (fun r => (SearchQuery.id r =? qid)%Z) (searchquery d).

(** The snapshots of query [qid], oldest first. *)
Definition snapshots_of (d : database) (qid : Z) : list WeatherSnapshot.t :=
  filter (fun sn => (WeatherSnapshot.query_id sn =? qid)%Z) (weathersnapshot d).

(** Keys are unique in both tables and every snapshot belongs to a query
    of the table. *)
Definition db_ok (d : database) : Prop :=
  NoDup (query_ids d)
  /\ NoDup (snapshot_ids d)
  /\ Forall (fun sn => In (WeatherSnapshot.query_id sn) (query_ids d))
            (weathersnapshot d).

(** A host for examples: the clock counts its readings. *)
Definition example_host (w : world) : host :=
  mkhost w (fun n => Z.of_nat n)
    (fun c => match c with Some _ => "{...}" | None => "null" end)
    (fun rows => match rows with [] => "[]" | _ => "[...]" end)
    (fun _ => "0.0").

Definition empty_store : store := mkstore (mkdatabase [] []) 0.

(** A step of a handler that leaves the store alone. *)
Definition keeps_store {A} (c : H A) : Prop :=
  forall st, st_store (snd (c st)) = st_store st.

(** A handler whose outcome and final store are related by [Q] to the
    store it started on. *)
Definition handler_post (Q : store -> result response -> store -> Prop)
    (c : H response) : Prop :=
  forall st, Q (st_store st) (fst (c st)) (st_store (snd (c st))).

(** A location with the three entries the handlers read, whose name is
    not [None]. *)
Definition located (loc : dict) : Prop :=
  exists name lat lon rest,
    loc = ("name", name) :: ("lat", lat) :: ("lon", lon) :: rest
    /\ name <> JNull.

(** What [search] leaves behind, by outcome, once the dates were
    validated as [dr]: an error page and the store as it was; a redirect
    to the new row, with one row more in each table; or an exception and
    the database as it was. *)
Definition search_post (q : string) (dr : option DateRange)
    (s : store) (r : result response) (s' : store) : Prop :=
  match r with
  | Done (TemplateResponse name context status_code) =>
      s' = s /\ name = "index.html"
      /\ (status_code = 400 \/ status_code = 502)%Z
      /\ exists message, context = [("error", CtxStr message)]
  | Done (RedirectResponse location status_code) =>
      status_code = 303%Z
      /\ exists row snap,
           location = ("/result?id=" ++ str_int (SearchQuery.id row))%string
           /\ db s' = mkdatabase (searchquery (db s) ++ [row])
                                 (weathersnapshot (db s) ++ [snap])
           /\ SearchQuery.id row = next_id (query_ids (db s))
           /\ WeatherSnapshot.id snap = next_id (snapshot_ids (db s))
           /\ WeatherSnapshot.query_id snap = SearchQuery.id row
           /\ SearchQuery.input_text row
              = (if String.eqb q "" then "direct-latlon/geolocation" else q)
           /\ SearchQuery.label row = None
           /\ SearchQuery.date_start row = option_map start dr
           /\ SearchQuery.date_end row = option_map end_ dr
  | Failed e => db s' = db s /\ (e = DBAPIError \/ exists e', e = PyExn e')
  end.



(** A world on 2025-06-15 that knows Paris and whose weather service
    answers the requests for a date range, with the two days asked for,
    and no other. *)
Definition range_only_world : world :=
  mkworld (mkdate 2025 6 15)
    (fun _ r =>
       if dict_has (params r) "start_date"
       then Some (daily_with_times [mkdate 2025 6 1; mkdate 2025 6 2])
       else None)
    (geocoding_api paris_world) (nominatim_api paris_world).

(** A store with one query, of id 1, and its snapshot. *)
Definition one_row_store : store :=
  mkstore
    (mkdatabase
       [SearchQuery.mk 1 "Lyon" "Lyon, France" 45.75 4.85 None None None 0]
       [WeatherSnapshot.mk 1 1 "{...}" "[]" 1])
    2.

(** A world on 2025-06-15 that knows Paris and whose weather service
    answers the request for the current conditions, with an empty
    document, and no other. *)
Definition current_only_world : world :=
  mkworld (mkdate 2025 6 15)
    (fun _ r =>
       if dict_has (params r) "current"
       then Some (Payload.mkweather None None)
       else None)
    (geocoding_api paris_world) (nominatim_api paris_world).

(* ================================================================== *)
(** * The daily mapping                                                *)
(* ================================================================== *)

Lemma get_or_none_spec {A} (xs : list (option A)) (i : nat) :
  get_or_none xs i = Return (item_or_none xs i).
Proof.
  unfold get_or_none, py_getitem, item_or_none.
  destruct (i <? length xs)%nat eqn:E.
  - apply Nat.ltb_lt in E.
    destruct (nth_error xs i) eqn:N; [reflexivity|].
    apply nth_error_None in N. lia.
  - apply Nat.ltb_ge in E. apply nth_error_None in E.
    now rewrite E.
Qed.

Lemma daily_row_spec data i d :
  nth_error (times_of data) i = Some d ->
  daily_row (times_of data) (tmax_of data) (tmin_of data) (precip_of data)
            (codes_of data) i
  = Return (row_of data i d).
Proof.
  intros Hd. unfold daily_row.
  rewrite !get_or_none_spec. cbn [obind].
  unfold py_getitem. rewrite Hd. cbn [obind].
  unfold row_of, daily_desc.
  destruct (item_or_none (codes_of data) i); reflexivity.
Qed.

Lemma rows_loop_spec body f idx :
  (forall i, In i idx -> body i = Return (f i)) ->
  forall out, rows_loop body idx out = Return (out ++ map f idx).
Proof.
  induction idx as [|i idx IH]; intros Hbody out; cbn [rows_loop map].
  - now rewrite app_nil_r.
  - rewrite (Hbody i (or_introl eq_refl)). cbn [obind].
    rewrite IH by (intros j Hj; apply Hbody; now right).
    now rewrite <- app_assoc.
Qed.

Lemma rows_loop_upto data n :
  (n <= length (times_of data))%nat ->
  rows_loop (daily_row (times_of data) (tmax_of data) (tmin_of data)
                       (precip_of data) (codes_of data))
            (range n) []
  = Return (rows_upto data n).
Proof.
  intros Hn. unfold range, rows_upto.
  rewrite (rows_loop_spec _ (fun i => row_of data i (nth i (times_of data) ""))).
  - reflexivity.
  - intros i Hi. apply in_seq in Hi. apply daily_row_spec.
    apply nth_error_nth'. lia.
Qed.

Lemma forecast_rows_spec data :
  forecast_rows data
  = Return (rows_upto data (Nat.min 5 (length (times_of data)))).
Proof. apply rows_loop_upto. apply Nat.le_min_r. Qed.

Lemma range_rows_spec data :
  range_rows data = Return (rows_upto data (length (times_of data))).
Proof. apply rows_loop_upto. apply Nat.le_refl. Qed.

Lemma rows_upto_length data n : length (rows_upto data n) = n.
Proof. unfold rows_upto. now rewrite length_map, length_seq. Qed.

Lemma rows_upto_nth data n i r :
  nth_error (rows_upto data n) i = Some r ->
  (i < n)%nat /\ r = row_of data i (nth i (times_of data) "").
Proof.
  intros H. unfold rows_upto in H.
  assert (Hi : (i < n)%nat).
  { assert (Hn : nth_error
                   (map (fun i => row_of data i (nth i (times_of data) ""))
                        (seq 0 n)) i <> None) by congruence.
    apply nth_error_Some in Hn. now rewrite length_map, length_seq in Hn. }
  split; [exact Hi|].
  rewrite nth_error_map, nth_error_seq in H.
  apply Nat.ltb_lt in Hi. rewrite Hi in H. cbn in H. congruence.
Qed.

Lemma map_nth_seq {A} (l : list A) (d : A) :
  forall k, map (fun i => nth i l d) (seq k (length l - k)) = skipn k l.
Proof.
  induction l as [|a l IH]; intros k.
  - now destruct k.
  - destruct k as [|k].
    + cbn [length Nat.sub seq map nth skipn]. f_equal.
      rewrite <- seq_shift, map_map. specialize (IH 0%nat).
      rewrite Nat.sub_0_r in IH. exact IH.
    + cbn [length Nat.sub skipn]. rewrite <- seq_shift, map_map. apply IH.
Qed.

Lemma rows_upto_dates data :
  map DayRow.date (rows_upto data (length (times_of data))) = times_of data.
Proof.
  unfold rows_upto. rewrite map_map. cbn [row_of DayRow.date].
  pose proof (map_nth_seq (times_of data) "" 0) as H.
  now rewrite Nat.sub_0_r in H.
Qed.

Lemma row_of_converted data i d : converted (row_of data i d).
Proof. repeat split. Qed.

Lemma rows_upto_converted data n : Forall converted (rows_upto data n).
Proof.
  unfold rows_upto. apply Forall_forall. intros r Hr.
  apply in_map_iff in Hr. destruct Hr as [i [<- _]]. apply row_of_converted.
Qed.

Lemma item_or_none_short {A} (xs : list (option A)) i :
  (length xs <= i)%nat -> item_or_none xs i = None.
Proof.
  intros H. unfold item_or_none. apply nth_error_None in H. now rewrite H.
Qed.

(** The fetchers, in terms of the upstream answer. *)
Lemma _daily_rows_from_open_meteo_spec w u p log :
  _daily_rows_from_open_meteo w u p log
  = (Return (option_map (fun data => rows_upto data (length (times_of data)))
                        (weather_api w log (mkreq u p []))),
     log ++ [mkreq u p []]).
Proof.
  unfold _daily_rows_from_open_meteo, bind, http_get.
  destruct (weather_api w log (mkreq u p [])) as [data|]; [|reflexivity].
  unfold lift. rewrite range_rows_spec. reflexivity.
Qed.

Lemma get_forecast_5d_spec w lat lon log :
  get_forecast_5d w lat lon log
  = (Return (option_map
               (fun data => rows_upto data (Nat.min 5 (length (times_of data))))
               (weather_api w log (forecast_request lat lon))),
     log ++ [forecast_request lat lon]).
Proof.
  unfold get_forecast_5d, bind, http_get, forecast_request.
  match goal with |- context [weather_api w log ?r] =>
    destruct (weather_api w log r) as [data|]; [|reflexivity] end.
  unfold lift. rewrite forecast_rows_spec. reflexivity.
Qed.

Lemma daily_row_inv times tmax tmin precip codes i r :
  daily_row times tmax tmin precip codes i = Return r ->
  nth_error times i = Some (DayRow.date r)
  /\ DayRow.tmax_c r = item_or_none tmax i
  /\ DayRow.tmin_c r = item_or_none tmin i
  /\ DayRow.precip_mm r = item_or_none precip i
  /\ DayRow.weather_code r = item_or_none codes i
  /\ DayRow.weather_desc r = daily_desc (DayRow.weather_code r)
  /\ converted r.
Proof.
  unfold daily_row. rewrite !get_or_none_spec. cbn [obind].
  unfold py_getitem. destruct (nth_error times i) as [d|]; cbn [obind];
    [|discriminate].
  intros [= <-]. cbn. unfold daily_desc.
  destruct (item_or_none codes i); repeat split.
Qed.

(** C7: the 5-day fetch never raises; on an upstream answer it returns
    [min 5 (len times)] rows, so at most five, each dated by the [time]
    entry at its index, and a field whose array is too short for that index
    is [None] (the description then being the placeholder). *)
Theorem forecast_5d_defensive_mapping
    (w : world) (lat lon : float) (log : list request) :
  exists res,
    get_forecast_5d w lat lon log
    = (Return res, log ++ [forecast_request lat lon])
    /\ forall data,
        weather_api w log (forecast_request lat lon) = Some data ->
        exists rows,
          res = Some rows
          /\ forecast_rows data = Return rows
          /\ length rows = Nat.min 5 (length (times_of data))
          /\ (length rows <= 5)%nat
          /\ forall i r,
              nth_error rows i = Some r ->
              nth_error (times_of data) i = Some (DayRow.date r)
              /\ DayRow.tmax_c r = item_or_none (tmax_of data) i
              /\ DayRow.tmin_c r = item_or_none (tmin_of data) i
              /\ DayRow.precip_mm r = item_or_none (precip_of data) i
              /\ DayRow.weather_code r = item_or_none (codes_of data) i
              /\ ((length (tmax_of data) <= i)%nat ->
                  DayRow.tmax_c r = None /\ DayRow.tmax_f r = None)
              /\ ((length (tmin_of data) <= i)%nat ->
                  DayRow.tmin_c r = None /\ DayRow.tmin_f r = None)
              /\ ((length (precip_of data) <= i)%nat ->
                  DayRow.precip_mm r = None /\ DayRow.precip_in r = None)
              /\ ((length (codes_of data) <= i)%nat ->
                  DayRow.weather_code r = None /\ DayRow.weather_desc r = "—").
Proof.
  rewrite get_forecast_5d_spec. eexists. split; [reflexivity|].
  intros data Hdata. rewrite Hdata. cbn [option_map].
  exists (rows_upto data (Nat.min 5 (length (times_of data)))).
  split; [reflexivity|]. split; [apply forecast_rows_spec|].
  rewrite rows_upto_length. split; [reflexivity|].
  split; [apply Nat.le_min_l|].
  intros i r Hr. apply rows_upto_nth in Hr. destruct Hr as [Hi ->].
  cbn [row_of DayRow.date DayRow.tmax_c DayRow.tmax_f DayRow.tmin_c DayRow.tmin_f
       DayRow.precip_mm DayRow.precip_in DayRow.weather_code DayRow.weather_desc].
  split.
  { apply nth_error_nth'.
    pose proof (Nat.le_min_r 5 (length (times_of data))). lia. }
  repeat (split; [reflexivity|]).
  repeat split; rewrite item_or_none_short by assumption; reflexivity.
Qed.

(** C8: the converters return [None] exactly on [None] and otherwise
    [c * 9 / 5 + 32] and [mm / 25.4]; every row either daily mapping
    produces carries in [tmax_f], [tmin_f] and [precip_in] the conversions
    of its own [tmax_c], [tmin_c] and [precip_mm]. *)
Theorem daily_mapping_conversions_coherent :
  (forall c, _c_to_f c = None <-> c = None)
  /\ (forall c, _c_to_f (Some c) = Some (c * 9 / 5 + 32)%float)
  /\ (forall mm, _mm_to_in mm = None <-> mm = None)
  /\ (forall mm, _mm_to_in (Some mm) = Some (mm / 25.4)%float)
  /\ (forall times tmax tmin precip codes i r,
        daily_row times tmax tmin precip codes i = Return r -> converted r)
  /\ (forall data, exists rows,
        forecast_rows data = Return rows /\ Forall converted rows)
  /\ (forall data, exists rows,
        range_rows data = Return rows /\ Forall converted rows).
Proof.
  split; [intros [c|]; cbn; split; congruence|].
  split; [reflexivity|].
  split; [intros [c|]; cbn; split; congruence|].
  split; [reflexivity|].
  split; [intros * H; now apply daily_row_inv in H|].
  split; intros data; eexists; split;
    [apply forecast_rows_spec | apply rows_upto_converted
    | apply range_rows_spec | apply rows_upto_converted].
Qed.

(** C9: a range sub-fetch never raises and never truncates: on an upstream
    answer it returns one row per entry of the [time] array, in order and
    dated by that entry, whatever dates the request asked for. *)
Theorem range_rows_pass_through
    (w : world) (u : string) (p : dict) (log : list request) :
  exists res,
    _daily_rows_from_open_meteo w u p log
    = (Return res, log ++ [mkreq u p []])
    /\ forall data,
        weather_api w log (mkreq u p []) = Some data ->
        exists rows,
          res = Some rows
          /\ range_rows data = Return rows
          /\ length rows = length (times_of data)
          /\ map DayRow.date rows = times_of data.
Proof.
  rewrite _daily_rows_from_open_meteo_spec. eexists. split; [reflexivity|].
  intros data Hdata. rewrite Hdata. cbn [option_map].
  eexists. split; [reflexivity|]. split; [apply range_rows_spec|].
  split; [apply rows_upto_length | apply rows_upto_dates].
Qed.

(** C6: what each path makes of a weather code.  A code of the table gets
    its description and any other integer the label "Code <n>" on all three
    paths.  For a missing code the two daily mappings give the em-dash
    placeholder, but the current-conditions fetch gives "Code None". *)
Theorem weather_desc_by_path :
  (forall times tmax tmin precip codes i r,
      daily_row times tmax tmin precip codes i = Return r ->
      match DayRow.weather_code r with
      | Some k =>
          match code_lookup WEATHER_CODE_DESC k with
          | Some v => DayRow.weather_desc r = v
          | None => DayRow.weather_desc r = ("Code " ++ str_int k)%string
          end
      | None => DayRow.weather_desc r = "—"
      end)
  /\ (forall data,
        match Current.weather_code (current_of data) with
        | Some k =>
            match code_lookup WEATHER_CODE_DESC k with
            | Some v => Current.weather_desc (current_of data) = v
            | None => Current.weather_desc (current_of data)
                      = ("Code " ++ str_int k)%string
            end
        | None => Current.weather_desc (current_of data) = "Code None"
        end)
  /\ (forall today lat lon,
        fst (get_current_weather
               (constant_weather today (Some (Payload.mkweather None None)))
               lat lon [])
        = Return (Some (Current.mk None None None None None None None
                                   "Code None")))
  /\ "Code None" <> "—".
Proof.
  split.
  { intros * H. apply daily_row_inv in H.
    destruct H as (_ & _ & _ & _ & _ & Hdesc & _). rewrite Hdesc.
    unfold daily_desc, code_get, str_opt_int.
    destruct (DayRow.weather_code r) as [k|]; [|reflexivity].
    destruct (code_lookup WEATHER_CODE_DESC k); reflexivity. }
  split.
  { intros data. unfold current_of.
    cbn [Current.weather_code Current.weather_desc].
    unfold code_get, str_opt_int.
    destruct (Payload.weather_code _) as [k|]; [|reflexivity].
    destruct (code_lookup WEATHER_CODE_DESC k); reflexivity. }
  split; [reflexivity | discriminate].
Qed.

(* ================================================================== *)
(** * The order of dates                                               *)
(* ================================================================== *)

Lemma date_ltb_true a b :
  date_ltb a b = true
  <-> (year a < year b
       \/ (year a = year b
           /\ (month a < month b \/ (month a = month b /\ day a < day b))))%Z.
Proof.
  unfold date_ltb.
  rewrite !orb_true_iff, !andb_true_iff, !orb_true_iff, !andb_true_iff,
    !Z.ltb_lt, !Z.eqb_eq.
  tauto.
Qed.

Lemma date_ltb_false a b :
  date_ltb a b = false
  <-> ~ (year a < year b
         \/ (year a = year b
             /\ (month a < month b \/ (month a = month b /\ day a < day b))))%Z.
Proof. rewrite <- date_ltb_true. symmetry. apply not_true_iff_false. Qed.

Ltac date_order :=
  unfold date_lt, date_le, date_gtb in *;
  repeat match goal with
         | H : date_ltb _ _ = true |- _ => apply date_ltb_true in H
         | H : date_ltb _ _ = false |- _ => apply date_ltb_false in H
         | |- date_ltb _ _ = true => apply date_ltb_true
         | |- date_ltb _ _ = false => apply date_ltb_false
         end;
  try lia.

Lemma date_lt_trans a b c : date_lt a b -> date_lt b c -> date_lt a c.
Proof. intros H1 H2. date_order. Qed.

Lemma date_lt_irrefl a : ~ date_lt a a.
Proof. intros H. date_order. Qed.

Lemma date_lt_le a b : date_lt a b -> date_le a b.
Proof. intros H. date_order. Qed.

Lemma date_le_refl a : date_le a a.
Proof. date_order. Qed.

Lemma date_le_lt_trans a b c : date_le a b -> date_lt b c -> date_lt a c.
Proof. intros H1 H2. date_order. Qed.

Lemma date_lt_le_trans a b c : date_lt a b -> date_le b c -> date_lt a c.
Proof. intros H1 H2. date_order. Qed.

Lemma date_le_antisym a b : date_le a b -> date_le b a -> a = b.
Proof.
  intros H1 H2. destruct a as [ya ma da], b as [yb mb db].
  date_order. cbn in *.
  assert (ya = yb) by lia. assert (ma = mb) by lia. assert (da = db) by lia.
  congruence.
Qed.

Lemma date_le_or_lt a b : date_le a b \/ date_lt b a.
Proof.
  unfold date_le, date_lt. destruct (date_ltb b a); [now right | now left].
Qed.

(* ================================================================== *)
(** * The date-range fetch                                             *)
(* ================================================================== *)

Lemma get_daily_range_past w lat lon s e log :
  date_lt e (date_today w) ->
  get_daily_range w lat lon s e log
  = _daily_rows_from_open_meteo w ARCHIVE_URL (range_params lat lon s e) log.
Proof. intros H. unfold get_daily_range. now rewrite H. Qed.

Lemma get_daily_range_future w lat lon s e log :
  date_le (date_today w) e -> date_lt (date_today w) s ->
  get_daily_range w lat lon s e log
  = _daily_rows_from_open_meteo w FORECAST_URL (range_params lat lon s e) log.
Proof.
  intros H1 H2. unfold get_daily_range, date_gtb. now rewrite H1, H2.
Qed.

Lemma get_daily_range_straddling w lat lon s e log past future log1 log2 :
  date_le s (date_today w) -> date_le (date_today w) e ->
  _daily_rows_from_open_meteo w ARCHIVE_URL
    (range_params lat lon s (date_today w)) log = (Return past, log1) ->
  _daily_rows_from_open_meteo w FORECAST_URL
    (range_params lat lon (date_today w) e) log1 = (Return future, log2) ->
  get_daily_range w lat lon s e log = (Return (merge_halves past future), log2).
Proof.
  intros H1 H2 Hp Hf. unfold get_daily_range, date_gtb.
  rewrite H1, H2. unfold bind. rewrite Hp, Hf.
  destruct past, future; reflexivity.
Qed.

Lemma sub_fetch_returns w u p log :
  exists res,
    _daily_rows_from_open_meteo w u p log = (Return res, log ++ [mkreq u p []]).
Proof. rewrite _daily_rows_from_open_meteo_spec. now eexists. Qed.

(** C1: the dispatch of [get_daily_range] against today [T].  With
    [end < T] it is the one archive fetch for [start, end]; with [start > T]
    the one forecast fetch for [start, end]; otherwise [start <= T <= end]
    and it makes the archive fetch for [start, T], then the forecast fetch
    for [T, end], and returns the archive rows followed by the forecast
    rows.  Each fetch makes exactly one request, whose [start_date] and
    [end_date] are the ISO texts of its bounds. *)
Theorem get_daily_range_dispatch
    (w : world) (lat lon : float) (s e : date) (log : list request) :
  let T := date_today w in
  (date_lt e T ->
   get_daily_range w lat lon s e log
   = _daily_rows_from_open_meteo w ARCHIVE_URL (range_params lat lon s e) log
   /\ snd (get_daily_range w lat lon s e log)
      = log ++ [range_request ARCHIVE_URL lat lon s e])
  /\ (date_le T e -> date_lt T s ->
      get_daily_range w lat lon s e log
      = _daily_rows_from_open_meteo w FORECAST_URL (range_params lat lon s e) log
      /\ snd (get_daily_range w lat lon s e log)
         = log ++ [range_request FORECAST_URL lat lon s e])
  /\ (date_le T e -> date_le s T ->
      exists past future,
        _daily_rows_from_open_meteo w ARCHIVE_URL (range_params lat lon s T) log
        = (Return past, log ++ [range_request ARCHIVE_URL lat lon s T])
        /\ _daily_rows_from_open_meteo w FORECAST_URL (range_params lat lon T e)
             (log ++ [range_request ARCHIVE_URL lat lon s T])
           = (Return future,
              log ++ [range_request ARCHIVE_URL lat lon s T;
                      range_request FORECAST_URL lat lon T e])
        /\ get_daily_range w lat lon s e log
           = (Return (merge_halves past future),
              log ++ [range_request ARCHIVE_URL lat lon s T;
                      range_request FORECAST_URL lat lon T e])
        /\ forall p f, past = Some p -> future = Some f ->
                       merge_halves past future = Some (p ++ f))
  /\ (date_lt e T \/ (date_le T e /\ date_lt T s)
      \/ (date_le T e /\ date_le s T))
  /\ (forall u a b,
        url (range_request u lat lon a b) = u
        /\ dict_get (params (range_request u lat lon a b)) "start_date"
           = JStr (isoformat a)
        /\ dict_get (params (range_request u lat lon a b)) "end_date"
           = JStr (isoformat b)).
Proof.
  intros T. split; [|split; [|split; [|split]]].
  - intros H. rewrite (get_daily_range_past _ _ _ _ _ _ H).
    split; [reflexivity|].
    now rewrite _daily_rows_from_open_meteo_spec.
  - intros H1 H2. rewrite (get_daily_range_future _ _ _ _ _ _ H1 H2).
    split; [reflexivity|].
    now rewrite _daily_rows_from_open_meteo_spec.
  - intros H1 H2.
    destruct (sub_fetch_returns w ARCHIVE_URL (range_params lat lon s T) log)
      as [past Hp].
    destruct (sub_fetch_returns w FORECAST_URL (range_params lat lon T e)
                (log ++ [range_request ARCHIVE_URL lat lon s T]))
      as [future Hf].
    rewrite <- app_assoc in Hf. cbn [app] in Hf.
    exists past, future. split; [exact Hp|]. split; [exact Hf|].
    split; [now apply get_daily_range_straddling with (log1 := log ++ [range_request ARCHIVE_URL lat lon s T])|].
    intros p f -> ->. reflexivity.
  - destruct (date_le_or_lt T e) as [H1|H1]; [|now left].
    destruct (date_le_or_lt s T) as [H2|H2]; right; [right | left]; now split.
  - intros u a b. repeat split.
Qed.

(** C2: the failure policy of [get_daily_range].  For a range that is
    wholly past or wholly future the result is that of its single fetch,
    [None] included.  For a straddling range the result is [None] exactly
    when both fetches returned [None]; when one of them did, the result is
    the other one's rows. *)
Theorem get_daily_range_failure_policy
    (w : world) (lat lon : float) (s e : date) (log : list request) :
  let T := date_today w in
  (date_lt e T ->
   forall res log',
     _daily_rows_from_open_meteo w ARCHIVE_URL (range_params lat lon s e) log
     = (Return res, log') ->
     fst (get_daily_range w lat lon s e log) = Return res)
  /\ (date_le T e -> date_lt T s ->
      forall res log',
        _daily_rows_from_open_meteo w FORECAST_URL (range_params lat lon s e) log
        = (Return res, log') ->
        fst (get_daily_range w lat lon s e log) = Return res)
  /\ (date_le T e -> date_le s T ->
      forall past future log1 log2,
        _daily_rows_from_open_meteo w ARCHIVE_URL (range_params lat lon s T) log
        = (Return past, log1) ->
        _daily_rows_from_open_meteo w FORECAST_URL (range_params lat lon T e) log1
        = (Return future, log2) ->
        exists res,
          fst (get_daily_range w lat lon s e log) = Return res
          /\ (res = None <-> past = None /\ future = None)
          /\ (past = None -> forall f, future = Some f -> res = Some f)
          /\ (future = None -> forall p, past = Some p -> res = Some p)
          /\ (forall p f, past = Some p -> future = Some f ->
                          res = Some (p ++ f))).
Proof.
  intros T. split; [|split].
  - intros H res log' Hres.
    now rewrite (get_daily_range_past _ _ _ _ _ _ H), Hres.
  - intros H1 H2 res log' Hres.
    now rewrite (get_daily_range_future _ _ _ _ _ _ H1 H2), Hres.
  - intros H1 H2 past future log1 log2 Hp Hf.
    exists (merge_halves past future).
    rewrite (get_daily_range_straddling _ _ _ _ _ _ _ _ _ _ H2 H1 Hp Hf).
    split; [reflexivity|]. split.
    { destruct past, future; cbn;
        (split; [intros H; try discriminate; now split
                | intros [Hp' Hf']; try discriminate; reflexivity]). }
    split; [intros -> f ->; reflexivity|].
    split; [intros -> p ->; cbn; now rewrite app_nil_r|].
    intros p f -> ->. reflexivity.
Qed.

Lemma get_daily_range_dispatch_witness :
  exists past future,
    _daily_rows_from_open_meteo june_world ARCHIVE_URL
      (range_params 0 0 (mkdate 2025 6 14) (mkdate 2025 6 15)) []
    = (Return past,
       [] ++ [range_request ARCHIVE_URL 0 0 (mkdate 2025 6 14) (mkdate 2025 6 15)])
    /\ _daily_rows_from_open_meteo june_world FORECAST_URL
         (range_params 0 0 (mkdate 2025 6 15) (mkdate 2025 6 16))
         ([] ++ [range_request ARCHIVE_URL 0 0 (mkdate 2025 6 14) (mkdate 2025 6 15)])
       = (Return future,
          [] ++ [range_request ARCHIVE_URL 0 0 (mkdate 2025 6 14) (mkdate 2025 6 15);
                 range_request FORECAST_URL 0 0 (mkdate 2025 6 15) (mkdate 2025 6 16)])
    /\ get_daily_range june_world 0 0 (mkdate 2025 6 14) (mkdate 2025 6 16) []
       = (Return (merge_halves past future),
          [] ++ [range_request ARCHIVE_URL 0 0 (mkdate 2025 6 14) (mkdate 2025 6 15);
                 range_request FORECAST_URL 0 0 (mkdate 2025 6 15) (mkdate 2025 6 16)])
    /\ forall p f, past = Some p -> future = Some f ->
                   merge_halves past future = Some (p ++ f).
Proof.
  apply (proj1 (proj2 (proj2
           (get_daily_range_dispatch june_world 0 0
              (mkdate 2025 6 14) (mkdate 2025 6 16) []))));
    reflexivity.
Defined.

Lemma get_daily_range_failure_policy_witness :
  exists res,
    fst (get_daily_range
           (constant_weather (mkdate 2025 6 15) None) 0 0
           (mkdate 2025 6 14) (mkdate 2025 6 16) []) = Return res
    /\ (res = None <-> @None (list DayRow.t) = None /\ @None (list DayRow.t) = None)
    /\ (@None (list DayRow.t) = None -> forall f, None = Some f -> res = Some f)
    /\ (@None (list DayRow.t) = None -> forall p, None = Some p -> res = Some p)
    /\ (forall p f, None = Some p -> None = Some f -> res = Some (p ++ f)).
Proof.
  eapply (proj2 (proj2
            (get_daily_range_failure_policy
               (constant_weather (mkdate 2025 6 15) None) 0 0
               (mkdate 2025 6 14) (mkdate 2025 6 16) []))); reflexivity.
Defined.

(* ================================================================== *)
(** * The boundary day of a straddling range                           *)
(* ================================================================== *)

Lemma sorted_ends_with l T :
  StronglySorted date_lt l -> Forall (fun d => date_le d T) l -> In T l ->
  exists l1, l = l1 ++ [T].
Proof.
  induction l as [|a l IH]; intros Hs Hle Hin; [contradiction|].
  apply StronglySorted_inv in Hs. destruct Hs as [Hs Ha].
  apply Forall_cons_iff in Hle. destruct Hle as [HaT Hle].
  destruct l as [|b l].
  - destruct Hin as [->|[]]. now exists [].
  - destruct Hin as [->|Hin].
    + exfalso. apply Forall_inv in Ha. apply Forall_inv in Hle.
      apply (date_lt_irrefl T). now apply date_lt_le_trans with b.
    + destruct (IH Hs Hle Hin) as [l1 ->]. now exists (a :: l1).
Qed.

Lemma sorted_starts_with l T :
  StronglySorted date_lt l -> Forall (fun d => date_le T d) l -> In T l ->
  exists l2, l = T :: l2.
Proof.
  destruct l as [|a l]; intros Hs Hle Hin; [contradiction|].
  destruct Hin as [->|Hin]; [now exists l|].
  exfalso. apply StronglySorted_inv in Hs. destruct Hs as [_ Ha].
  rewrite Forall_forall in Ha. apply Forall_inv in Hle.
  apply (date_lt_irrefl T). apply date_le_lt_trans with a; auto.
Qed.

Lemma sorted_glue l1 x l2 :
  StronglySorted date_lt (l1 ++ [x]) -> StronglySorted date_lt (x :: l2) ->
  StronglySorted date_lt (l1 ++ x :: l2).
Proof.
  intros H1 H2. induction l1 as [|a l1 IH]; [exact H2|].
  cbn in H1 |- *. apply StronglySorted_inv in H1. destruct H1 as [H1 Ha].
  constructor; [now apply IH|].
  apply Forall_app in Ha. destruct Ha as [Ha Hx]. apply Forall_inv in Hx.
  apply Forall_app. split; [exact Ha|]. constructor; [exact Hx|].
  apply StronglySorted_inv in H2. destruct H2 as [_ H2].
  eapply Forall_impl; [|exact H2]. intros b Hb.
  now apply date_lt_trans with x.
Qed.

Lemma sorted_weaken l :
  StronglySorted date_lt l -> StronglySorted date_le l.
Proof.
  induction 1 as [|a l Hs IH Ha]; constructor; [exact IH|].
  eapply Forall_impl; [|exact Ha]. intros b. apply date_lt_le.
Qed.

Lemma sorted_double l1 x l2 :
  StronglySorted date_lt (l1 ++ x :: l2) ->
  StronglySorted date_le (l1 ++ x :: x :: l2).
Proof.
  induction l1 as [|a l1 IH]; cbn; intros H.
  - constructor; [now apply sorted_weaken|].
    constructor; [apply date_le_refl|].
    apply StronglySorted_inv in H. destruct H as [_ H].
    eapply Forall_impl; [|exact H]. intros b. apply date_lt_le.
  - apply StronglySorted_inv in H. destruct H as [H Ha].
    constructor; [now apply IH|].
    apply Forall_app in Ha. destruct Ha as [Ha Hx].
    apply Forall_app. split.
    + eapply Forall_impl; [|exact Ha]. intros b. apply date_lt_le.
    + constructor; [apply date_lt_le; now apply Forall_inv in Hx|].
      eapply Forall_impl; [|exact Hx]. intros b. apply date_lt_le.
Qed.

Lemma doubled_not_nodup {A} (a b : list A) (x : A) :
  ~ NoDup (a ++ x :: x :: b).
Proof.
  intros H. apply NoDup_remove_2 in H. apply H. apply in_elt.
Qed.

(** C3, as the code has it: for a range that straddles today [T], when the
    archive answers dates in strictly ascending order, none after [T] and
    [T] among them, and the forecast answers dates in strictly ascending
    order, none before [T] and [T] among them, the series returned is the
    strictly ascending run of those dates with the entry of [T] doubled:
    the archive's rows end with [T] and the forecast's rows start with it.
    The series is in non-decreasing date order and is not free of
    duplicates. *)
Theorem straddling_series_doubles_today
    (w : world) (lat lon : float) (s e : date) (log : list request)
    (pa fu : Payload.weather) (ds1 ds2 : list date) :
  date_le s (date_today w) ->
  date_le (date_today w) e ->
  weather_api w log (range_request ARCHIVE_URL lat lon s (date_today w))
  = Some pa ->
  weather_api w (log ++ [range_request ARCHIVE_URL lat lon s (date_today w)])
    (range_request FORECAST_URL lat lon (date_today w) e) = Some fu ->
  times_of pa = map isoformat ds1 ->
  times_of fu = map isoformat ds2 ->
  StronglySorted date_lt ds1 ->
  Forall (fun d => date_le d (date_today w)) ds1 ->
  In (date_today w) ds1 ->
  StronglySorted date_lt ds2 ->
  Forall (fun d => date_le (date_today w) d) ds2 ->
  In (date_today w) ds2 ->
  exists rows l1 l2,
    fst (get_daily_range w lat lon s e log) = Return (Some rows)
    /\ ds1 = l1 ++ [date_today w]
    /\ ds2 = date_today w :: l2
    /\ map DayRow.date rows
       = map isoformat (l1 ++ date_today w :: date_today w :: l2)
    /\ StronglySorted date_lt (l1 ++ date_today w :: l2)
    /\ StronglySorted date_le (l1 ++ date_today w :: date_today w :: l2)
    /\ ~ NoDup (map DayRow.date rows).
Proof.
  intros Hs He Hpa Hfu Ht1 Ht2 Hs1 Hb1 Hi1 Hs2 Hb2 Hi2.
  destruct (sorted_ends_with _ _ Hs1 Hb1 Hi1) as [l1 E1].
  destruct (sorted_starts_with _ _ Hs2 Hb2 Hi2) as [l2 E2].
  exists (rows_upto pa (length (times_of pa))
          ++ rows_upto fu (length (times_of fu))), l1, l2.
  assert (Hdates :
            map DayRow.date (rows_upto pa (length (times_of pa))
                          ++ rows_upto fu (length (times_of fu)))
            = map isoformat (l1 ++ date_today w :: date_today w :: l2)).
  { rewrite map_app, !rows_upto_dates, Ht1, Ht2, E1, E2, <- map_app,
      <- app_assoc. reflexivity. }
  split.
  { pose proof (_daily_rows_from_open_meteo_spec w ARCHIVE_URL
                  (range_params lat lon s (date_today w)) log) as Hp.
    pose proof (_daily_rows_from_open_meteo_spec w FORECAST_URL
                  (range_params lat lon (date_today w) e)
                  (log ++ [range_request ARCHIVE_URL lat lon s (date_today w)]))
      as Hf.
    unfold range_request in Hpa, Hfu, Hf. rewrite Hpa in Hp. rewrite Hfu in Hf.
    cbn [option_map] in Hp, Hf.
    now rewrite (get_daily_range_straddling _ _ _ _ _ _ _ _ _ _ Hs He Hp Hf). }
  split; [exact E1|]. split; [exact E2|]. split; [exact Hdates|].
  assert (Hglue : StronglySorted date_lt (l1 ++ date_today w :: l2)).
  { apply sorted_glue; congruence. }
  split; [exact Hglue|]. split; [now apply sorted_double|].
  rewrite Hdates, map_app. cbn [map]. apply doubled_not_nodup.
Qed.

Lemma straddling_series_doubles_today_witness :
  exists rows l1 l2,
    fst (get_daily_range june_world 0 0 (mkdate 2025 6 14) (mkdate 2025 6 16) [])
    = Return (Some rows)
    /\ [mkdate 2025 6 14; mkdate 2025 6 15] = l1 ++ [date_today june_world]
    /\ [mkdate 2025 6 15; mkdate 2025 6 16] = date_today june_world :: l2
    /\ map DayRow.date rows
       = map isoformat
           (l1 ++ date_today june_world :: date_today june_world :: l2)
    /\ StronglySorted date_lt (l1 ++ date_today june_world :: l2)
    /\ StronglySorted date_le
         (l1 ++ date_today june_world :: date_today june_world :: l2)
    /\ ~ NoDup (map DayRow.date rows).
Proof.
  apply (straddling_series_doubles_today june_world 0 0
           (mkdate 2025 6 14) (mkdate 2025 6 16) []
           (daily_with_times [mkdate 2025 6 14; mkdate 2025 6 15])
           (daily_with_times [mkdate 2025 6 15; mkdate 2025 6 16])
           [mkdate 2025 6 14; mkdate 2025 6 15]
           [mkdate 2025 6 15; mkdate 2025 6 16]);
    try reflexivity;
    try (repeat constructor; reflexivity);
    try (cbn; auto).
Defined.

(** C3, as stated, fails: on 2025-06-15 the range 14 to 16 June, with an
    archive and a forecast that each answer exactly the days asked of them
    in ascending order, comes back with 15 June twice. *)
Lemma straddling_series_has_duplicate :
  fst (get_daily_range june_world 0 0 (mkdate 2025 6 14) (mkdate 2025 6 16) [])
  = Return (Some (rows_upto
                    (daily_with_times [mkdate 2025 6 14; mkdate 2025 6 15]) 2
                  ++ rows_upto
                       (daily_with_times [mkdate 2025 6 15; mkdate 2025 6 16]) 2))
  /\ map DayRow.date
       (rows_upto (daily_with_times [mkdate 2025 6 14; mkdate 2025 6 15]) 2
        ++ rows_upto (daily_with_times [mkdate 2025 6 15; mkdate 2025 6 16]) 2)
     = ["2025-06-14"; "2025-06-15"; "2025-06-15"; "2025-06-16"]
  /\ ~ NoDup
       (map DayRow.date
          (rows_upto (daily_with_times [mkdate 2025 6 14; mkdate 2025 6 15]) 2
           ++ rows_upto
                (daily_with_times [mkdate 2025 6 15; mkdate 2025 6 16]) 2)).
Proof.
  split; [reflexivity|]. split; [reflexivity|].
  intros H. apply (doubled_not_nodup ["2025-06-14"] ["2025-06-16"] "2025-06-15").
  exact H.
Qed.

(* ================================================================== *)
(** * The date-range validator                                         *)
(* ================================================================== *)

Lemma _parse_iso_some s d : _parse_iso s = Some d -> str_falsy s = false.
Proof.
  destruct s as [s|]; cbn; [|discriminate].
  destruct (String.eqb s ""); [discriminate | reflexivity].
Qed.

(** C4: [validate_date_range] returns [None] exactly when both texts are
    empty or absent.  Otherwise a text that does not parse raises the
    format error; parsed dates with [start > end] raise the order error;
    an inclusive span above [max_days] raises the size error, whose message
    carries the span and the limit; and in the remaining case the range of
    the two parsed dates is returned, so that a returned range has
    [start <= end] and a span of at most [max_days]. *)
Theorem validate_date_range_policy
    (start_s end_s : option string) (max_days : Z) :
  (validate_date_range start_s end_s max_days = Return None
   <-> str_falsy start_s = true /\ str_falsy end_s = true)
  /\ (str_falsy start_s && str_falsy end_s = false ->
      _parse_iso start_s = None \/ _parse_iso end_s = None ->
      validate_date_range start_s end_s max_days = Raise InvalidFormat)
  /\ (forall first last,
        _parse_iso start_s = Some first -> _parse_iso end_s = Some last ->
        (date_lt last first ->
         validate_date_range start_s end_s max_days = Raise InvalidOrder)
        /\ (date_le first last -> (span_days first last > max_days)%Z ->
            validate_date_range start_s end_s max_days
            = Raise (RangeTooLarge (span_days first last) max_days))
        /\ (date_le first last -> (span_days first last <= max_days)%Z ->
            validate_date_range start_s end_s max_days
            = Return (Some (mkDateRange first last))))
  /\ (forall r,
        validate_date_range start_s end_s max_days = Return (Some r) ->
        _parse_iso start_s = Some (start r)
        /\ _parse_iso end_s = Some (end_ r)
        /\ date_le (start r) (end_ r)
        /\ (span_days (start r) (end_ r) <= max_days)%Z)
  /\ (forall span,
        RangeTooLarge span max_days
        = ValueError ("Date range too large (" ++ str_int span
                      ++ " days). Max " ++ str_int max_days ++ " days.")).
Proof.
  unfold validate_date_range.
  split; [|split; [|split; [|split]]].
  - rewrite <- andb_true_iff.
    destruct (str_falsy start_s && str_falsy end_s); [tauto|].
    split; [|discriminate].
    destruct (_parse_iso start_s), (_parse_iso end_s); try discriminate.
    destruct (date_gtb d d0); [discriminate|].
    destruct (span_days d d0 >? max_days)%Z; discriminate.
  - intros -> [-> | ->]; [reflexivity|].
    destruct (_parse_iso start_s); reflexivity.
  - intros first last Hf Hl.
    pose proof (_parse_iso_some _ _ Hf) as Hs.
    rewrite Hf, Hl, Hs. cbn [andb]. unfold date_gtb.
    split; [intros ->; reflexivity|].
    split; intros ->; rewrite Z.gtb_ltb.
    + intros H. apply Z.gt_lt, Z.ltb_lt in H. now rewrite H.
    + intros H. apply Z.ltb_ge in H. now rewrite H.
  - intros r.
    destruct (str_falsy start_s && str_falsy end_s); [discriminate|].
    destruct (_parse_iso start_s) as [first|]; [|discriminate].
    destruct (_parse_iso end_s) as [last|]; [|discriminate].
    unfold date_gtb. destruct (date_ltb last first) eqn:Ho; [discriminate|].
    rewrite Z.gtb_ltb.
    destruct (max_days <? span_days first last)%Z eqn:Hspan; [discriminate|].
    intros [= <-]. cbn [start end_]. apply Z.ltb_ge in Hspan.
    repeat split; assumption.
  - reflexivity.
Qed.

Lemma validate_date_range_policy_witness :
  validate_date_range (Some "2025-01-01") (Some "2025-02-05") 31
  = Raise (RangeTooLarge
             (span_days (mkdate 2025 1 1) (mkdate 2025 2 5)) 31).
Proof.
  apply (proj1 (proj2 (proj1 (proj2 (proj2
           (validate_date_range_policy
              (Some "2025-01-01") (Some "2025-02-05") 31)))
           (mkdate 2025 1 1) (mkdate 2025 2 5) eq_refl eq_refl)));
    [reflexivity | vm_compute; reflexivity].
Defined.

(** The cases of section 8 of the specification. *)
Example validate_no_range : validate_date_range None None 31 = Return None.
Proof. reflexivity. Qed.

Example validate_reversed :
  validate_date_range (Some "2025-01-10") (Some "2025-01-05") 31
  = Raise InvalidOrder.
Proof. reflexivity. Qed.

Example validate_36_days :
  validate_date_range (Some "2025-01-01") (Some "2025-02-05") 31
  = Raise (ValueError "Date range too large (36 days). Max 31 days.").
Proof. reflexivity. Qed.

Example validate_ten_days :
  validate_date_range (Some "2025-01-01") (Some "2025-01-10") 31
  = Return (Some (mkDateRange (mkdate 2025 1 1) (mkdate 2025 1 10))).
Proof. reflexivity. Qed.

(* ================================================================== *)
(** * The geocoders                                                    *)
(* ================================================================== *)

Lemma bind_lift {A B} (c : outcome A) (k : A -> M B) log :
  bind (lift c) k log
  = match c with
    | Return a => k a log
    | Raise e => (Raise e, log)
    end.
Proof. unfold bind, lift. now destruct c. Qed.





Lemma nominatim_coords_some top p :
  nominatim_coords top = Return (Some p) ->
  py_float (dict_get top "lat") = Return (fst p)
  /\ py_float (dict_get top "lon") = Return (snd p).
Proof.
  unfold nominatim_coords.
  destruct (py_float (dict_get top "lat")) as [x|e]; cbn [obind].
  - destruct (py_float (dict_get top "lon")) as [y|e]; cbn [obind].
    + intros [= <-]. now split.
    + destruct e; discriminate.
  - destruct e; discriminate.
Qed.

Lemma _geocode_open_meteo_inv w query log loc log' :
  _geocode_open_meteo w query log = (Return (Some loc), log') ->
  exists data top rest,
    geocoding_api w log (primary_request query) = Some data
    /\ or_nil (Payload.results data) = top :: rest
    /\ log' = log ++ [primary_request query]
    /\ dict_get loc "lat" = dict_get top "latitude"
    /\ dict_get loc "lon" = dict_get top "longitude"
    /\ dict_get loc "source" = JStr "open-meteo".
Proof.
  unfold _geocode_open_meteo, bind at 1, http_get. fold (primary_request query).
  destruct (geocoding_api w log (primary_request query)) as [data|] eqn:Hd;
    [|discriminate].
  destruct (or_nil (Payload.results data)) as [|top rest] eqn:Hr;
    [discriminate|].
  rewrite bind_lift.
  destruct (py_join _ _) as [name|e]; [|discriminate].
  unfold ret. intros [= <- <-].
  exists data, top, rest. repeat split; assumption.
Qed.


Lemma _geocode_nominatim_inv w query log loc log' :
  _geocode_nominatim w query log = (Return (Some loc), log') ->
  numeric_coords loc /\ dict_get loc "source" = JStr "nominatim".
Proof.
  unfold _geocode_nominatim, bind at 1, http_get.
  fold (fallback_request query).
  destruct (nominatim_api w log (fallback_request query)) as [[|top rest]|];
    try discriminate.
  rewrite bind_lift.
  destruct (nominatim_coords top) as [[[lat lon]|]|e]; try discriminate.
  unfold ret. intros [= <- <-].
  split; [now exists lat, lon | reflexivity].
Qed.

Lemma _try_parse_latlon_inv q loc :
  _try_parse_latlon q = Some loc ->
  exists g1 g2 lat lon,
    LATLON_RE_match q = Some (g1, g2)
    /\ float_of_str g1 = Some lat /\ float_of_str g2 = Some lon
    /\ loc = [ ("name", JStr (format_4f lat ++ "," ++ format_4f lon));
               ("lat", JFloat lat); ("lon", JFloat lon) ].
Proof.
  unfold _try_parse_latlon.
  destruct (LATLON_RE_match q) as [[g1 g2]|]; [|discriminate].
  destruct (float_of_str g1) as [lat|] eqn:H1; [|discriminate].
  destruct (float_of_str g2) as [lon|] eqn:H2; [|discriminate].
  intros [= <-]. exists g1, g2, lat, lon. repeat split; assumption.
Qed.



(* ================================================================== *)
(** * Coordinate text                                                  *)
(* ================================================================== *)

Lemma class_facts_all c : class_facts c = true.
Proof. destruct c as [[] [] [] [] [] [] [] []]; reflexivity. Qed.

Lemma digit_facts c :
  is_digit c = true ->
  re_space c = false /\ c_space c = false /\ Ascii.eqb c "-" = false
  /\ Ascii.eqb c "+" = false /\ Ascii.eqb c "." = false
  /\ Ascii.eqb c "," = false /\ Ascii.eqb "_" c = false.
Proof.
  intros H. pose proof (class_facts_all c) as F. unfold class_facts in F.
  rewrite H in F. cbn [implb] in F.
  apply andb_true_iff in F. destruct F as [F _].
  repeat (apply andb_true_iff in F; destruct F as [F ?]).
  repeat split; now apply negb_true_iff.
Qed.

Lemma space_facts c :
  re_space c = true ->
  is_digit c = false /\ Ascii.eqb c "." = false
  /\ Ascii.eqb c "," = false /\ Ascii.eqb c "-" = false.
Proof.
  intros H. pose proof (class_facts_all c) as F. unfold class_facts in F.
  rewrite H in F. apply andb_true_iff in F. destruct F as [_ F].
  cbn [implb] in F.
  repeat (apply andb_true_iff in F; destruct F as [F ?]).
  repeat split; now apply negb_true_iff.
Qed.

Lemma span_app (p : ascii -> bool) a rest :
  forallb p a = true -> run_stops p rest -> span p (a ++ rest) = (a, rest).
Proof.
  induction a as [|c a IH]; cbn [app forallb span]; intros Ha Hr.
  - destruct rest as [|c r]; [reflexivity|]. cbn in Hr |- *. now rewrite Hr.
  - apply andb_true_iff in Ha. destruct Ha as [Hc Ha].
    rewrite Hc, (IH Ha Hr). reflexivity.
Qed.

Lemma span_all (p : ascii -> bool) a :
  forallb p a = true -> span p a = (a, []).
Proof.
  intros H. rewrite <- (app_nil_r a) at 1. now apply span_app.
Qed.

Lemma span_none (p : ascii -> bool) c r :
  p c = false -> span p (c :: r) = ([], c :: r).
Proof. intros H. cbn. now rewrite H. Qed.

Lemma digits_head ds :
  ds <> [] -> forallb is_digit ds = true ->
  exists d ds0, ds = d :: ds0 /\ is_digit d = true.
Proof.
  destruct ds as [|d ds0]; [contradiction|]. intros _ H.
  apply andb_true_iff in H. now exists d, ds0.
Qed.

Lemma digits_last ds :
  ds <> [] -> forallb is_digit ds = true ->
  exists ds0 d, ds = ds0 ++ [d] /\ is_digit d = true.
Proof.
  intros Hne H. destruct (exists_last Hne) as [ds0 [d ->]].
  rewrite forallb_app in H. apply andb_true_iff in H. destruct H as [_ H].
  cbn in H. rewrite andb_true_r in H. now exists ds0, d.
Qed.

Lemma scan_unsigned_complete ds frac rest :
  ds <> [] -> forallb is_digit ds = true ->
  (frac = []
   \/ exists ds', frac = "."%char :: ds'
                  /\ ds' <> [] /\ forallb is_digit ds' = true) ->
  number_ends rest ->
  scan_unsigned (ds ++ frac ++ rest) = Some (ds ++ frac, rest).
Proof.
  intros Hne Hds Hfrac Hrest. unfold scan_unsigned.
  destruct (digits_head ds Hne Hds) as (d & ds0 & -> & Hd).
  rewrite span_app; [| exact Hds |].
  2:{ destruct Hfrac as [-> | (ds' & -> & _)]; [|reflexivity].
      destruct rest as [|c r]; [exact I | apply Hrest]. }
  destruct Hfrac as [-> | (ds' & -> & Hne' & Hds')].
  - rewrite app_nil_r. cbn [app].
    destruct rest as [|c r]; [reflexivity|].
    destruct Hrest as [_ Hdot]. now rewrite Hdot.
  - cbn [app]. rewrite Ascii.eqb_refl.
    rewrite span_app; [| exact Hds' |].
    2:{ destruct rest as [|c r]; [exact I | apply Hrest]. }
    destruct ds' as [|d' ds1]; [contradiction | reflexivity].
Qed.

Lemma scan_number_complete g rest :
  re_number g -> number_ends rest -> scan_number (g ++ rest) = Some (g, rest).
Proof.
  intros (sign & ds & frac & -> & Hsign & Hne & Hds & Hfrac) Hrest.
  destruct (digits_head ds Hne Hds) as (d & ds0 & E & Hd).
  destruct Hsign as [-> | ->].
  - cbn [app]. rewrite <- app_assoc.
    pose proof (scan_unsigned_complete ds frac rest Hne Hds Hfrac Hrest) as H.
    rewrite E in H |- *. cbn [app] in H |- *. unfold scan_number.
    destruct (digit_facts d Hd) as (_ & _ & Hm & _). now rewrite Hm.
  - cbn [app]. rewrite <- app_assoc. unfold scan_number.
    rewrite Ascii.eqb_refl.
    now rewrite (scan_unsigned_complete ds frac rest Hne Hds Hfrac Hrest).
Qed.

(** A number starts with a dash or a digit and ends with a digit. *)
Lemma re_number_head g :
  re_number g ->
  exists c g', g = c :: g' /\ re_space c = false /\ c_space c = false
               /\ Ascii.eqb c "," = false.
Proof.
  intros (sign & ds & frac & -> & Hsign & Hne & Hds & _).
  destruct (digits_head ds Hne Hds) as (d & ds0 & -> & Hd).
  destruct Hsign as [-> | ->]; cbn [app].
  - exists d, (ds0 ++ frac). destruct (digit_facts d Hd) as (? & ? & _ & _ & _ & ? & _).
    repeat split; assumption.
  - exists "-"%char, ((d :: ds0) ++ frac). repeat split.
Qed.

Lemma re_number_last g :
  re_number g ->
  exists g' c, g = g' ++ [c] /\ c_space c = false.
Proof.
  intros (sign & ds & frac & -> & _ & Hne & Hds & Hfrac).
  destruct Hfrac as [-> | (ds' & -> & Hne' & Hds')].
  - destruct (digits_last ds Hne Hds) as (ds0 & d & -> & Hd).
    exists (sign ++ ds0), d. rewrite app_nil_r, app_assoc.
    split; [reflexivity | apply (digit_facts d Hd)].
  - destruct (digits_last ds' Hne' Hds') as (ds0 & d & -> & Hd).
    exists (sign ++ ds ++ "."%char :: ds0), d.
    split; [| apply (digit_facts d Hd)].
    rewrite <- !app_assoc. reflexivity.
Qed.

Lemma re_number_no_underscore g :
  re_number g -> existsb (Ascii.eqb "_") g = false.
Proof.
  intros (sign & ds & frac & -> & Hsign & _ & Hds & Hfrac).
  assert (Hall : forall l, forallb is_digit l = true ->
                           existsb (Ascii.eqb "_") l = false).
  { induction l as [|c l IH]; [reflexivity|]. cbn [forallb existsb]. intros H.
    apply andb_true_iff in H. destruct H as [Hc Hl].
    destruct (digit_facts c Hc) as (_ & _ & _ & _ & _ & _ & ->). now apply IH. }
  rewrite !existsb_app, (Hall ds Hds).
  destruct Hsign as [-> | ->], Hfrac as [-> | (ds' & -> & _ & Hds')];
    cbn [existsb]; rewrite ?(Hall ds' Hds'); reflexivity.
Qed.

Lemma spaces_no_number_char ws rest :
  forallb re_space ws = true ->
  (rest = [] \/ exists c r, rest = c :: r /\ is_digit c = false
                            /\ Ascii.eqb c "." = false) ->
  number_ends (ws ++ rest).
Proof.
  destruct ws as [|c ws]; cbn [app forallb].
  - intros _ [-> | (c & r & -> & H)]; [exact I | exact H].
  - intros H _. apply andb_true_iff in H. destruct H as [Hc _].
    destruct (space_facts c Hc) as (? & ? & _). now split.
Qed.

Lemma scan_tail_complete g1 g2 ws3 :
  re_number g2 -> forallb re_space ws3 = true ->
  scan_tail g1 (g2 ++ ws3)
  = Some (string_of_list_ascii g1, string_of_list_ascii g2).
Proof.
  intros Hg Hws. unfold scan_tail.
  rewrite scan_number_complete; [| exact Hg |].
  2:{ rewrite <- (app_nil_r ws3). apply spaces_no_number_char; auto. }
  now rewrite span_all.
Qed.

(** The scanner finds every match of the pattern, with its groups. *)
Lemma LATLON_RE_match_complete q g1 g2 :
  LATLON_RE q g1 g2 -> LATLON_RE_match q = Some (g1, g2).
Proof.
  intros (ws0 & ws1 & sep & ws2 & ws3 & Hq & H0 & Hg1 & H1 & Hsep & H2 & Hg2 & H3).
  unfold LATLON_RE_match. rewrite Hq.
  destruct (re_number_head _ Hg1) as (c1 & g1' & E1 & Hc1 & _).
  destruct (re_number_head _ Hg2) as (c2 & g2' & E2 & Hc2 & _ & Hcomma2).
  rewrite span_app; [| exact H0 | rewrite E1; exact Hc1].
  cbn [snd].
  rewrite scan_number_complete; [| exact Hg1 |].
  2:{ apply spaces_no_number_char; [exact H1|]. right.
      exists sep, (ws2 ++ list_ascii_of_string g2 ++ ws3).
      split; [reflexivity|]. destruct Hsep as [-> | ->]; now split. }
  assert (Htail : scan_tail (list_ascii_of_string g1)
                    (list_ascii_of_string g2 ++ ws3) = Some (g1, g2)).
  { rewrite scan_tail_complete by assumption.
    now rewrite !string_of_list_ascii_of_string. }
  destruct Hsep as [-> | ->].
  - rewrite span_app; [| exact H1 | reflexivity].
    rewrite Ascii.eqb_refl.
    rewrite span_app; [| exact H2 | rewrite E2; exact Hc2].
    exact Htail.
  - replace (ws1 ++ " "%char :: ws2 ++ list_ascii_of_string g2 ++ ws3)
      with ((ws1 ++ " "%char :: ws2) ++ list_ascii_of_string g2 ++ ws3)
      by (rewrite <- app_assoc; reflexivity).
    rewrite span_app; [| | rewrite E2; exact Hc2].
    2:{ rewrite forallb_app, H1. cbn. now rewrite H2. }
    rewrite existsb_app. cbn [existsb]. rewrite Ascii.eqb_refl, orb_true_r.
    rewrite E2 in Htail |- *. cbn [app] in Htail |- *.
    now rewrite Hcomma2.
Qed.

Lemma parse_double_number g :
  re_number g -> exists x, parse_double g = Some (x, []).
Proof.
  intros (sign & ds & frac & -> & Hsign & Hne & Hds & Hfrac).
  destruct ds as [|d ds0]; [contradiction|].
  assert (Hd : is_digit d = true)
    by (cbn in Hds; now apply andb_true_iff in Hds).
  destruct (digit_facts d Hd) as (_ & _ & Hm & Hp & _).
  assert (Hstop : run_stops is_digit frac).
  { destruct Hfrac as [-> | (ds' & -> & _)]; [exact I | reflexivity]. }
  assert (Htail :
            forall neg,
              exists x,
                (let '(ds1, r1) := span is_digit ((d :: ds0) ++ frac) in
                 let '(ds2, r2) :=
                   match r1 with
                   | c :: r =>
                       if Ascii.eqb c "." then span is_digit r else ([], r1)
                   | [] => ([], r1)
                   end in
                 match ds1 ++ ds2 with
                 | [] => parse_inf_or_nan neg ((d :: ds0) ++ frac)
                 | ds =>
                     let '(e, r3) := parse_exponent r2 in
                     Some (decimal_to_float neg (digits_val ds)
                             (e - Z.of_nat (length ds2)), r3)
                 end) = Some (x, [])).
  { intros neg. rewrite (span_app is_digit _ _ Hds Hstop).
    destruct Hfrac as [-> | (ds' & -> & _ & Hds')].
    - cbn [app parse_exponent]. now eexists.
    - rewrite Ascii.eqb_refl, (span_all is_digit ds' Hds').
      cbn [app parse_exponent]. now eexists. }
  destruct Hsign as [-> | ->]; unfold parse_double; cbn [app].
  - rewrite Hm, Hp. apply (Htail false).
  - rewrite Ascii.eqb_refl. apply (Htail true).
Qed.

(** [float] accepts every text the pattern's groups can hold. *)
Lemma float_of_str_number g :
  re_number (list_ascii_of_string g) -> exists x, float_of_str g = Some x.
Proof.
  intros Hg. unfold float_of_str.
  rewrite (re_number_no_underscore _ Hg).
  destruct (re_number_head _ Hg) as (c & g' & E & _ & Hc & _).
  destruct (re_number_last _ Hg) as (g'' & c' & E' & Hc').
  assert (Hstrip :
            rev (snd (span c_space
                        (rev (snd (span c_space (list_ascii_of_string g))))))
            = list_ascii_of_string g).
  { rewrite E at 1. rewrite (span_none c_space c g' Hc). cbn [snd].
    rewrite <- E. rewrite E' at 1. rewrite rev_app_distr. cbn [rev app].
    rewrite (span_none c_space c' (rev g'') Hc'). cbn [snd].
    change (c' :: rev g'') with (rev [c'] ++ rev g'').
    rewrite <- rev_app_distr, rev_involutive. now rewrite <- E'. }
  rewrite Hstrip.
  destruct (parse_double_number _ Hg) as [x ->]. now exists x.
Qed.

(** Conversely, what the scanner returns is a match of the pattern. *)
Lemma span_spec (p : ascii -> bool) l :
  l = fst (span p l) ++ snd (span p l)
  /\ forallb p (fst (span p l)) = true
  /\ run_stops p (snd (span p l)).
Proof.
  induction l as [|c l (IH1 & IH2 & IH3)]; [now repeat split|].
  cbn [span]. destruct (p c) eqn:Hc; cbn [fst snd app forallb run_stops].
  - rewrite Hc, IH2. repeat split; [now f_equal | exact IH3].
  - now repeat split.
Qed.

Lemma scan_unsigned_sound s g r :
  scan_unsigned s = Some (g, r) ->
  s = g ++ r
  /\ exists ds frac,
      g = ds ++ frac /\ ds <> [] /\ forallb is_digit ds = true
      /\ (frac = []
          \/ exists ds', frac = "."%char :: ds'
                         /\ ds' <> [] /\ forallb is_digit ds' = true).
Proof.
  unfold scan_unsigned.
  destruct (span_spec is_digit s) as (Es & Hds & _).
  destruct (span is_digit s) as [ds r1]. cbn [fst snd] in Es, Hds.
  destruct ds as [|d ds0]; [discriminate|].
  assert (Hplain : s = (d :: ds0) ++ r1
                   /\ exists ds frac,
                       d :: ds0 = ds ++ frac /\ ds <> []
                       /\ forallb is_digit ds = true
                       /\ (frac = []
                           \/ exists ds', frac = "."%char :: ds'
                                          /\ ds' <> []
                                          /\ forallb is_digit ds' = true)).
  { split; [exact Es|]. exists (d :: ds0), [].
    rewrite app_nil_r. repeat split; [discriminate | exact Hds | now left]. }
  destruct r1 as [|c r1']; [now intros [= <- <-]|].
  destruct (Ascii.eqb c ".") eqn:Hc; [|now intros [= <- <-]].
  apply Ascii.eqb_eq in Hc. subst c.
  destruct (span_spec is_digit r1') as (Er & Hds' & _).
  destruct (span is_digit r1') as [ds' r2]. cbn [fst snd] in Er, Hds'.
  destruct ds' as [|d' ds1]; [now intros [= <- <-]|].
  intros [= <- <-]. split.
  - rewrite Es, Er. cbn [app]. rewrite <- app_assoc. reflexivity.
  - exists (d :: ds0), ("."%char :: d' :: ds1).
    repeat split; [discriminate | exact Hds |]. right.
    exists (d' :: ds1). repeat split; [discriminate | exact Hds'].
Qed.

Lemma scan_number_sound s g r :
  scan_number s = Some (g, r) -> s = g ++ r /\ re_number g.
Proof.
  unfold scan_number. destruct s as [|c s']; [discriminate|].
  destruct (Ascii.eqb c "-") eqn:Hc.
  - apply Ascii.eqb_eq in Hc. subst c.
    destruct (scan_unsigned s') as [[g' r']|] eqn:Hu; [|discriminate].
    intros [= <- <-]. apply scan_unsigned_sound in Hu.
    destruct Hu as (-> & ds & frac & -> & Hne & Hds & Hfrac).
    split; [reflexivity|].
    exists ["-"%char], ds, frac. repeat split; auto.
  - intros Hu. apply scan_unsigned_sound in Hu.
    destruct Hu as (-> & ds & frac & -> & Hne & Hds & Hfrac).
    split; [reflexivity|].
    exists [], ds, frac. repeat split; auto.
Qed.

Lemma scan_tail_sound g1 r a b :
  scan_tail g1 r = Some (a, b) ->
  a = string_of_list_ascii g1
  /\ exists g2 ws3,
      r = g2 ++ ws3 /\ b = string_of_list_ascii g2
      /\ re_number g2 /\ forallb re_space ws3 = true.
Proof.
  unfold scan_tail.
  destruct (scan_number r) as [[g2 r']|] eqn:Hn; [|discriminate].
  destruct (span_spec re_space r') as (Er & Hws & _).
  destruct (span re_space r') as [ws3 rest]. cbn [fst snd] in *.
  destruct rest; [|discriminate]. intros [= <- <-].
  apply scan_number_sound in Hn. destruct Hn as (-> & Hg2).
  split; [reflexivity|]. exists g2, ws3.
  rewrite app_nil_r in Er. subst r'. now repeat split.
Qed.

Lemma spaces_split ws :
  forallb re_space ws = true -> existsb (Ascii.eqb " ") ws = true ->
  exists ws1 ws2,
    ws = ws1 ++ " "%char :: ws2
    /\ forallb re_space ws1 = true /\ forallb re_space ws2 = true.
Proof.
  intros Hws Hex. apply existsb_exists in Hex. destruct Hex as (x & Hin & Hx).
  apply Ascii.eqb_eq in Hx. subst x.
  apply in_split in Hin. destruct Hin as (ws1 & ws2 & ->).
  exists ws1, ws2. split; [reflexivity|].
  rewrite forallb_app in Hws. apply andb_true_iff in Hws.
  destruct Hws as [H1 H2]. cbn in H2. now split.
Qed.

Lemma LATLON_RE_match_sound q g1 g2 :
  LATLON_RE_match q = Some (g1, g2) -> LATLON_RE q g1 g2.
Proof.
  unfold LATLON_RE_match.
  destruct (span_spec re_space (list_ascii_of_string q)) as (E0 & H0 & _).
  destruct (span re_space (list_ascii_of_string q)) as [ws0 r0].
  cbn [fst snd] in *.
  destruct (scan_number r0) as [[n1 r1]|] eqn:Hn1; [|discriminate].
  apply scan_number_sound in Hn1. destruct Hn1 as (-> & Hg1).
  destruct (span_spec re_space r1) as (E1 & H1 & _).
  destruct (span re_space r1) as [ws r2]. cbn [fst snd] in *.
  assert (Hspace :
            (if existsb (Ascii.eqb " ") ws then scan_tail n1 r2 else None)
            = Some (g1, g2) -> LATLON_RE q g1 g2).
  { destruct (existsb (Ascii.eqb " ") ws) eqn:Hex; [|discriminate].
    intros Ht. apply scan_tail_sound in Ht.
    destruct Ht as (-> & n2 & ws3 & -> & -> & Hg2 & H3).
    destruct (spaces_split ws H1 Hex) as (ws1 & ws2 & -> & Hw1 & Hw2).
    exists ws0, ws1, " "%char, ws2, ws3.
    rewrite !list_ascii_of_string_of_list_ascii.
    split; [|now repeat split; auto].
    rewrite E0, E1, <- !app_assoc. reflexivity. }
  destruct r2 as [|c r]; [exact Hspace|].
  destruct (Ascii.eqb c ",") eqn:Hc; [|exact Hspace].
  apply Ascii.eqb_eq in Hc. subst c. clear Hspace.
  destruct (span_spec re_space r) as (E2 & H2 & _).
  destruct (span re_space r) as [ws2 r3]. cbn [fst snd] in *.
  intros Ht. apply scan_tail_sound in Ht.
  destruct Ht as (-> & n2 & ws3 & -> & -> & Hg2 & H3).
  exists ws0, ws, ","%char, ws2, ws3.
  rewrite !list_ascii_of_string_of_list_ascii.
  split; [|now repeat split; auto].
  rewrite E0, E1, E2. reflexivity.
Qed.

Lemma LATLON_RE_match_iff q g1 g2 :
  LATLON_RE_match q = Some (g1, g2) <-> LATLON_RE q g1 g2.
Proof.
  split; [apply LATLON_RE_match_sound | apply LATLON_RE_match_complete].
Qed.

(** C5, as the code has it: a text that matches the coordinate pattern is
    resolved without any request.  The location has the floats of the two
    groups as [lat] and [lon] and their four-decimal renderings, joined by
    a comma, as [name]; it has these three entries and no [source]. *)
Theorem coordinates_resolve_directly
    (w : world) (q g1 g2 : string) (log : list request) :
  LATLON_RE q g1 g2 ->
  exists lat lon,
    float_of_str g1 = Some lat
    /\ float_of_str g2 = Some lon
    /\ geocode_one w q log
       = (Return (Some [ ("name", JStr (format_4f lat ++ "," ++ format_4f lon));
                         ("lat", JFloat lat);
                         ("lon", JFloat lon) ]),
          log)
    /\ dict_has [ ("name", JStr (format_4f lat ++ "," ++ format_4f lon));
                  ("lat", JFloat lat);
                  ("lon", JFloat lon) ] "source" = false.
Proof.
  intros Hq. pose proof (LATLON_RE_match_complete _ _ _ Hq) as Hm.
  destruct Hq as (ws0 & ws1 & sep & ws2 & ws3 & _ & _ & Hg1 & _ & _ & _ & Hg2 & _).
  destruct (float_of_str_number _ Hg1) as [lat Hlat].
  destruct (float_of_str_number _ Hg2) as [lon Hlon].
  exists lat, lon. split; [exact Hlat|]. split; [exact Hlon|].
  split; [|reflexivity].
  unfold geocode_one, _try_parse_latlon. rewrite Hm, Hlat, Hlon. reflexivity.
Qed.

Lemma pattern_example :
  LATLON_RE "40.7128, -74.0060" "40.7128" "-74.0060".
Proof.
  exists [], [], ","%char, [" "%char], [].
  split; [reflexivity|]. split; [reflexivity|].
  split.
  { exists [], (list_ascii_of_string "40"), (list_ascii_of_string ".7128").
    split; [reflexivity|]. split; [now left|]. split; [discriminate|].
    split; [reflexivity|]. right.
    exists (list_ascii_of_string "7128").
    split; [reflexivity|]. split; [discriminate | reflexivity]. }
  split; [reflexivity|]. split; [now left|]. split; [reflexivity|].
  split; [|reflexivity].
  exists ["-"%char], (list_ascii_of_string "74"), (list_ascii_of_string ".0060").
  split; [reflexivity|]. split; [now right|]. split; [discriminate|].
  split; [reflexivity|]. right.
  exists (list_ascii_of_string "0060").
  split; [reflexivity|]. split; [discriminate | reflexivity].
Qed.

Lemma coordinates_resolve_directly_witness :
  exists lat lon,
    float_of_str "40.7128" = Some lat
    /\ float_of_str "-74.0060" = Some lon
    /\ geocode_one nameless_coords_world "40.7128, -74.0060" []
       = (Return (Some [ ("name", JStr (format_4f lat ++ "," ++ format_4f lon));
                         ("lat", JFloat lat);
                         ("lon", JFloat lon) ]),
          [])
    /\ dict_has [ ("name", JStr (format_4f lat ++ "," ++ format_4f lon));
                  ("lat", JFloat lat);
                  ("lon", JFloat lon) ] "source" = false.
Proof.
  apply (coordinates_resolve_directly nameless_coords_world
           "40.7128, -74.0060" "40.7128" "-74.0060" []).
  exact pattern_example.
Defined.

(** C5, as stated, fails on its last point: the location resolved from
    "40.7128, -74.0060" has the name and the coordinates the claim says,
    and no source entry, so none that says 'coordinates'. *)
Lemma coordinates_location_has_no_source :
  LATLON_RE "40.7128, -74.0060" "40.7128" "-74.0060"
  /\ geocode_one nameless_coords_world "40.7128, -74.0060" []
     = (Return (Some [ ("name", JStr "40.7128,-74.0060");
                       ("lat", JFloat 40.7128);
                       ("lon", JFloat (-74.0060)) ]),
        [])
  /\ dict_has [ ("name", JStr "40.7128,-74.0060");
                ("lat", JFloat 40.7128);
                ("lon", JFloat (-74.0060)) ] "source" = false
  /\ dict_get [ ("name", JStr "40.7128,-74.0060");
                ("lat", JFloat 40.7128);
                ("lon", JFloat (-74.0060)) ] "source"
     <> JStr "coordinates".
Proof.
  split; [exact pattern_example|].
  split; [vm_compute; reflexivity|].
  split; [reflexivity | discriminate].
Qed.

(* ================================================================== *)
(** * The cases of section 8 of the specification                      *)
(* ================================================================== *)

Example freezing_point : _c_to_f (Some 0%float) = Some 32%float.
Proof. reflexivity. Qed.

Example no_temperature : _c_to_f None = None.
Proof. reflexivity. Qed.

Example one_inch : _mm_to_in (Some 25.4%float) = Some 1%float.
Proof. reflexivity. Qed.

Example describe_known :
  map (fun kv => daily_desc (Some (fst kv))) WEATHER_CODE_DESC
  = map snd WEATHER_CODE_DESC.
Proof. reflexivity. Qed.

Example describe_unknown : daily_desc (Some 9999%Z) = "Code 9999".
Proof. reflexivity. Qed.

Example describe_missing : daily_desc None = "—".
Proof. reflexivity. Qed.

Example resolve_coordinates :
  geocode_one nameless_coords_world "40.7128, -74.0060" []
  = (Return (Some [ ("name", JStr "40.7128,-74.0060");
                    ("lat", JFloat 40.7128);
                    ("lon", JFloat (-74.0060)) ]),
     []).
Proof. vm_compute. reflexivity. Qed.

Example resolve_nothing :
  geocode_one (constant_weather (mkdate 2025 6 15) None)
    "Nowhere-That-Does-Not-Exist-zzz" []
  = (Return None,
     [ primary_request "Nowhere-That-Does-Not-Exist-zzz";
       fallback_request "Nowhere-That-Does-Not-Exist-zzz" ]).
Proof. reflexivity. Qed.

Example past_range_is_one_archive_fetch :
  get_daily_range
    (constant_weather (mkdate 2025 6 15)
       (Some (daily_with_times [mkdate 2025 6 1; mkdate 2025 6 2])))
    0 0 (mkdate 2025 6 1) (mkdate 2025 6 2) []
  = (Return (Some (rows_upto
                     (daily_with_times [mkdate 2025 6 1; mkdate 2025 6 2]) 2)),
     [ range_request ARCHIVE_URL 0 0 (mkdate 2025 6 1) (mkdate 2025 6 2) ]).
Proof. reflexivity. Qed.

(* ================================================================== *)
(** * More on the weather fetchers                                     *)
(* ================================================================== *)

Lemma firstn_seq_min k : forall s n, firstn k (seq s n) = seq s (Nat.min k n).
Proof.
  induction k as [|k IH]; intros s n; [reflexivity|].
  destruct n as [|n]; [reflexivity|].
  cbn [seq firstn Nat.min]. now rewrite IH.
Qed.

Lemma rows_upto_firstn data k n :
  rows_upto data (Nat.min k n) = firstn k (rows_upto data n).
Proof. unfold rows_upto. now rewrite firstn_map, firstn_seq_min. Qed.

(** X1: on one and the same upstream document, the 5-day mapping is the
    range mapping cut after five rows; with at most five days upstream the
    two mappings agree. *)
Theorem forecast_rows_truncate_range_rows (data : Payload.weather) :
  exists rows,
    range_rows data = Return rows
    /\ forecast_rows data = Return (firstn 5 rows)
    /\ ((length (times_of data) <= 5)%nat ->
        forecast_rows data = range_rows data)
    /\ ((5 < length (times_of data))%nat ->
        forecast_rows data <> range_rows data).
Proof.
  exists (rows_upto data (length (times_of data))).
  rewrite range_rows_spec, forecast_rows_spec.
  split; [reflexivity|]. split; [now rewrite rows_upto_firstn|].
  split.
  - intros H. now rewrite Nat.min_r.
  - intros H E.
    apply (f_equal (fun o => match o with
                             | Return l => length l
                             | Raise _ => 0%nat
                             end)) in E.
    cbv beta iota in E. rewrite !rows_upto_length in E. lia.
Qed.

Lemma get_current_weather_spec w lat lon log :
  get_current_weather w lat lon log
  = (Return (option_map current_of (weather_api w log (current_request lat lon))),
     log ++ [current_request lat lon]).
Proof.
  unfold get_current_weather, bind, http_get, current_request.
  match goal with |- context [weather_api w log ?r] =>
    destruct (weather_api w log r) as [data|]; reflexivity end.
Qed.

(** X2: the current-conditions fetch never raises and makes exactly one
    request, to the forecast endpoint.  It returns [None] exactly when the
    upstream call failed.  Otherwise the Celsius, wind, precipitation and
    code fields are those of the document's [current] object ([None] for a
    missing one, all of them when the object itself is missing), and the
    two Fahrenheit fields are the conversions of the two Celsius fields. *)
Theorem current_weather_mapping
    (w : world) (lat lon : float) (log : list request) :
  exists res,
    get_current_weather w lat lon log
    = (Return res, log ++ [current_request lat lon])
    /\ url (current_request lat lon) = FORECAST_URL
    /\ (res = None <-> weather_api w log (current_request lat lon) = None)
    /\ forall data,
        weather_api w log (current_request lat lon) = Some data ->
        exists c,
          res = Some c
          /\ Current.temperature_f c = _c_to_f (Current.temperature_c c)
          /\ Current.apparent_f c = _c_to_f (Current.apparent_c c)
          /\ (forall cur,
                Payload.w_current data = Some cur ->
                Current.temperature_c c = Payload.temperature_2m cur
                /\ Current.apparent_c c = Payload.apparent_temperature cur
                /\ Current.wind_speed c = Payload.wind_speed_10m cur
                /\ Current.precipitation c = Payload.precipitation cur
                /\ Current.weather_code c = Payload.weather_code cur)
          /\ (Payload.w_current data = None ->
              c = Current.mk None None None None None None None "Code None").
Proof.
  rewrite get_current_weather_spec. eexists. split; [reflexivity|].
  split; [reflexivity|]. split.
  - destruct (weather_api w log (current_request lat lon)); cbn;
      split; congruence.
  - intros data ->. cbn [option_map]. eexists. split; [reflexivity|].
    unfold current_of. cbn.
    split; [reflexivity|]. split; [reflexivity|]. split.
    + intros cur ->. repeat split.
    + intros ->. reflexivity.
Qed.

(* ================================================================== *)
(** * More on the geocoders                                            *)
(* ================================================================== *)

Lemma _try_parse_latlon_complete q g1 g2 :
  LATLON_RE q g1 g2 -> exists loc, _try_parse_latlon q = Some loc.
Proof.
  intros Hq. pose proof (LATLON_RE_match_complete _ _ _ Hq) as Hm.
  destruct Hq as (ws0 & ws1 & sep & ws2 & ws3 & _ & _ & Hg1 & _ & _ & _ & Hg2 & _).
  destruct (float_of_str_number _ Hg1) as [lat Hlat].
  destruct (float_of_str_number _ Hg2) as [lon Hlon].
  unfold _try_parse_latlon. rewrite Hm, Hlat, Hlon. now eexists.
Qed.

(** X4: [_try_parse_latlon] returns a location exactly for the texts that
    match the pattern.  Its [except ValueError] branch is never taken:
    [float] accepts both groups of every match. *)
Theorem try_parse_latlon_exact (q : string) :
  (_try_parse_latlon q <> None <-> exists g1 g2, LATLON_RE q g1 g2)
  /\ (forall g1 g2,
        LATLON_RE_match q = Some (g1, g2) ->
        float_of_str g1 <> None /\ float_of_str g2 <> None).
Proof.
  split.
  - split.
    + destruct (_try_parse_latlon q) as [loc|] eqn:H; [|congruence].
      intros _. apply _try_parse_latlon_inv in H.
      destruct H as (g1 & g2 & _ & _ & Hm & _).
      exists g1, g2. now apply LATLON_RE_match_sound.
    + intros (g1 & g2 & H).
      destruct (_try_parse_latlon_complete _ _ _ H) as [loc ->]. discriminate.
  - intros g1 g2 Hm. apply LATLON_RE_match_sound in Hm.
    destruct Hm as (ws0 & ws1 & sep & ws2 & ws3 & _ & _ & Hg1 & _ & _ & _ & Hg2 & _).
    destruct (float_of_str_number _ Hg1) as [lat ->].
    destruct (float_of_str_number _ Hg2) as [lon ->].
    split; discriminate.
Qed.

Lemma _geocode_open_meteo_log w query log :
  snd (_geocode_open_meteo w query log) = log ++ [primary_request query].
Proof.
  unfold _geocode_open_meteo, bind at 1, http_get. fold (primary_request query).
  destruct (geocoding_api w log (primary_request query)) as [data|];
    [|reflexivity].
  destruct (or_nil (Payload.results data)) as [|top rest]; [reflexivity|].
  rewrite bind_lift. now destruct (py_join _ _).
Qed.

Lemma _geocode_nominatim_log w query log :
  snd (_geocode_nominatim w query log) = log ++ [fallback_request query].
Proof.
  unfold _geocode_nominatim, bind at 1, http_get.
  fold (fallback_request query).
  destruct (nominatim_api w log (fallback_request query)) as [[|top rest]|];
    try reflexivity.
  rewrite bind_lift.
  now destruct (nominatim_coords top) as [[[lat lon]|]|e].
Qed.

Lemma _geocode_open_meteo_none w query log :
  geocoding_api w log (primary_request query) = None
  \/ (exists data,
        geocoding_api w log (primary_request query) = Some data
        /\ or_nil (Payload.results data) = []) ->
  _geocode_open_meteo w query log = (Return None, log ++ [primary_request query]).
Proof.
  unfold _geocode_open_meteo, bind at 1, http_get. fold (primary_request query).
  intros [-> | (data & -> & ->)]; reflexivity.
Qed.

(** After text that is no coordinate pair: the primary geocoder's location
    if it has one, else whatever the fallback geocoder does. *)
Lemma geocode_one_steps w query log :
  _try_parse_latlon query = None ->
  geocode_one w query log
  = match _geocode_open_meteo w query log with
    | (Return (Some loc), log1) => (Return (Some loc), log1)
    | (Return None, log1) => _geocode_nominatim w query log1
    | (Raise e, log1) => (Raise e, log1)
    end.
Proof.
  intros Hc. unfold geocode_one. rewrite Hc. cbn [dict_truthy].
  unfold bind at 1.
  destruct (_geocode_open_meteo w query log) as [[[loc|]|e] log1] eqn:H1;
    [| |reflexivity].
  - apply _geocode_open_meteo_inv in H1.
    destruct H1 as (_ & _ & _ & _ & _ & _ & _ & _ & Hsrc).
    destruct loc; [discriminate | reflexivity].
  - cbn [dict_truthy]. unfold bind.
    destruct (_geocode_nominatim w query log1) as [[[loc|]|e] log2] eqn:H2;
      try reflexivity.
    apply _geocode_nominatim_inv in H2. destruct H2 as [_ Hsrc].
    destruct loc; [discriminate | reflexivity].
Qed.

(** X3: for a text that is no coordinate pair, [geocode_one] asks the
    primary geocoder first, with the raw text.  If that returns a location
    it is the result and the fallback geocoder is not asked; if it raises,
    so does [geocode_one], again without the fallback.  If the primary call
    failed or had no results, the outcome is that of the fallback
    geocoder, asked second; and when the fallback call failed or had no
    results either, the result is [None] after exactly these two
    requests. *)
Theorem geocode_one_fallthrough
    (w : world) (query : string) (log : list request) :
  _try_parse_latlon query = None ->
  (forall loc log1,
      _geocode_open_meteo w query log = (Return (Some loc), log1) ->
      geocode_one w query log
      = (Return (Some loc), log ++ [primary_request query]))
  /\ (forall e log1,
        _geocode_open_meteo w query log = (Raise e, log1) ->
        geocode_one w query log = (Raise e, log ++ [primary_request query]))
  /\ (geocoding_api w log (primary_request query) = None
      \/ (exists data,
            geocoding_api w log (primary_request query) = Some data
            /\ or_nil (Payload.results data) = []) ->
      geocode_one w query log
      = _geocode_nominatim w query (log ++ [primary_request query])
      /\ snd (geocode_one w query log)
         = log ++ [primary_request query; fallback_request query]
      /\ (nominatim_api w (log ++ [primary_request query])
            (fallback_request query) = None
          \/ nominatim_api w (log ++ [primary_request query])
               (fallback_request query) = Some [] ->
          geocode_one w query log
          = (Return None,
             log ++ [primary_request query; fallback_request query])))
  /\ dict_get (params (primary_request query)) "name" = JStr query
  /\ dict_get (params (fallback_request query)) "q" = JStr query.
Proof.
  intros Hc. pose proof (geocode_one_steps w query log Hc) as Hg.
  pose proof (_geocode_open_meteo_log w query log) as Hlog.
  split; [|split; [|split; [|split; reflexivity]]].
  - intros loc log1 H1. rewrite H1 in Hg, Hlog. cbn in Hlog. now subst.
  - intros e log1 H1. rewrite H1 in Hg, Hlog. cbn in Hlog. now subst.
  - intros Hnone. rewrite (_geocode_open_meteo_none _ _ _ Hnone) in Hg.
    split; [exact Hg|]. split.
    + rewrite Hg, _geocode_nominatim_log, <- app_assoc. reflexivity.
    + intros Hfb. rewrite Hg.
      unfold _geocode_nominatim, bind at 1, http_get.
      fold (fallback_request query). rewrite <- app_assoc. cbn [app].
      destruct Hfb as [-> | ->]; reflexivity.
Qed.

Lemma geocode_one_fallthrough_witness :
  geocode_one fallback_only_world "Paris" []
  = _geocode_nominatim fallback_only_world "Paris" ([] ++ [primary_request "Paris"])
  /\ snd (geocode_one fallback_only_world "Paris" [])
     = [] ++ [primary_request "Paris"; fallback_request "Paris"]
  /\ (nominatim_api fallback_only_world ([] ++ [primary_request "Paris"])
        (fallback_request "Paris") = None
      \/ nominatim_api fallback_only_world ([] ++ [primary_request "Paris"])
           (fallback_request "Paris") = Some [] ->
      geocode_one fallback_only_world "Paris" []
      = (Return None,
         [] ++ [primary_request "Paris"; fallback_request "Paris"])).
Proof.
  apply (proj1 (proj2 (proj2
           (geocode_one_fallthrough fallback_only_world "Paris" [] eq_refl)))).
  left. reflexivity.
Defined.

Lemma py_join_strs sep (l : list string) :
  py_join sep (map JStr l) = Return (String.concat sep l).
Proof.
  induction l as [|s l IH]; [reflexivity|].
  cbn [map py_join String.concat].
  destruct l as [|s' l]; [reflexivity|].
  cbn [map] in IH |- *. rewrite IH. reflexivity.
Qed.

(** X5: the primary geocoder's display name.  When the first upstream
    result has strings (or nothing) under [name], [admin1] and [country],
    the location's name is the non-empty ones among them, in that order,
    joined by ", "; only the first result is looked at, and the location's
    other entries are copied from it. *)
Theorem primary_display_name
    (w : world) (query : string) (log : list request)
    (data : Payload.geocoding) (top : dict) (rest : list dict)
    (n a c : option string) :
  geocoding_api w log (primary_request query) = Some data ->
  or_nil (Payload.results data) = top :: rest ->
  dict_get top "name" = opt_str n ->
  dict_get top "admin1" = opt_str a ->
  dict_get top "country" = opt_str c ->
  _geocode_open_meteo w query log
  = (Return (Some [ ("name",
                     JStr (String.concat ", " (present_strings [n; a; c])));
                    ("lat", dict_get top "latitude");
                    ("lon", dict_get top "longitude");
                    ("country_code", dict_get top "country_code");
                    ("source", JStr "open-meteo") ]),
     log ++ [primary_request query]).
Proof.
  intros Hd Hr Hn Ha Hc.
  unfold _geocode_open_meteo, bind at 1, http_get. fold (primary_request query).
  rewrite Hd, Hr, Hn, Ha, Hc, bind_lift.
  assert (Hparts :
            filter truthy
              (if truthy (opt_str c)
               then (if truthy (opt_str a)
                     then [opt_str n] ++ [opt_str a] else [opt_str n])
                    ++ [opt_str c]
               else (if truthy (opt_str a)
                     then [opt_str n] ++ [opt_str a] else [opt_str n]))
            = map JStr (present_strings [n; a; c])).
  { unfold present_strings.
    destruct n as [n|], a as [a|], c as [c|];
      cbn [opt_str flat_map app];
      try destruct (String.eqb n "") eqn:En;
      try destruct (String.eqb a "") eqn:Ea;
      try destruct (String.eqb c "") eqn:Ec;
      repeat (cbn [truthy negb app filter map]; rewrite ?En, ?Ea, ?Ec);
      reflexivity. }
  rewrite Hparts, py_join_strs. reflexivity.
Qed.

Lemma primary_display_name_witness :
  _geocode_open_meteo paris_world "Paris" []
  = (Return (Some [ ("name",
                     JStr (String.concat ", "
                             (present_strings
                                [Some "Paris"; Some ""; Some "France"])));
                    ("lat", JFloat 48.85341);
                    ("lon", JFloat 2.3488);
                    ("country_code", JNull);
                    ("source", JStr "open-meteo") ]),
     [] ++ [primary_request "Paris"]).
Proof.
  apply (primary_display_name paris_world "Paris" []
           (Payload.mkgeocoding
              (Some [[("name", JStr "Paris"); ("admin1", JStr "");
                      ("country", JStr "France");
                      ("latitude", JFloat 48.85341);
                      ("longitude", JFloat 2.3488)]]))
           [("name", JStr "Paris"); ("admin1", JStr "");
            ("country", JStr "France");
            ("latitude", JFloat 48.85341);
            ("longitude", JFloat 2.3488)]
           [] (Some "Paris") (Some "") (Some "France"));
    reflexivity.
Defined.

(** X6: the fallback geocoder's location.  When [float] converts the [lat]
    and [lon] of the first upstream result, the location has the two floats
    as coordinates, the result's [display_name] as name, or the query text
    itself when that is missing or empty, no country code and the source
    "nominatim"; the one request made carries the User-Agent header. *)
Theorem fallback_location
    (w : world) (query : string) (log : list request)
    (top : dict) (rest : list dict) (lat lon : float) :
  nominatim_api w log (fallback_request query) = Some (top :: rest) ->
  py_float (dict_get top "lat") = Return lat ->
  py_float (dict_get top "lon") = Return lon ->
  _geocode_nominatim w query log
  = (Return (Some [ ("name", fallback_name top query);
                    ("lat", JFloat lat);
                    ("lon", JFloat lon);
                    ("country_code", JNull);
                    ("source", JStr "nominatim") ]),
     log ++ [fallback_request query])
  /\ (truthy (dict_get top "display_name") = false ->
      fallback_name top query = JStr query)
  /\ (truthy (dict_get top "display_name") = true ->
      fallback_name top query = dict_get top "display_name")
  /\ headers (fallback_request query)
     = [("User-Agent", "markfox-weather-app/1.0 (learning project)")].
Proof.
  intros Hd Hlat Hlon. split.
  - unfold _geocode_nominatim, bind at 1, http_get.
    fold (fallback_request query). rewrite Hd, bind_lift.
    unfold nominatim_coords. rewrite Hlat, Hlon. reflexivity.
  - unfold fallback_name. repeat split; intros ->; reflexivity.
Qed.

Lemma fallback_location_witness :
  _geocode_nominatim fallback_only_world "Paris" []
  = (Return (Some [ ("name",
                     fallback_name
                       [("lat", JStr "48.8534951"); ("lon", JStr "2.3483915")]
                       "Paris");
                    ("lat", JFloat 48.8534951);
                    ("lon", JFloat 2.3483915);
                    ("country_code", JNull);
                    ("source", JStr "nominatim") ]),
     [] ++ [fallback_request "Paris"]).
Proof.
  apply (proj1 (fallback_location fallback_only_world "Paris" []
                  [("lat", JStr "48.8534951"); ("lon", JStr "2.3483915")]
                  [] 48.8534951 2.3483915 eq_refl eq_refl eq_refl)).
Defined.



(* ================================================================== *)
(** * More on the validator: the calendar                              *)
(* ================================================================== *)

Lemma days_in_month_bounds y m : (28 <= days_in_month y m <= 31)%Z.
Proof.
  unfold days_in_month.
  destruct (m =? 2)%Z; [destruct (is_leap y); lia|].
  destruct ((m =? 4) || (m =? 6) || (m =? 9) || (m =? 11))%Z; lia.
Qed.

Lemma make_date_bounds y m d x :
  make_date y m d = Some x ->
  x = mkdate y m d
  /\ (1 <= y <= 9999 /\ 1 <= m <= 12 /\ 1 <= d <= days_in_month y m)%Z.
Proof.
  unfold make_date.
  destruct ((1 <=? y) && (y <=? 9999) && (1 <=? m) && (m <=? 12)
            && (1 <=? d) && (d <=? days_in_month y m))%Z eqn:E;
    [|discriminate].
  intros [= <-]. split; [reflexivity|].
  repeat (apply andb_true_iff in E; destruct E as [E ?]).
  repeat match goal with
         | H : (_ <=? _)%Z = true |- _ => apply Z.leb_le in H
         end.
  lia.
Qed.

Lemma valid_date_bounds d :
  valid_date d ->
  (1 <= year d <= 9999 /\ 1 <= month d <= 12
   /\ 1 <= day d <= days_in_month (year d) (month d))%Z.
Proof. intros H. now apply make_date_bounds in H. Qed.

Lemma make_date_valid y m d x : make_date y m d = Some x -> valid_date x.
Proof.
  intros H. pose proof (make_date_bounds _ _ _ _ H) as [-> _].
  exact H.
Qed.

Lemma days_before_month_aux_mono y k k' :
  (k < k')%nat ->
  (days_before_month_aux y k + days_in_month y (Z.of_nat (S k))
   <= days_before_month_aux y k')%Z.
Proof.
  induction k' as [|k' IH]; [lia|]. intros H.
  cbn [days_before_month_aux].
  destruct (Nat.eq_dec k k') as [->|Hne]; [lia|].
  pose proof (days_in_month_bounds y (Z.of_nat (S k'))).
  assert (k < k')%nat by lia. specialize (IH H1). lia.
Qed.

Lemma days_before_month_mono y m m' :
  (1 <= m)%Z -> (m < m')%Z ->
  (days_before_month y m + days_in_month y m <= days_before_month y m')%Z.
Proof.
  intros H1 H2. unfold days_before_month.
  pose proof (days_before_month_aux_mono y (Z.to_nat (m - 1))
                (Z.to_nat (m' - 1))) as H.
  replace (Z.of_nat (S (Z.to_nat (m - 1)))) with m in H by lia.
  apply H. lia.
Qed.

Lemma days_before_month_13 y :
  days_before_month y 13 = (365 + if is_leap y then 1 else 0)%Z.
Proof.
  unfold days_before_month. change (Z.to_nat (13 - 1)) with 12%nat.
  cbn [days_before_month_aux]. unfold days_in_month. cbn.
  destruct (is_leap y); reflexivity.
Qed.

Lemma days_before_year_succ y :
  days_before_year (y + 1)
  = (days_before_year y + 365 + if is_leap y then 1 else 0)%Z.
Proof.
  unfold days_before_year, is_leap.
  replace (y + 1 - 1)%Z with y by lia.
  destruct (y mod 4 =? 0)%Z eqn:E4; destruct (y mod 100 =? 0)%Z eqn:E100;
    destruct (y mod 400 =? 0)%Z eqn:E400; cbn [andb orb negb];
    rewrite ?Z.eqb_eq, ?Z.eqb_neq in *;
    Z.to_euclidean_division_equations; lia.
Qed.

Lemma days_before_year_mono y y' :
  (y <= y')%Z -> (days_before_year y <= days_before_year y')%Z.
Proof.
  intros H. unfold days_before_year.
  Z.to_euclidean_division_equations. lia.
Qed.

Lemma days_before_month_aux_nonneg y k : (0 <= days_before_month_aux y k)%Z.
Proof.
  induction k as [|k IH]; cbn [days_before_month_aux]; [lia|].
  pose proof (days_in_month_bounds y (Z.of_nat (S k))). lia.
Qed.

(** The ordinal of a date grows with the date. *)
Lemma toordinal_lt a b :
  valid_date a -> valid_date b -> date_lt a b ->
  (toordinal a < toordinal b)%Z.
Proof.
  intros Ha Hb Hlt. apply valid_date_bounds in Ha, Hb.
  destruct a as [ya ma da], b as [yb mb db]. cbn [year month day] in *.
  unfold date_lt in Hlt. apply date_ltb_true in Hlt. cbn [year month day] in Hlt.
  unfold toordinal. cbn [year month day].
  pose proof (days_before_month_aux_nonneg yb (Z.to_nat (mb - 1))) as Hnb.
  fold (days_before_month yb mb) in Hnb.
  destruct Hlt as [Hy | [-> [Hm | [-> Hd]]]].
  - pose proof (days_before_month_mono ya ma 13 ltac:(lia) ltac:(lia)) as H1.
    rewrite days_before_month_13 in H1.
    pose proof (days_before_year_succ ya) as H2.
    pose proof (days_before_year_mono (ya + 1) yb ltac:(lia)) as H3.
    lia.
  - pose proof (days_before_month_mono yb ma mb ltac:(lia) Hm). lia.
  - lia.
Qed.

Lemma toordinal_le a b :
  valid_date a -> valid_date b -> date_le a b ->
  (toordinal a <= toordinal b)%Z.
Proof.
  intros Ha Hb Hle. destruct (date_le_or_lt b a) as [Hba | Hlt].
  - now rewrite (date_le_antisym a b Hle Hba).
  - pose proof (toordinal_lt a b Ha Hb Hlt). lia.
Qed.

Lemma strptime_ymd_valid s d : strptime_ymd s = Some d -> valid_date d.
Proof.
  unfold strptime_ymd.
  repeat match goal with
         | |- context [match ?x with _ => _ end] => destruct x
         end;
    try discriminate; apply make_date_valid.
Qed.

Lemma _parse_iso_valid s d : _parse_iso s = Some d -> valid_date d.
Proof.
  destruct s as [s|]; cbn; [|discriminate].
  destruct (String.eqb s ""); [discriminate | apply strptime_ymd_valid].
Qed.

Lemma validate_date_range_inv start_s end_s max_days r :
  validate_date_range start_s end_s max_days = Return (Some r) ->
  _parse_iso start_s = Some (start r)
  /\ _parse_iso end_s = Some (end_ r)
  /\ date_le (start r) (end_ r)
  /\ (span_days (start r) (end_ r) <= max_days)%Z.
Proof.
  unfold validate_date_range.
  destruct (str_falsy start_s && str_falsy end_s); [discriminate|].
  destruct (_parse_iso start_s) as [first|]; [|discriminate].
  destruct (_parse_iso end_s) as [last|]; [|discriminate].
  unfold date_gtb. destruct (date_ltb last first) eqn:Ho; [discriminate|].
  rewrite Z.gtb_ltb.
  destruct (max_days <? span_days first last)%Z eqn:Hspan; [discriminate|].
  intros [= <-]. cbn [start end_]. apply Z.ltb_ge in Hspan.
  repeat split; assumption.
Qed.

(** X8: a range [validate_date_range] returns is a range of the calendar:
    both ends are real dates (month 1 to 12, day within the month, leap
    years observed), the ordinal of the start is at most that of the end,
    and the inclusive span lies between 1 and [max_days].  So with a
    [max_days] below 1 no range is ever returned. *)
Theorem validated_range_is_calendar_range
    (start_s end_s : option string) (max_days : Z) (r : DateRange) :
  validate_date_range start_s end_s max_days = Return (Some r) ->
  valid_date (start r) /\ valid_date (end_ r)
  /\ (toordinal (start r) <= toordinal (end_ r))%Z
  /\ (1 <= span_days (start r) (end_ r) <= max_days)%Z
  /\ (1 <= max_days)%Z.
Proof.
  intros H. apply validate_date_range_inv in H.
  destruct H as (Hs & He & Hle & Hspan).
  apply _parse_iso_valid in Hs, He.
  pose proof (toordinal_le _ _ Hs He Hle) as Hord.
  unfold span_days in *. repeat split; try assumption; lia.
Qed.

Lemma validated_range_is_calendar_range_witness :
  valid_date (mkdate 2024 2 29) /\ valid_date (mkdate 2024 3 1)
  /\ (toordinal (mkdate 2024 2 29) <= toordinal (mkdate 2024 3 1))%Z
  /\ (1 <= span_days (mkdate 2024 2 29) (mkdate 2024 3 1) <= 31)%Z
  /\ (1 <= 31)%Z.
Proof.
  apply (validated_range_is_calendar_range
           (Some "2024-02-29") (Some "2024-03-01") 31
           (mkDateRange (mkdate 2024 2 29) (mkdate 2024 3 1))).
  reflexivity.
Defined.

Lemma in_zrange y n :
  forall start, (start <= y < start + Z.of_nat n)%Z -> In y (zrange start n).
Proof.
  induction n as [|n IH]; intros start H; [lia|].
  cbn [zrange]. destruct (Z.eq_dec start y) as [->|Hne]; [now left|].
  right. apply IH. lia.
Qed.

Lemma year_text_all : forallb year_text_ok (zrange 1 (Z.to_nat 9999)) = true.
Proof. vm_compute. reflexivity. Qed.

Lemma year_text y : (1 <= y <= 9999)%Z -> year_text_ok y = true.
Proof.
  intros H. pose proof year_text_all as Hall.
  rewrite forallb_forall in Hall. apply Hall. apply in_zrange. lia.
Qed.

Lemma month_day_text_all :
  forallb month_day_text_ok
    (list_prod (map Z.of_nat (seq 1 12)) (map Z.of_nat (seq 1 31))) = true.
Proof. vm_compute. reflexivity. Qed.

Lemma month_day_text m d :
  (1 <= m <= 12)%Z -> (1 <= d <= 31)%Z -> month_day_text_ok (m, d) = true.
Proof.
  intros Hm Hd. pose proof month_day_text_all as Hall.
  rewrite forallb_forall in Hall. apply Hall.
  apply in_prod; apply in_map_iff.
  - exists (Z.to_nat m). split; [lia|]. apply in_seq. lia.
  - exists (Z.to_nat d). split; [lia|]. apply in_seq. lia.
Qed.

Lemma strptime_isoformat d : valid_date d -> strptime_ymd (isoformat d) = Some d.
Proof.
  intros Hv. pose proof (valid_date_bounds d Hv) as (Hy & Hm & Hd).
  destruct d as [y m dd]. cbn [year month day] in *.
  pose proof (days_in_month_bounds y m) as Hdim.
  pose proof (year_text y Hy) as Hyt. unfold year_text_ok in Hyt.
  pose proof (month_day_text m dd Hm ltac:(lia)) as Hmd.
  unfold month_day_text_ok in Hmd. cbn [fst snd] in Hmd.
  unfold isoformat. cbn [year month day].
  destruct (zfill 4 (str_int y)) as [|a [|b [|c [|e [|? ?]]]]];
    try discriminate.
  apply andb_true_iff in Hyt. destruct Hyt as [Hyt Hval].
  apply andb_true_iff in Hyt. destruct Hyt as [Hyt He].
  apply andb_true_iff in Hyt. destruct Hyt as [Hyt Hc].
  apply andb_true_iff in Hyt. destruct Hyt as [Ha Hb].
  apply Z.eqb_eq in Hval.
  cbn [String.append]. unfold strptime_ymd.
  rewrite Ha, Hb, Hc, He. cbn [andb].
  destruct (month_day _) as [[m' d']|]; [|discriminate].
  apply andb_true_iff in Hmd. destruct Hmd as [Em Ed].
  apply Z.eqb_eq in Em, Ed. subst m' d'. rewrite Hval. exact Hv.
Qed.

Lemma isoformat_not_empty d : valid_date d -> String.eqb (isoformat d) "" = false.
Proof.
  intros Hv. pose proof (strptime_isoformat d Hv) as H.
  destruct (isoformat d); [discriminate | reflexivity].
Qed.

(** X9: the ISO text of a real date is read back as that date, and the
    validator accepts the ISO texts of two real dates in order whose
    inclusive span is within [max_days], returning the range of exactly
    those dates: the texts [get_daily_range] puts in its requests name the
    dates of the validated range. *)
Theorem isoformat_parse_roundtrip (a b : date) (max_days : Z) :
  valid_date a -> valid_date b ->
  _parse_iso (Some (isoformat a)) = Some a
  /\ _parse_iso (Some (isoformat b)) = Some b
  /\ (date_le a b -> (span_days a b <= max_days)%Z ->
      validate_date_range (Some (isoformat a)) (Some (isoformat b)) max_days
      = Return (Some (mkDateRange a b))).
Proof.
  intros Ha Hb.
  assert (Pa : _parse_iso (Some (isoformat a)) = Some a).
  { cbn [_parse_iso]. now rewrite isoformat_not_empty, strptime_isoformat. }
  assert (Pb : _parse_iso (Some (isoformat b)) = Some b).
  { cbn [_parse_iso]. now rewrite isoformat_not_empty, strptime_isoformat. }
  split; [exact Pa|]. split; [exact Pb|].
  intros Hle Hspan. unfold validate_date_range.
  rewrite Pa, Pb. cbn [str_falsy]. rewrite (isoformat_not_empty a Ha).
  cbn [andb]. unfold date_gtb. rewrite Hle, Z.gtb_ltb.
  apply Z.ltb_ge in Hspan. now rewrite Hspan.
Qed.

Lemma isoformat_parse_roundtrip_witness :
  _parse_iso (Some (isoformat (mkdate 2024 2 29))) = Some (mkdate 2024 2 29)
  /\ _parse_iso (Some (isoformat (mkdate 2024 3 1))) = Some (mkdate 2024 3 1)
  /\ (date_le (mkdate 2024 2 29) (mkdate 2024 3 1) ->
      (span_days (mkdate 2024 2 29) (mkdate 2024 3 1) <= 31)%Z ->
      validate_date_range (Some (isoformat (mkdate 2024 2 29)))
        (Some (isoformat (mkdate 2024 3 1))) 31
      = Return (Some (mkDateRange (mkdate 2024 2 29) (mkdate 2024 3 1)))).
Proof.
  apply (isoformat_parse_roundtrip (mkdate 2024 2 29) (mkdate 2024 3 1) 31);
    reflexivity.
Defined.


(* ================================================================== *)
(** * The repository                                                   *)
(* ================================================================== *)

Lemma next_id_above ids x : In x ids -> (x < next_id ids)%Z.
Proof.
  unfold next_id. induction ids as [|y ids IH]; [contradiction|].
  cbn [fold_right]. intros [->|H]; [lia|]. specialize (IH H). lia.
Qed.

Lemma next_id_fresh ids : ~ In (next_id ids) ids.
Proof. intros H. apply next_id_above in H. lia. Qed.

Lemma find_id_none rows qid :
  ~ In qid (map SearchQuery.id rows) ->
  find (fun r => (SearchQuery.id r =? qid)%Z) rows = None.
Proof.
  induction rows as [|r rows IH]; [reflexivity|]. cbn [map find]. intros H.
  destruct (SearchQuery.id r =? qid)%Z eqn:E.
  - apply Z.eqb_eq in E. exfalso. apply H. now left.
  - apply IH. intros Hin. apply H. now right.
Qed.


Lemma find_id_app rows row qid :
  find (fun r => (SearchQuery.id r =? qid)%Z) (rows ++ [row])
  = match find (fun r => (SearchQuery.id r =? qid)%Z) rows with
    | Some r => Some r
    | None => if (SearchQuery.id row =? qid)%Z then Some row else None
    end.
Proof.
  induction rows as [|r rows IH]; [reflexivity|].
  cbn [app find]. now destruct (SearchQuery.id r =? qid)%Z.
Qed.

Lemma replace_query_ids qid row' rows :
  SearchQuery.id row' = qid ->
  map SearchQuery.id (replace_query qid row' rows) = map SearchQuery.id rows.
Proof.
  intros Hid. induction rows as [|r rows IH]; [reflexivity|].
  cbn [replace_query]. destruct (SearchQuery.id r =? qid)%Z eqn:E.
  - apply Z.eqb_eq in E. cbn [map]. congruence.
  - cbn [map]. now rewrite IH.
Qed.




Lemma NoDup_snoc {A} (l : list A) (x : A) :
  NoDup l -> ~ In x l -> NoDup (l ++ [x]).
Proof.
  induction l as [|a l IH]; intros Hnd Hx; cbn [app].
  - constructor; [intros [] | constructor].
  - apply NoDup_cons_iff in Hnd. destruct Hnd as [Ha Hnd].
    constructor.
    + intros Hin. apply in_app_or in Hin. destruct Hin as [Hin|[->|[]]].
      * now apply Ha.
      * apply Hx. now left.
    + apply IH; [exact Hnd|]. intros Hin. apply Hx. now right.
Qed.


Lemma snapshots_none_of_fresh d qid :
  Forall (fun sn => In (WeatherSnapshot.query_id sn) (query_ids d))
         (weathersnapshot d) ->
  ~ In qid (query_ids d) -> snapshots_of d qid = [].
Proof.
  unfold snapshots_of. intros Hall Hq.
  induction (weathersnapshot d) as [|sn l IH]; [reflexivity|].
  apply Forall_cons_iff in Hall. destruct Hall as [Hsn Hall].
  cbn [filter]. destruct (WeatherSnapshot.query_id sn =? qid)%Z eqn:E.
  - apply Z.eqb_eq in E. subst qid. contradiction.
  - now apply IH.
Qed.

Lemma append_snapshot_spec h qid cur fc s :
  append_snapshot h qid cur fc s
  = (WeatherSnapshot.mk (next_id (snapshot_ids (db s))) qid
       (json_dumps_current h cur) (json_dumps_rows h fc)
       (clock h (clock_reads s)),
     mkstore
       (mkdatabase (searchquery (db s))
          (weathersnapshot (db s)
           ++ [WeatherSnapshot.mk (next_id (snapshot_ids (db s))) qid
                 (json_dumps_current h cur) (json_dumps_rows h fc)
                 (clock h (clock_reads s))]))
       (S (clock_reads s))).
Proof. reflexivity. Qed.

Lemma db_ok_create d q sn :
  db_ok d ->
  SearchQuery.id q = next_id (query_ids d) ->
  WeatherSnapshot.id sn = next_id (snapshot_ids d) ->
  WeatherSnapshot.query_id sn = SearchQuery.id q ->
  db_ok (mkdatabase (searchquery d ++ [q]) (weathersnapshot d ++ [sn])).
Proof.
  intros (Hq & Hs & Hall) Eq Es Eqs.
  unfold db_ok, query_ids, snapshot_ids. cbn [searchquery weathersnapshot].
  rewrite !map_app. cbn [map]. split; [|split].
  - apply NoDup_snoc; [exact Hq|]. rewrite Eq. apply next_id_fresh.
  - apply NoDup_snoc; [exact Hs|]. rewrite Es. apply next_id_fresh.
  - apply Forall_app. split.
    + eapply Forall_impl; [|exact Hall]. intros a Ha.
      apply in_or_app. now left.
    + constructor; [|constructor]. apply in_or_app. right. rewrite Eqs.
      now left.
Qed.

Lemma db_ok_append d sn :
  db_ok d ->
  WeatherSnapshot.id sn = next_id (snapshot_ids d) ->
  In (WeatherSnapshot.query_id sn) (query_ids d) ->
  db_ok (mkdatabase (searchquery d) (weathersnapshot d ++ [sn])).
Proof.
  intros (Hq & Hs & Hall) Es Hin.
  unfold db_ok, query_ids, snapshot_ids. cbn [searchquery weathersnapshot].
  rewrite map_app. cbn [map]. split; [exact Hq|]. split.
  - apply NoDup_snoc; [exact Hs|]. rewrite Es. apply next_id_fresh.
  - apply Forall_app. split; [exact Hall|]. constructor; [exact Hin|constructor].
Qed.

Lemma db_ok_update d qid row' :
  db_ok d -> SearchQuery.id row' = qid ->
  db_ok (mkdatabase (replace_query qid row' (searchquery d)) (weathersnapshot d)).
Proof.
  intros (Hq & Hs & Hall) Hid.
  unfold db_ok, query_ids, snapshot_ids in *.
  cbn [searchquery weathersnapshot].
  now rewrite (replace_query_ids qid row' _ Hid).
Qed.


Lemma create_query_with_snapshot_spec h it rn la lo cur fc dr lb s name :
  column_text h rn = Done name ->
  PrimFloat.is_nan la = false -> PrimFloat.is_nan lo = false ->
  create_query_with_snapshot h it rn la lo cur fc dr lb s
  = (Done
       (SearchQuery.mk (next_id (query_ids (db s))) it name la lo
          (match dr with Some p => fst p | None => None end)
          (match dr with Some p => snd p | None => None end)
          lb (clock h (clock_reads s))),
     mkstore
       (mkdatabase
          (searchquery (db s)
           ++ [SearchQuery.mk (next_id (query_ids (db s))) it name la lo
                 (match dr with Some p => fst p | None => None end)
                 (match dr with Some p => snd p | None => None end)
                 lb (clock h (clock_reads s))])
          (weathersnapshot (db s)
           ++ [WeatherSnapshot.mk (next_id (snapshot_ids (db s)))
                 (next_id (query_ids (db s)))
                 (json_dumps_current h (Some cur))
                 (json_dumps_rows h (or_nil fc))
                 (clock h (S (clock_reads s)))]))
       (S (S (clock_reads s)))).
Proof.
  intros Hn Ha Ho. unfold create_query_with_snapshot, sbind, utcnow.
  rewrite Hn, Ha, Ho. reflexivity.
Qed.

Lemma create_query_with_snapshot_refused h it rn la lo cur fc dr lb s :
  (forall name, column_text h rn = Done name ->
                PrimFloat.is_nan la || PrimFloat.is_nan lo = true) ->
  create_query_with_snapshot h it rn la lo cur fc dr lb s
  = (Failed (match column_text h rn with
             | Failed e => e
             | Done _ => DBAPIError
             end),
     mkstore (db s) (S (clock_reads s))).
Proof.
  intros Hn. unfold create_query_with_snapshot, sbind, utcnow.
  destruct (column_text h rn) as [name|e]; [|reflexivity].
  now rewrite (Hn name eq_refl).
Qed.

Lemma column_text_failed h v e :
  column_text h v = Failed e -> e = DBAPIError \/ e = PyExn OverflowError.
Proof.
  destruct v; cbn [column_text];
    repeat match goal with
           | |- context [if ?c then _ else _] => destruct c
           end;
    intros [= <-] || discriminate; auto.
Qed.

(** X10: creating a query and reading it back.  When
    [create_query_with_snapshot] returns a row on a database with unique
    keys and no stray snapshots, the row's id is new; [get_query] on that
    id then returns this very row, and every other id reads as before.
    The new query has exactly one snapshot, holding [json.dumps] of the
    current conditions and of the forecast (of [[]] for a missing one),
    and other queries keep their snapshots.  [date_start] and [date_end]
    are the two members of [date_range], both [None] without one, and the
    database keeps unique keys and no stray snapshots. *)
Theorem create_query_then_get
    (h : host) (input_text : string) (resolved_name : json) (lat lon : float)
    (current : Current.t) (forecast : option (list DayRow.t))
    (date_range : option (option date * option date))
    (label : option string) (s s' : store) (q : SearchQuery.t) :
  db_ok (db s) ->
  create_query_with_snapshot h input_text resolved_name lat lon
    current forecast date_range label s = (Done q, s') ->
  ~ In (SearchQuery.id q) (query_ids (db s))
  /\ fst (get_query (SearchQuery.id q) s') = Some q
  /\ (forall qid, qid <> SearchQuery.id q ->
                  fst (get_query qid s') = fst (get_query qid s))
  /\ (exists snap,
        snapshots_of (db s') (SearchQuery.id q) = [snap]
        /\ WeatherSnapshot.current_json snap
           = json_dumps_current h (Some current)
        /\ WeatherSnapshot.forecast_json snap
           = json_dumps_rows h (or_nil forecast)
        /\ ~ In (WeatherSnapshot.id snap) (snapshot_ids (db s)))
  /\ (forall qid, qid <> SearchQuery.id q ->
                  snapshots_of (db s') qid = snapshots_of (db s) qid)
  /\ SearchQuery.input_text q = input_text
  /\ SearchQuery.label q = label
  /\ SearchQuery.date_start q
     = match date_range with Some p => fst p | None => None end
  /\ SearchQuery.date_end q
     = match date_range with Some p => snd p | None => None end
  /\ db_ok (db s').
Proof.
  intros Hok Hrun.
  destruct (column_text h resolved_name) as [name|e] eqn:Hn.
  2:{ rewrite create_query_with_snapshot_refused in Hrun
        by (intros n Hn'; congruence).
      discriminate. }
  destruct (PrimFloat.is_nan lat || PrimFloat.is_nan lon) eqn:Hnan.
  { rewrite create_query_with_snapshot_refused in Hrun by trivial.
    discriminate. }
  apply orb_false_iff in Hnan. destruct Hnan as [Ha Ho].
  rewrite (create_query_with_snapshot_spec _ _ _ _ _ _ _ _ _ _ _ Hn Ha Ho)
    in Hrun.
  injection Hrun as <- <-. cbn [fst snd db].
  cbn [SearchQuery.id SearchQuery.date_start SearchQuery.date_end
       SearchQuery.input_text SearchQuery.label].
  pose proof (next_id_fresh (query_ids (db s))) as Hfresh.
  split; [exact Hfresh|]. split.
  { unfold get_query. cbn [fst db searchquery].
    rewrite find_id_app, (find_id_none _ _ Hfresh).
    cbn [SearchQuery.id]. now rewrite Z.eqb_refl. }
  split.
  { intros qid Hq. unfold get_query. cbn [fst db searchquery].
    rewrite find_id_app. cbn [SearchQuery.id].
    destruct (find _ (searchquery (db s))); [reflexivity|].
    apply Z.eqb_neq in Hq. rewrite Z.eqb_sym in Hq. now rewrite Hq. }
  split.
  { eexists. unfold snapshots_of. cbn [weathersnapshot].
    rewrite filter_app. fold (snapshots_of (db s) (next_id (query_ids (db s)))).
    rewrite (snapshots_none_of_fresh _ _ (proj2 (proj2 Hok)) Hfresh).
    cbn [filter WeatherSnapshot.query_id app]. rewrite Z.eqb_refl.
    split; [reflexivity|]. cbn. repeat split. apply next_id_fresh. }
  split.
  { intros qid Hq. unfold snapshots_of. cbn [weathersnapshot].
    rewrite filter_app. cbn [filter WeatherSnapshot.query_id].
    apply Z.eqb_neq in Hq. rewrite Z.eqb_sym in Hq. rewrite Hq.
    apply app_nil_r. }
  do 4 (split; [reflexivity|]).
  now apply db_ok_create.
Qed.

Lemma create_query_then_get_witness :
  let h := example_host paris_world in
  let q := SearchQuery.mk 1 "Paris" "Paris, France" 48.85341 2.3488
             None None None 0 in
  let s' := mkstore
              (mkdatabase [q] [WeatherSnapshot.mk 1 1 "{...}" "[]" 1]) 2 in
  ~ In (SearchQuery.id q) (query_ids (db empty_store))
  /\ fst (get_query (SearchQuery.id q) s') = Some q
  /\ (forall qid, qid <> SearchQuery.id q ->
                  fst (get_query qid s') = fst (get_query qid empty_store))
  /\ (exists snap,
        snapshots_of (db s') (SearchQuery.id q) = [snap]
        /\ WeatherSnapshot.current_json snap
           = json_dumps_current h
               (Some (Current.mk None None None None None None None "—"))
        /\ WeatherSnapshot.forecast_json snap
           = json_dumps_rows h (or_nil None)
        /\ ~ In (WeatherSnapshot.id snap) (snapshot_ids (db empty_store)))
  /\ (forall qid, qid <> SearchQuery.id q ->
                  snapshots_of (db s') qid = snapshots_of (db empty_store) qid)
  /\ SearchQuery.input_text q = "Paris"
  /\ SearchQuery.label q = None
  /\ SearchQuery.date_start q = None
  /\ SearchQuery.date_end q = None
  /\ db_ok (db s').
Proof.
  apply (create_query_then_get (example_host paris_world)
           "Paris" (JStr "Paris, France") 48.85341 2.3488
           (Current.mk None None None None None None None "—")
           None None None empty_store).
  - repeat split; constructor.
  - reflexivity.
Defined.






(* ================================================================== *)
(** * The handlers                                                     *)
(* ================================================================== *)

Lemma keeps_store_lift_M {A} (c : M A) : keeps_store (lift_M c).
Proof.
  intros st. unfold lift_M. now destruct (c (st_log st)) as [[a|e] log'].
Qed.

Lemma keeps_store_lift_outcome {A} (c : outcome A) :
  keeps_store (lift_outcome c).
Proof. intros st. unfold lift_outcome. now destruct c. Qed.

Lemma keeps_store_dict_item d k : keeps_store (dict_item d k).
Proof. intros st. unfold dict_item. now destruct (dict_has d k). Qed.

Lemma keeps_store_hbind {A B} (c : H A) (k : A -> H B) :
  keeps_store c -> (forall a, keeps_store (k a)) -> keeps_store (hbind c k).
Proof.
  intros Hc Hk st. unfold hbind. specialize (Hc st).
  destruct (c st) as [[a|e] st1]; cbn [snd] in *; [|exact Hc].
  now rewrite Hk.
Qed.

Lemma keeps_store_resolved_coords loc : keeps_store (resolved_coords loc).
Proof.
  unfold resolved_coords.
  repeat (apply keeps_store_hbind;
          [first [apply keeps_store_dict_item | apply keeps_store_lift_outcome]
          | intros ?]).
  intros st. reflexivity.
Qed.

(** The rule of sequencing: a step that leaves the store alone, returns
    values in [R] and raises only exceptions [Q] admits, before a
    continuation that meets [Q] on [R]. *)
Lemma handler_post_hbind {A} (c : H A) (k : A -> H response)
    (Q : store -> result response -> store -> Prop) (R : A -> Prop) :
  keeps_store c ->
  (forall st a, fst (c st) = Done a -> R a) ->
  (forall st e s, fst (c st) = Failed e -> Q s (Failed e) s) ->
  (forall a, R a -> handler_post Q (k a)) ->
  handler_post Q (hbind c k).
Proof.
  intros Hc HR HF Hk st. unfold hbind.
  specialize (Hc st). specialize (HR st). specialize (HF st).
  destruct (c st) as [[a|e] st1]; cbn [fst snd] in *.
  - rewrite <- Hc. now apply Hk, HR.
  - rewrite Hc. now apply HF.
Qed.

Lemma lift_M_failed {A} (c : M A) st e :
  fst (lift_M c st) = Failed e -> exists e', e = PyExn e'.
Proof.
  unfold lift_M. destruct (c (st_log st)) as [[a|e0] log']; [discriminate|].
  intros [= <-]. now eexists.
Qed.

Lemma lift_outcome_failed {A} (c : outcome A) st e :
  fst (lift_outcome c st) = Failed e -> exists e', e = PyExn e'.
Proof.
  unfold lift_outcome. destruct c; [discriminate|].
  intros [= <-]. now eexists.
Qed.

Lemma resolved_coords_located name lat lon rest st :
  resolved_coords (("name", name) :: ("lat", lat) :: ("lon", lon) :: rest) st
  = match py_float lat with
    | Raise e => (Failed (PyExn e), st)
    | Return x =>
        match py_float lon with
        | Raise e => (Failed (PyExn e), st)
        | Return y => (Done (x, y), st)
        end
    end.
Proof.
  unfold resolved_coords, dict_item. cbn.
  unfold hbind, hret, lift_outcome.
  destruct (py_float lat); [|reflexivity]. now destruct (py_float lon).
Qed.

Lemma resolved_coords_failed loc st e :
  located loc ->
  fst (resolved_coords loc st) = Failed e -> exists e', e = PyExn e'.
Proof.
  intros (name & lat & lon & rest & -> & _).
  rewrite resolved_coords_located.
  destruct (py_float lat); [destruct (py_float lon)|];
    cbn [fst]; intros [= <-]; now eexists.
Qed.

Lemma _geocode_open_meteo_located w query log loc log' :
  _geocode_open_meteo w query log = (Return (Some loc), log') -> located loc.
Proof.
  unfold _geocode_open_meteo, bind at 1, http_get.
  destruct (geocoding_api w log _) as [data|]; [|discriminate].
  destruct (or_nil (Payload.results data)) as [|top rest]; [discriminate|].
  rewrite bind_lift.
  destruct (py_join _ _) as [name|e]; [|discriminate].
  unfold ret. intros [= <- <-].
  do 4 eexists. split; [reflexivity | discriminate].
Qed.

Lemma _geocode_nominatim_located w query log loc log' :
  _geocode_nominatim w query log = (Return (Some loc), log') -> located loc.
Proof.
  unfold _geocode_nominatim, bind at 1, http_get.
  destruct (nominatim_api w log _) as [[|top rest]|]; try discriminate.
  rewrite bind_lift.
  destruct (nominatim_coords top) as [[[lat lon]|]|e]; try discriminate.
  unfold ret. intros [= <- <-].
  do 4 eexists. split; [reflexivity|].
  destruct (truthy (dict_get top "display_name")) eqn:E; [|discriminate].
  intros Hn. rewrite Hn in E. discriminate.
Qed.

(** A location [geocode_one] returns has a [name] that is not [None], a
    [lat] and a [lon]. *)
Lemma geocode_one_located w query log loc log' :
  geocode_one w query log = (Return (Some loc), log') -> located loc.
Proof.
  destruct (_try_parse_latlon query) as [l|] eqn:Hc.
  - unfold geocode_one. rewrite Hc.
    apply _try_parse_latlon_inv in Hc.
    destruct Hc as (g1 & g2 & lat & lon & _ & _ & _ & ->).
    cbn [dict_truthy]. unfold ret. intros [= <- <-].
    do 4 eexists. split; [reflexivity | discriminate].
  - rewrite (geocode_one_steps _ _ _ Hc).
    destruct (_geocode_open_meteo w query log) as [[[l|]|e] log1] eqn:H1.
    + intros [= <- <-]. now apply _geocode_open_meteo_located in H1.
    + apply _geocode_nominatim_located.
    + discriminate.
Qed.

Lemma create_query_with_snapshot_cases h it rn la lo cur fc dr lb s :
  (exists row snap,
     create_query_with_snapshot h it rn la lo cur fc dr lb s
     = (Done row,
        mkstore (mkdatabase (searchquery (db s) ++ [row])
                            (weathersnapshot (db s) ++ [snap]))
                (S (S (clock_reads s))))
     /\ SearchQuery.id row = next_id (query_ids (db s))
     /\ WeatherSnapshot.id snap = next_id (snapshot_ids (db s))
     /\ WeatherSnapshot.query_id snap = SearchQuery.id row
     /\ SearchQuery.input_text row = it
     /\ SearchQuery.label row = lb
     /\ SearchQuery.date_start row
        = match dr with Some p => fst p | None => None end
     /\ SearchQuery.date_end row
        = match dr with Some p => snd p | None => None end)
  \/ (exists e,
        create_query_with_snapshot h it rn la lo cur fc dr lb s
        = (Failed e, mkstore (db s) (S (clock_reads s)))
        /\ (e = DBAPIError \/ e = PyExn OverflowError)).
Proof.
  destruct (column_text h rn) as [name|e] eqn:Hn.
  2:{ right. exists e.
      rewrite create_query_with_snapshot_refused
        by (intros n Hn'; congruence).
      rewrite Hn. split; [reflexivity|].
      now apply (column_text_failed h rn). }
  destruct (PrimFloat.is_nan la || PrimFloat.is_nan lo) eqn:Hnan.
  { right. exists DBAPIError.
    rewrite create_query_with_snapshot_refused by trivial.
    rewrite Hn. split; [reflexivity | now left]. }
  apply orb_false_iff in Hnan. destruct Hnan as [Ha Ho]. left.
  rewrite (create_query_with_snapshot_spec _ _ _ _ _ _ _ _ _ _ _ Hn Ha Ho).
  do 2 eexists. split; [reflexivity|]. cbn. repeat split.
Qed.

Lemma search_persist_located h q name la lo rest lat lon cur fc dr st :
  search_persist h q (("name", name) :: ("lat", la) :: ("lon", lo) :: rest)
    lat lon cur fc dr st
  = match create_query_with_snapshot h
            (if String.eqb q "" then "direct-latlon/geolocation" else q)
            name lat lon cur (Some fc)
            (match dr with
             | Some dr => Some (Some (start dr), Some (end_ dr))
             | None => None
             end)
            None (st_store st) with
    | (Done row, s') =>
        (Done (RedirectResponse
                 ("/result?id=" ++ str_int (SearchQuery.id row)) 303),
         mkapp (st_log st) s')
    | (Failed e, s') => (Failed e, mkapp (st_log st) s')
    end.
Proof.
  unfold search_persist, dict_item.
  change (dict_has (("name", name) :: ("lat", la) :: ("lon", lo) :: rest)
            "name") with true.
  change (dict_get (("name", name) :: ("lat", la) :: ("lon", lo) :: rest)
            "name") with name.
  unfold hbind, hret, lift_db.
  now destruct (create_query_with_snapshot _ _ _ _ _ _ _ _ _ _) as [[row|e] s'].
Qed.

Lemma search_persist_post h q loc lat lon cur fc dr :
  located loc ->
  handler_post (search_post q dr) (search_persist h q loc lat lon cur fc dr).
Proof.
  intros (name & la & lo & rest & -> & Hname) st.
  rewrite search_persist_located.
  match goal with
  | |- context [create_query_with_snapshot ?a ?b ?c ?d ?e ?f ?g ?i ?j ?k] =>
      destruct (create_query_with_snapshot_cases a b c d e f g i j k)
        as [(row & snap & -> & Hid & Hsid & Hq & Hit & Hlb & Hds & Hde)
           |(e0 & -> & He)]
  end.
  - cbn [fst snd st_store search_post db]. split; [reflexivity|].
    exists row, snap.
    split; [reflexivity|]. split; [reflexivity|].
    split; [exact Hid|]. split; [exact Hsid|]. split; [exact Hq|].
    split; [exact Hit|]. split; [exact Hlb|].
    rewrite Hds, Hde. now destruct dr.
  - cbn [fst snd st_store search_post db]. split; [reflexivity|].
    destruct He as [-> | ->]; [now left | right; now eexists].
Qed.

Lemma search_post_error q dr msg code :
  (code = 400 \/ code = 502)%Z ->
  handler_post (search_post q dr) (hret (index_error msg code)).
Proof.
  intros Hc st. cbn. split; [reflexivity|]. split; [reflexivity|].
  split; [exact Hc | now eexists].
Qed.

Lemma search_post_failed q dr s e' :
  search_post q dr s (Failed (PyExn e')) s.
Proof. split; [reflexivity | right; now eexists]. Qed.

Lemma search_post_lift_M {A} (c : M A) q dr st e s :
  fst (lift_M c st) = Failed e -> search_post q dr s (Failed e) s.
Proof.
  intros Hf. apply lift_M_failed in Hf. destruct Hf as [e' ->].
  apply search_post_failed.
Qed.

Lemma search_post_holds h q dr :
  handler_post (search_post q dr)
    (resolved <- lift_M (geocode_one (host_world h) q) ;;
     match resolved with
     | None =>
         hret (index_error
                 "Could not resolve that location. Try a city, ZIP, or 'lat,lon'."
                 400)
     | Some resolved =>
         coords <- resolved_coords resolved ;;
         let '(lat, lon) := coords in
         match dr with
         | Some r =>
             range_rows <- lift_M (get_daily_range (host_world h) lat lon
                                     (start r) (end_ r)) ;;
             match range_rows with
             | None =>
                 hret (index_error "Could not fetch date-range data." 502)
             | Some range_rows =>
                 current <- lift_M (get_current_weather (host_world h) lat lon) ;;
                 match current with
                 | None =>
                     hret (index_error
                             "Weather lookup failed. Please try again." 502)
                 | Some current =>
                     search_persist h q resolved lat lon current range_rows dr
                 end
             end
         | None =>
             current <- lift_M (get_current_weather (host_world h) lat lon) ;;
             match current with
             | None =>
                 hret (index_error
                         "Weather lookup failed. Please try again." 502)
             | Some current =>
                 forecast <- lift_M (get_forecast_5d (host_world h) lat lon) ;;
                 search_persist h q resolved lat lon current
                   (or_nil forecast) dr
             end
         end
     end)%H.
Proof.
  apply handler_post_hbind
    with (R := fun r => match r with Some loc => located loc | None => True end).
  - apply keeps_store_lift_M.
  - intros st [loc|]; [|trivial]. unfold lift_M.
    destruct (geocode_one (host_world h) q (st_log st)) as [[a|e] log'] eqn:E;
      [|discriminate].
    cbn [fst]. intros [= ->]. now apply geocode_one_located in E.
  - intros st e s. apply search_post_lift_M.
  - intros [loc|] Hloc; [|apply search_post_error; now left].
    apply handler_post_hbind with (R := fun _ => True).
    + apply keeps_store_resolved_coords.
    + trivial.
    + intros st e s Hf. apply (resolved_coords_failed _ _ _ Hloc) in Hf.
      destruct Hf as [e' ->]. apply search_post_failed.
    + intros [lat lon] _. destruct dr as [r|].
      * apply handler_post_hbind with (R := fun _ => True);
          [apply keeps_store_lift_M | trivial
          | intros st e s; apply search_post_lift_M |].
        intros [rows|] _; [|apply search_post_error; now right].
        apply handler_post_hbind with (R := fun _ => True);
          [apply keeps_store_lift_M | trivial
          | intros st e s; apply search_post_lift_M |].
        intros [cur|] _; [|apply search_post_error; now right].
        now apply search_persist_post.
      * apply handler_post_hbind with (R := fun _ => True);
          [apply keeps_store_lift_M | trivial
          | intros st e s; apply search_post_lift_M |].
        intros [cur|] _; [|apply search_post_error; now right].
        apply handler_post_hbind with (R := fun _ => True);
          [apply keeps_store_lift_M | trivial
          | intros st e s; apply search_post_lift_M |].
        intros fc _. now apply search_persist_post.
Qed.

Lemma search_post_db_ok q dr s r s' :
  search_post q dr s r s' -> db_ok (db s) -> db_ok (db s').
Proof.
  destruct r as [[name ctx code|loc code]|e]; cbn [search_post].
  - now intros [-> _].
  - intros (_ & row & snap & _ & -> & Hid & Hsid & Hq & _) Hok.
    now apply db_ok_create.
  - now intros [-> _].
Qed.

(** X14: what [POST /search] can end with.  Dates that do not validate
    give the index page with the validator's message and status 400,
    before any request and with nothing written.  After validation the
    outcome is one of three.  An index page with an error and status 400
    or 502: the store is as it was.  A redirect with status 303 to
    [/result?id=<id>]: exactly one row was added to each table, the new
    query has the next id, the submitted text (or the placeholder for an
    empty one), no label and the validated dates, and the snapshot belongs
    to it.  An exception, never a [KeyError]: the database is as it was.
    In each case a database with unique keys and no stray snapshots stays
    one. *)
Theorem search_outcomes
    (h : host) (q : string) (start_s end_s : option string) (st : app_state) :
  match validate_date_range start_s end_s 31 with
  | Raise (ValueError msg) =>
      search h q start_s end_s st = (Done (index_error msg 400), st)
  | Raise e => search h q start_s end_s st = (Failed (PyExn e), st)
  | Return dr =>
      search_post q dr (st_store st)
        (fst (search h q start_s end_s st))
        (st_store (snd (search h q start_s end_s st)))
      /\ (db_ok (db (st_store st)) ->
          db_ok (db (st_store (snd (search h q start_s end_s st)))))
  end.
Proof.
  unfold search.
  destruct (validate_date_range start_s end_s 31) as [dr|[]]; try reflexivity.
  pose proof (search_post_holds h q dr st) as Hpost.
  split; [exact Hpost|]. intros Hok.
  exact (search_post_db_ok _ _ _ _ _ Hpost Hok).
Qed.


Lemma update_persist_located h id it lb name la lo rest lat lon cur fc dr st :
  update_persist h id it lb
    (("name", name) :: ("lat", la) :: ("lon", lo) :: rest) lat lon cur fc dr st
  = match update_query_core h id (Some it) name (Some lat) (Some lon)
            (Some (match dr with
                   | Some dr => (Some (start dr), Some (end_ dr))
                   | None => (None, None)
                   end))
            lb (st_store st) with
    | (Done None, s') =>
        (Done (index_error "Record not found." 404), mkapp (st_log st) s')
    | (Done (Some _), s') =>
        (Done (RedirectResponse ("/result?id=" ++ str_int id) 303),
         mkapp (st_log st) (snd (append_snapshot h id cur fc s')))
    | (Failed e, s') => (Failed e, mkapp (st_log st) s')
    end.
Proof.
  unfold update_persist, dict_item.
  change (dict_has (("name", name) :: ("lat", la) :: ("lon", lo) :: rest)
            "name") with true.
  change (dict_get (("name", name) :: ("lat", la) :: ("lon", lo) :: rest)
            "name") with name.
  unfold hbind, hret, lift_db, lift_session.
  destruct (update_query_core _ _ _ _ _ _ _ _ _) as [[[row'|]|e] s'];
    reflexivity.
Qed.








Lemma hbind_log_eq {A B C} (c : H A) (k1 : A -> H B) (k2 : A -> H C) :
  (forall a st1, st_log (snd (k1 a st1)) = st_log (snd (k2 a st1))) ->
  forall st, st_log (snd (hbind c k1 st)) = st_log (snd (hbind c k2 st)).
Proof.
  intros Hk st. unfold hbind. destruct (c st) as [[a|e] st1]; [|reflexivity].
  apply Hk.
Qed.

Lemma edit_error_log id msg code st :
  st_log (snd (edit_error id msg code st)) = st_log st.
Proof. reflexivity. Qed.

Lemma search_persist_log h q loc lat lon cur fc dr st :
  st_log (snd (search_persist h q loc lat lon cur fc dr st)) = st_log st.
Proof.
  unfold search_persist, dict_item.
  destruct (dict_has loc "name"); [|reflexivity].
  unfold hbind, hret, lift_db.
  now destruct (create_query_with_snapshot _ _ _ _ _ _ _ _ _ _) as [[row|e] s'].
Qed.

Lemma update_persist_log h id it lb loc lat lon cur fc dr st :
  st_log (snd (update_persist h id it lb loc lat lon cur fc dr st)) = st_log st.
Proof.
  unfold update_persist, dict_item.
  destruct (dict_has loc "name"); [|reflexivity].
  unfold hbind, hret, lift_db, lift_session.
  now destruct (update_query_core _ _ _ _ _ _ _ _ _) as [[[row'|]|e] s'].
Qed.

(** X17: an update makes exactly the upstream requests of a search for the
    same text and dates, in the same order.  So the geocoders and the
    weather service are asked before the row is looked up, also for an id
    that is not in the table; and in range mode the current conditions
    are requested as in a search, although [update] does not check that
    they arrived. *)
Theorem update_repeats_search_requests
    (h : host) (id : Z) (q : string) (label : option string)
    (start_s end_s : option string) (st : app_state) :
  st_log (snd (update h id q label start_s end_s st))
  = st_log (snd (search h q start_s end_s st)).
Proof.
  unfold update, search.
  destruct (validate_date_range start_s end_s 31) as [dr|[]]; try reflexivity.
  apply hbind_log_eq. intros [loc|] st1; [|reflexivity].
  apply hbind_log_eq. intros [lat lon] st2. destruct dr as [r|].
  - apply hbind_log_eq. intros [rows|] st3; [|reflexivity].
    apply hbind_log_eq. intros cur st4. rewrite update_persist_log.
    destruct cur as [cur|]; [now rewrite search_persist_log | reflexivity].
  - apply hbind_log_eq. intros [cur|] st3; [|reflexivity].
    apply hbind_log_eq. intros fc st4.
    now rewrite update_persist_log, search_persist_log.
Qed.

Lemma hbind_done {A B} (c : H A) (k : A -> H B) st a st1 :
  c st = (Done a, st1) -> hbind c k st = k a st1.
Proof. intros E. unfold hbind. now rewrite E. Qed.

Lemma hbind_failed {A B} (c : H A) (k : A -> H B) st e st1 :
  c st = (Failed e, st1) -> hbind c k st = (Failed e, st1).
Proof. intros E. unfold hbind. now rewrite E. Qed.

Lemma lift_M_done {A} (c : M A) st a log' :
  c (st_log st) = (Return a, log') ->
  lift_M c st = (Done a, mkapp log' (st_store st)).
Proof. intros E. unfold lift_M. now rewrite E. Qed.

(** X18: a location without a latitude stops both handlers with a
    [TypeError].  When the dates validate and [geocode_one] returns a
    location whose [lat] is [None], as the primary geocoder does for a
    result that has no [latitude], [search] and [update] raise [TypeError]
    at [float(resolved["lat"])]: no error page is rendered, no weather
    request is made after the geocoder's and nothing is written. *)
Theorem location_without_latitude_raises
    (h : host) (q : string) (id : Z) (label : option string)
    (start_s end_s : option string) (st : app_state)
    (dr : option DateRange) (loc : dict) (log1 : list request) :
  validate_date_range start_s end_s 31 = Return dr ->
  geocode_one (host_world h) q (st_log st) = (Return (Some loc), log1) ->
  dict_get loc "lat" = JNull ->
  search h q start_s end_s st
  = (Failed (PyExn TypeError), mkapp log1 (st_store st))
  /\ update h id q label start_s end_s st
     = (Failed (PyExn TypeError), mkapp log1 (st_store st)).
Proof.
  intros Hv Hg Hlat.
  pose proof (geocode_one_located _ _ _ _ _ Hg)
    as (name & la & lo & rest & -> & _).
  change (dict_get (("name", name) :: ("lat", la) :: ("lon", lo) :: rest)
            "lat") with la in Hlat.
  subst la.
  unfold search, update. rewrite Hv.
  rewrite !(hbind_done _ _ _ _ _ (lift_M_done _ _ _ _ Hg)).
  assert (Hr : forall st1,
             resolved_coords
               (("name", name) :: ("lat", JNull) :: ("lon", lo) :: rest) st1
             = (Failed (PyExn TypeError), st1))
    by (intros st1; now rewrite resolved_coords_located).
  rewrite !(hbind_failed _ _ _ _ _ (Hr _)). split; reflexivity.
Qed.

Lemma location_without_latitude_raises_witness :
  search (example_host nameless_coords_world) "Atlantis" None None
    (mkapp [] empty_store)
  = (Failed (PyExn TypeError),
     mkapp [primary_request "Atlantis"] empty_store)
  /\ update (example_host nameless_coords_world) 1 "Atlantis" None None None
       (mkapp [] empty_store)
     = (Failed (PyExn TypeError),
        mkapp [primary_request "Atlantis"] empty_store).
Proof.
  apply (location_without_latitude_raises
           (example_host nameless_coords_world) "Atlantis" 1 None None None
           (mkapp [] empty_store) None
           [("name", JStr "Atlantis"); ("lat", JNull); ("lon", JNull);
            ("country_code", JNull); ("source", JStr "open-meteo")]
           [primary_request "Atlantis"]);
    reflexivity.
Defined.

Lemma update_query_core_accepts h id it name n la lo dr lb s row :
  fst (get_query id s) = Some row ->
  column_text h name = Done n ->
  PrimFloat.is_nan la = false -> PrimFloat.is_nan lo = false ->
  exists row',
    update_query_core h id (Some it) name (Some la) (Some lo) dr lb s
    = (Done (Some row'),
       mkstore (mkdatabase (replace_query id row' (searchquery (db s)))
                           (weathersnapshot (db s)))
               (clock_reads s)).
Proof.
  unfold get_query, update_query_core. cbn [fst]. intros -> Hn Ha Ho.
  assert (E : (match name with
               | JNull => Done (SearchQuery.resolved_name row)
               | _ => column_text h name
               end) = Done n)
    by (destruct name; try exact Hn; discriminate).
  rewrite E. cbn [nan_given]. rewrite Ha, Ho. cbn [orb]. now eexists.
Qed.

(** X19: in range mode [search] insists on the current conditions and
    [update] does not.  Let the dates validate as a range, the location
    resolve with coordinates, and the range fetch return rows, while the
    current-conditions request fails.  Then [search] answers the index
    page with status 502 and writes nothing; [update], for a row that
    exists and a name and coordinates SQLite takes, redirects with status
    303 after appending a snapshot of this id whose [current_json] is
    [json.dumps(None)] and whose [forecast_json] holds the range rows.
    Both have made the current-conditions request, after those of the
    range. *)
Theorem range_mode_current_failure
    (h : host) (q : string) (id : Z) (label : option string)
    (start_s end_s : option string) (st : app_state)
    (r : DateRange) (loc : dict) (lat lon : float) (rows : list DayRow.t)
    (log1 log2 : list request) (row : SearchQuery.t) (n : string) :
  validate_date_range start_s end_s 31 = Return (Some r) ->
  geocode_one (host_world h) q (st_log st) = (Return (Some loc), log1) ->
  py_float (dict_get loc "lat") = Return lat ->
  py_float (dict_get loc "lon") = Return lon ->
  get_daily_range (host_world h) lat lon (start r) (end_ r) log1
  = (Return (Some rows), log2) ->
  weather_api (host_world h) log2 (current_request lat lon) = None ->
  fst (get_query id (st_store st)) = Some row ->
  column_text h (dict_get loc "name") = Done n ->
  PrimFloat.is_nan lat = false -> PrimFloat.is_nan lon = false ->
  search h q start_s end_s st
  = (Done (index_error "Weather lookup failed. Please try again." 502),
     mkapp (log2 ++ [current_request lat lon]) (st_store st))
  /\ fst (update h id q label start_s end_s st)
     = Done (RedirectResponse ("/result?id=" ++ str_int id) 303)
  /\ st_log (snd (update h id q label start_s end_s st))
     = log2 ++ [current_request lat lon]
  /\ weathersnapshot
       (db (st_store (snd (update h id q label start_s end_s st))))
     = weathersnapshot (db (st_store st))
       ++ [WeatherSnapshot.mk (next_id (snapshot_ids (db (st_store st)))) id
             (json_dumps_current h None) (json_dumps_rows h rows)
             (clock h (clock_reads (st_store st)))].
Proof.
  intros Hv Hg Hlat Hlon Hr Hc Hrow Hn Ha Ho.
  pose proof (geocode_one_located _ _ _ _ _ Hg)
    as (name & la & lo & rest & -> & _).
  change (dict_get (("name", name) :: ("lat", la) :: ("lon", lo) :: rest)
            "lat") with la in Hlat.
  change (dict_get (("name", name) :: ("lat", la) :: ("lon", lo) :: rest)
            "lon") with lo in Hlon.
  change (dict_get (("name", name) :: ("lat", la) :: ("lon", lo) :: rest)
            "name") with name in Hn.
  assert (Hrc : forall st1,
             resolved_coords
               (("name", name) :: ("lat", la) :: ("lon", lo) :: rest) st1
             = (Done (lat, lon), st1))
    by (intros st1; now rewrite resolved_coords_located, Hlat, Hlon).
  assert (Hcur : get_current_weather (host_world h) lat lon log2
                 = (Return None, log2 ++ [current_request lat lon]))
    by now rewrite get_current_weather_spec, Hc.
  unfold search, update. rewrite Hv.
  rewrite !(hbind_done _ _ _ _ _ (lift_M_done _ _ _ _ Hg)).
  rewrite !(hbind_done _ _ _ _ _ (Hrc _)).
  rewrite !(hbind_done _ _ _ _ _
              (lift_M_done _ (mkapp log1 (st_store st)) _ _ Hr)).
  rewrite !(hbind_done _ _ _ _ _
              (lift_M_done _ (mkapp log2 (st_store st)) _ _ Hcur)).
  split; [reflexivity|].
  rewrite update_persist_located. cbn [st_store st_log].
  destruct (update_query_core_accepts h id q name n lat lon
              (Some (Some (start r), Some (end_ r))) label (st_store st) row
              Hrow Hn Ha Ho) as [row' ->].
  rewrite append_snapshot_spec.
  cbn [fst snd st_log st_store db weathersnapshot clock_reads].
  repeat split.
Qed.

Lemma range_mode_current_failure_witness :
  let h := example_host range_only_world in
  let st := mkapp [] one_row_store in
  let lat := 48.85341%float in
  let lon := 2.3488%float in
  let log2 := [primary_request "Paris";
               range_request ARCHIVE_URL lat lon
                 (mkdate 2025 6 1) (mkdate 2025 6 2)] in
  search h "Paris" (Some "2025-06-01") (Some "2025-06-02") st
  = (Done (index_error "Weather lookup failed. Please try again." 502),
     mkapp (log2 ++ [current_request lat lon]) one_row_store)
  /\ fst (update h 1 "Paris" None (Some "2025-06-01") (Some "2025-06-02") st)
     = Done (RedirectResponse ("/result?id=" ++ str_int 1) 303)
  /\ st_log (snd (update h 1 "Paris" None
                    (Some "2025-06-01") (Some "2025-06-02") st))
     = log2 ++ [current_request lat lon]
  /\ weathersnapshot
       (db (st_store (snd (update h 1 "Paris" None
                             (Some "2025-06-01") (Some "2025-06-02") st))))
     = weathersnapshot (db one_row_store)
       ++ [WeatherSnapshot.mk (next_id (snapshot_ids (db one_row_store))) 1
             (json_dumps_current h None)
             (json_dumps_rows h
                (rows_upto
                   (daily_with_times [mkdate 2025 6 1; mkdate 2025 6 2]) 2))
             (clock h (clock_reads one_row_store))].
Proof.
  apply (range_mode_current_failure
           (example_host range_only_world) "Paris" 1 None
           (Some "2025-06-01") (Some "2025-06-02")
           (mkapp [] one_row_store)
           (mkDateRange (mkdate 2025 6 1) (mkdate 2025 6 2))
           [("name", JStr "Paris, France"); ("lat", JFloat 48.85341);
            ("lon", JFloat 2.3488); ("country_code", JNull);
            ("source", JStr "open-meteo")]
           48.85341 2.3488
           (rows_upto (daily_with_times [mkdate 2025 6 1; mkdate 2025 6 2]) 2)
           [primary_request "Paris"]
           [primary_request "Paris";
            range_request ARCHIVE_URL 48.85341 2.3488
              (mkdate 2025 6 1) (mkdate 2025 6 2)]
           (SearchQuery.mk 1 "Lyon" "Lyon, France" 45.75 4.85
              None None None 0)
           "Paris, France");
    reflexivity.
Defined.

(** X20: in 5-day mode a forecast that cannot be fetched does not stop a
    search.  Let no dates be given, the location resolve with coordinates
    and a name SQLite takes, and the current-conditions request succeed
    while the forecast request, made next, fails.  Then [search] still
    redirects with status 303 to the new row, and the snapshot it stored
    holds the current conditions and [json.dumps([])] as its forecast. *)
Theorem five_day_forecast_failure
    (h : host) (q : string) (start_s end_s : option string) (st : app_state)
    (loc : dict) (lat lon : float) (data : Payload.weather)
    (log1 : list request) (n : string) :
  validate_date_range start_s end_s 31 = Return None ->
  geocode_one (host_world h) q (st_log st) = (Return (Some loc), log1) ->
  py_float (dict_get loc "lat") = Return lat ->
  py_float (dict_get loc "lon") = Return lon ->
  weather_api (host_world h) log1 (current_request lat lon) = Some data ->
  weather_api (host_world h) (log1 ++ [current_request lat lon])
    (forecast_request lat lon) = None ->
  column_text h (dict_get loc "name") = Done n ->
  PrimFloat.is_nan lat = false -> PrimFloat.is_nan lon = false ->
  fst (search h q start_s end_s st)
  = Done (RedirectResponse
            ("/result?id=" ++ str_int (next_id (query_ids (db (st_store st)))))
            303)
  /\ st_log (snd (search h q start_s end_s st))
     = log1 ++ [current_request lat lon] ++ [forecast_request lat lon]
  /\ weathersnapshot (db (st_store (snd (search h q start_s end_s st))))
     = weathersnapshot (db (st_store st))
       ++ [WeatherSnapshot.mk (next_id (snapshot_ids (db (st_store st))))
             (next_id (query_ids (db (st_store st))))
             (json_dumps_current h (Some (current_of data)))
             (json_dumps_rows h [])
             (clock h (S (clock_reads (st_store st))))].
Proof.
  intros Hv Hg Hlat Hlon Hc Hf Hn Ha Ho.
  pose proof (geocode_one_located _ _ _ _ _ Hg)
    as (name & la & lo & rest & -> & _).
  change (dict_get (("name", name) :: ("lat", la) :: ("lon", lo) :: rest)
            "lat") with la in Hlat.
  change (dict_get (("name", name) :: ("lat", la) :: ("lon", lo) :: rest)
            "lon") with lo in Hlon.
  change (dict_get (("name", name) :: ("lat", la) :: ("lon", lo) :: rest)
            "name") with name in Hn.
  assert (Hrc : forall st1,
             resolved_coords
               (("name", name) :: ("lat", la) :: ("lon", lo) :: rest) st1
             = (Done (lat, lon), st1))
    by (intros st1; now rewrite resolved_coords_located, Hlat, Hlon).
  assert (Hcur : get_current_weather (host_world h) lat lon log1
                 = (Return (Some (current_of data)),
                    log1 ++ [current_request lat lon]))
    by now rewrite get_current_weather_spec, Hc.
  assert (Hfc : get_forecast_5d (host_world h) lat lon
                  (log1 ++ [current_request lat lon])
                = (Return None,
                   (log1 ++ [current_request lat lon])
                   ++ [forecast_request lat lon]))
    by now rewrite get_forecast_5d_spec, Hf.
  unfold search. rewrite Hv.
  rewrite (hbind_done _ _ _ _ _ (lift_M_done _ _ _ _ Hg)).
  rewrite (hbind_done _ _ _ _ _ (Hrc _)).
  rewrite (hbind_done _ _ _ _ _
             (lift_M_done _ (mkapp log1 (st_store st)) _ _ Hcur)).
  rewrite (hbind_done _ _ _ _ _
             (lift_M_done _ (mkapp (log1 ++ [current_request lat lon])
                               (st_store st)) _ _ Hfc)).
  rewrite search_persist_located. cbn [st_store st_log or_nil].
  rewrite (create_query_with_snapshot_spec _ _ _ _ _ _ _ _ _ _ _ Hn Ha Ho).
  cbn [fst snd st_log st_store db weathersnapshot SearchQuery.id or_nil].
  rewrite <- app_assoc. repeat split.
Qed.

Lemma five_day_forecast_failure_witness :
  let h := example_host current_only_world in
  let st := mkapp [] one_row_store in
  let lat := 48.85341%float in
  let lon := 2.3488%float in
  fst (search h "Paris" None None st)
  = Done (RedirectResponse
            ("/result?id=" ++ str_int (next_id (query_ids (db one_row_store))))
            303)
  /\ st_log (snd (search h "Paris" None None st))
     = [primary_request "Paris"]
       ++ [current_request lat lon] ++ [forecast_request lat lon]
  /\ weathersnapshot (db (st_store (snd (search h "Paris" None None st))))
     = weathersnapshot (db one_row_store)
       ++ [WeatherSnapshot.mk (next_id (snapshot_ids (db one_row_store)))
             (next_id (query_ids (db one_row_store)))
             (json_dumps_current h
                (Some (current_of (Payload.mkweather None None))))
             (json_dumps_rows h [])
             (clock h (S (clock_reads one_row_store)))].
Proof.
  apply (five_day_forecast_failure
           (example_host current_only_world) "Paris" None None
           (mkapp [] one_row_store)
           [("name", JStr "Paris, France"); ("lat", JFloat 48.85341);
            ("lon", JFloat 2.3488); ("country_code", JNull);
            ("source", JStr "open-meteo")]
           48.85341 2.3488 (Payload.mkweather None None)
           [primary_request "Paris"] "Paris, France");
    reflexivity.
Defined.
